(** * The diagnosis list view of the cattle-diagnosis web client

    A shallow embedding of [frontend/src/components/DiagnosisHistory.jsx]
    (search, severity filter, sort, pagination, CSV export, data loading,
    cards), of the data loading and the figures of
    [frontend/src/components/Dashboard.jsx] and of the access token of
    [frontend/src/lib/api.js], together with the properties the specification
    states about them and further properties of the same code.

    Layout of the development:
    - [JS]        : the fragment of JavaScript the components rely on (values
                    decoded from JSON, truthiness, property access, strings,
                    numbers, [Array.prototype.sort], [Array.prototype.slice]);
    - [History]   : the [DiagnosisHistory] component;
    - [Dashboard] : the [Dashboard] loading effect;
    - [Reference] : a concrete engine, to run the components on sample data;
    - [Sample]    : sample data;
    - [HistoryView], [Card], [Page] : what the list view displays (the
                    counter of records, badges, confidence bar, cards, body);
    - [Proto]     : the members an object literal used as a table inherits;
    - [Stats]     : the figures of the dashboard;
    - [Csv]       : a reader for the lines of the exported document;
    - [Api]       : the access token of [frontend/src/lib/api.js];
    - the vocabulary of the properties, then the properties, one theorem per
      numbered property [C1] .. [C10] of the specification, followed by
      further properties of the same code, [X1] .. [X22].

    Conventions of the model:
    - the records are untyped values, as the components receive them; the
      code that reads a property of [null] or calls a string method on
      something else throws, and the model returns [Throw];
    - a finite number is the rational it denotes. A sum, a product and a
      quotient are rounded to a double by the engine ([Number_value]); of a
      difference only the sign is used, which rounding keeps, and
      [Math.round] is exact on a double;
    - a string is a sequence of character codes; its case mapping and the
      trimming of its white space are built-ins of the engine
      ([String_toLowerCase], [String_trim]);
    - the built-ins that parse or print ([Date.parse], the conversion of a
      string to a number and of a number to a string) are parameters of every
      definition too, gathered with the others in an [engine]. A property
      that needs a fact about a built-in states it as a hypothesis:
      [conforming] (what the case mapping and the trimming do to the text of
      the ASCII range) and [rounds] (rounding to a double keeps the order and
      is exact on whole numbers);
    - a React state setter is an action; a component is its state, the
      handlers of its events and the effect that runs after each render. *)

From Stdlib Require Import List String Ascii Bool Arith ZArith QArith Qround Qabs Lia.
From Stdlib Require Import Permutation Sorted.
From Stdlib Require Import Lqa Qpower.
Import ListNotations.

Set Warnings "-register-all".

Local Open Scope list_scope.
Local Open Scope string_scope.

(* ================================================================== *)
(** * The JavaScript fragment                                           *)
(* ================================================================== *)

Module JS.

(** ** Completions: a computation returns normally or throws. The only
    exception the modelled code can raise is a [TypeError] (reading a property
    of [null]/[undefined], calling a method a value does not have). *)

Inductive exn : Type := TypeError.

Inductive completion (A : Type) : Type :=
| Normal (a : A)
| Throw (e : exn).
Arguments Normal {A} a.
Arguments Throw {A} e.

Definition bind {A B} (c : completion A) (k : A -> completion B) : completion B :=
  match c with
  | Normal a => k a
  | Throw e => Throw e
  end.

Notation "x <- c ;; k" := (bind c (fun x => k))
  (at level 61, c at next level, right associativity).

(** ** Numbers. A number that comes out of a computation is [NaN], an
    infinity or finite; a finite double is represented by the rational it
    denotes. The numbers of the data are finite. *)

Inductive number : Type :=
| NaN
| Inf (negative : bool)
| Fin (q : Q).

(** ** Values, as [JSON.parse] builds them (plus [undefined], the result of
    reading an absent property). An object is the list of its own properties;
    reading a property takes the first binding of the key. *)

Inductive value : Type :=
| VUndefined
| VNull
| VBool (b : bool)
| VNum (q : Q)
| VStr (s : string)
| VArr (xs : list value)
| VObj (fields : list (string * value)).

(** The engine built-ins whose definition lies outside the repository and that
    the components call on arbitrary data. Every definition below takes them as
    a parameter; a theorem that needs a fact about one of them states it as a
    hypothesis. *)

Record engine : Type := {
  (** [Date.parse]: the time value (milliseconds since the epoch) of a date
      string, [NaN] when the string is not a date. *)
  Date_parse : string -> number;
  (** [StringToNumber]: the numeric value of a string, [NaN] when it is not a
      numeric literal. *)
  StringToNumber : string -> number;
  (** [Number::toString] on a finite number. *)
  Number_toString : Q -> string;
  (** [String.prototype.toLowerCase] on a string. *)
  String_toLowerCase : string -> string;
  (** [String.prototype.trim] on a string. *)
  String_trim : string -> string;
  (** The Number value for a real number: the double nearest to it, ties to
      the even one, an infinity beyond the range of the doubles. The sum, the
      product and the quotient of two finite numbers are the Number values
      of the exact results. *)
  Number_value : Q -> number
}.

(** *** Truthiness, [typeof], [||] and [&&] *)

Definition Qis_zero (q : Q) : bool := (Qnum q =? 0)%Z.

Definition truthy (v : value) : bool :=
  match v with
  | VUndefined | VNull => false
  | VBool b => b
  | VNum q => negb (Qis_zero q)
  | VStr s => negb (s =? EmptyString)
  | VArr _ | VObj _ => true
  end.

Definition typeof (v : value) : string :=
  match v with
  | VUndefined => "undefined"
  | VNull | VArr _ | VObj _ => "object"
  | VBool _ => "boolean"
  | VNum _ => "number"
  | VStr _ => "string"
  end.

(** [a || b] *)
Definition or_else (a b : value) : value := if truthy a then a else b.
(** [a && b] *)
Definition and_then (a b : value) : value := if truthy a then b else a.

Infix "|||" := or_else (at level 50, left associativity).
Infix "&&&" := and_then (at level 40, left associativity).

Definition nullish (v : value) : bool :=
  match v with
  | VUndefined | VNull => true
  | _ => false
  end.

(** *** Property access *)

Fixpoint assoc (k : string) (fs : list (string * value)) : value :=
  match fs with
  | [] => VUndefined
  | (k', v) :: fs' => if k =? k' then v else assoc k fs'
  end.

Definition string_of_ascii (c : ascii) : string := String c EmptyString.

(** [v.k] for a named data property [k]. Arrays and strings expose [length];
    the inherited methods are not data and are never read through this
    function. Reading a property of [null] or [undefined] throws. *)
Definition get (v : value) (k : string) : completion value :=
  match v with
  | VUndefined | VNull => Throw TypeError
  | VObj fs => Normal (assoc k fs)
  | VArr xs => Normal (if k =? "length" then VNum (inject_Z (Z.of_nat (List.length xs)))
                       else VUndefined)
  | VStr s => Normal (if k =? "length" then VNum (inject_Z (Z.of_nat (String.length s)))
                      else VUndefined)
  | VBool _ | VNum _ => Normal VUndefined
  end.

(** [v?.k]: [undefined] instead of an exception on [null]/[undefined]. *)
Definition get_opt (v : value) (k : string) : completion value :=
  if nullish v then Normal VUndefined else get v k.

(** The decimal spelling of an array index, for objects that carry such a key. *)
Definition digit_of_nat (n : nat) : ascii := ascii_of_nat (48 + n).

Fixpoint decimal_fuel (fuel n : nat) (acc : string) : string :=
  match fuel with
  | O => acc
  | S fuel' =>
      let acc' := String (digit_of_nat (n mod 10)) acc in
      if n / 10 =? 0 then acc' else decimal_fuel fuel' (n / 10) acc'
  end%nat.

Definition decimal_of_nat (n : nat) : string := decimal_fuel (S n) n EmptyString.

(** [v[i]] for an index [i]. *)
Definition get_index (v : value) (i : nat) : completion value :=
  match v with
  | VUndefined | VNull => Throw TypeError
  | VArr xs => Normal (nth i xs VUndefined)
  | VStr s => Normal (match String.get i s with
                      | Some c => VStr (string_of_ascii c)
                      | None => VUndefined
                      end)
  | VObj fs => Normal (assoc (decimal_of_nat i) fs)
  | VBool _ | VNum _ => Normal VUndefined
  end.

(** *** Strings. A string is a sequence of character codes. The case mapping
    and the trimming of white space are built-ins of the engine. *)

Fixpoint starts_with (p s : string) : bool :=
  match p, s with
  | EmptyString, _ => true
  | String a p', String b s' => Ascii.eqb a b && starts_with p' s'
  | String _ _, EmptyString => false
  end.

(** [s.includes(q)] *)
Fixpoint includes (s q : string) : bool :=
  starts_with q s ||
  match s with
  | EmptyString => false
  | String _ s' => includes s' q
  end.

Fixpoint join (sep : string) (l : list string) : string :=
  match l with
  | [] => EmptyString
  | [x] => x
  | x :: l' => x ++ sep ++ join sep l'
  end.

(** [s.slice(0, n)] on a string, [n >= 0]. *)
Fixpoint str_take (n : nat) (s : string) : string :=
  match n, s with
  | S n', String c s' => String c (str_take n' s')
  | _, _ => EmptyString
  end.

(** *** Conversions *)

Section WithEngine.
Variable E : engine.

(** [String(v)] *)
Fixpoint ToString (v : value) : string :=
  match v with
  | VUndefined => "undefined"
  | VNull => "null"
  | VBool true => "true"
  | VBool false => "false"
  | VNum q => Number_toString E q
  | VStr s => s
  | VArr xs =>
      join "," (map (fun x => if nullish x then EmptyString else ToString x) xs)
  | VObj _ => "[object Object]"
  end.

(** [ToNumber(v)] *)
Definition ToNumber (v : value) : number :=
  match v with
  | VUndefined => NaN
  | VNull => Fin 0
  | VBool true => Fin 1
  | VBool false => Fin 0
  | VNum q => Fin q
  | VStr s => StringToNumber E s
  | VArr _ | VObj _ => StringToNumber E (ToString v)
  end.

Definition number_toString (n : number) : string :=
  match n with
  | NaN => "NaN"
  | Inf false => "Infinity"
  | Inf true => "-Infinity"
  | Fin q => Number_toString E q
  end.

(** [v.toLowerCase()]: only strings have the method. *)
Definition toLowerCase (v : value) : completion string :=
  match v with
  | VStr s => Normal (String_toLowerCase E s)
  | _ => Throw TypeError
  end.

(** *** Arithmetic. The result of an operation on two finite numbers is the
    Number value of the exact result; [NaN] is absorbing. *)

Definition negative (q : Q) : bool := (Qnum q <? 0)%Z.

(** [a + b] on numbers. *)
Definition num_add (a b : number) : number :=
  match a, b with
  | NaN, _ | _, NaN => NaN
  | Fin x, Fin y => Number_value E (x + y)
  | Inf s, Fin _ | Fin _, Inf s => Inf s
  | Inf s, Inf t => if Bool.eqb s t then Inf s else NaN
  end.

(** [a * b] *)
Definition num_mul (a b : number) : number :=
  match a, b with
  | NaN, _ | _, NaN => NaN
  | Fin x, Fin y => Number_value E (x * y)
  | Inf s, Fin y | Fin y, Inf s =>
      if Qis_zero y then NaN else Inf (xorb s (negative y))
  | Inf s, Inf t => Inf (xorb s t)
  end.

(** [n / d] for a count [d] that is positive. *)
Definition num_div (n : number) (d : Z) : number :=
  match n with
  | NaN => NaN
  | Inf s => Inf s
  | Fin x => Number_value E (x / inject_Z d)
  end.

End WithEngine.

(** [a - b]. Of a difference only the sign is used, by the comparators of a
    sort; rounding keeps the sign of the difference of two doubles, and the
    exact difference stands for the rounded one. *)
Definition num_sub (a b : number) : number :=
  match a, b with
  | NaN, _ | _, NaN => NaN
  | Fin x, Fin y => Fin (x - y)
  | Inf s, Fin _ => Inf s
  | Fin _, Inf s => Inf (negb s)
  | Inf s, Inf t => if Bool.eqb s t then NaN else Inf s
  end.

(** [Math.round]: the nearest integer, halves rounded up; exact on a double. *)
Definition Math_round (n : number) : number :=
  match n with
  | NaN => NaN
  | Inf s => Inf s
  | Fin q => Fin (inject_Z (Qfloor (q + (1 # 2))))
  end.

(** *** Dates. [new Date(v)] for one argument: a string (or an object, through
    its string form) is parsed, anything else is converted to a number and
    clipped to the range of time values. The result is the time value; [NaN]
    is an invalid date. *)

Definition max_time : Q := 8640000000000000 # 1.

Definition Qtruncate (q : Q) : Z := Z.quot (Qnum q) (Zpos (Qden q)).

Definition TimeClip (q : Q) : number :=
  if Qle_bool (Qabs q) max_time then Fin (inject_Z (Qtruncate q)) else NaN.

Section Dates.
Variable E : engine.

Definition Date_value (v : value) : number :=
  match v with
  | VStr s => Date_parse E s
  | VArr _ | VObj _ => Date_parse E (ToString E v)
  | _ => match ToNumber E v with
         | NaN | Inf _ => NaN
         | Fin q => TimeClip q
         end
  end.

End Dates.

(** *** [Array.prototype.sort(comparefn)]

    [undefined] elements are moved to the end without being compared. The
    others are arranged by the comparator: a positive result puts the second
    argument first, a negative one, zero or [NaN] keeps the first argument
    first. The sort is stable. When the comparator is a consistent ordering
    this fixes the result, so every engine returns the list computed here;
    the stable insertion below is the reference arrangement. A comparator
    that throws makes the sort throw. *)

Definition positive (n : number) : bool :=
  match n with
  | NaN => false
  | Inf s => negb s
  | Fin q => (0 <? Qnum q)%Z
  end.

Definition is_undefined (v : value) : bool :=
  match v with
  | VUndefined => true
  | _ => false
  end.

Section Sort.
Variable comparefn : value -> value -> completion number.

(** [x] stood before every element of [l] in the array. *)
Fixpoint insert (x : value) (l : list value) : completion (list value) :=
  match l with
  | [] => Normal [x]
  | y :: l' =>
      v <- comparefn x y ;;
      if positive v then (r <- insert x l' ;; Normal (y :: r))
      else Normal (x :: l)
  end.

Fixpoint sort_defined (l : list value) : completion (list value) :=
  match l with
  | [] => Normal []
  | x :: l' => s <- sort_defined l' ;; insert x s
  end.

Definition sort (l : list value) : completion (list value) :=
  s <- sort_defined (filter (fun v => negb (is_undefined v)) l) ;;
  Normal (s ++ filter is_undefined l)%list.

End Sort.

(** *** [Array.prototype.filter] with a callback that may throw. *)
Fixpoint filter_m (f : value -> completion bool) (l : list value)
  : completion (list value) :=
  match l with
  | [] => Normal []
  | x :: l' =>
      b <- f x ;;
      r <- filter_m f l' ;;
      Normal (if b then x :: r else r)
  end.

(** *** [Array.prototype.map] with a callback that may throw. *)
Fixpoint map_m {A B} (f : A -> completion B) (l : list A) : completion (list B) :=
  match l with
  | [] => Normal []
  | x :: l' =>
      y <- f x ;;
      r <- map_m f l' ;;
      Normal (y :: r)
  end.

(** *** [Array.prototype.slice(start, end)]: negative indices count from the
    end, both bounds are clamped to the length. *)
Definition relative_index (len i : Z) : Z :=
  if (i <? 0)%Z then Z.max (len + i) 0 else Z.min i len.

Definition slice {A} (l : list A) (start end_ : Z) : list A :=
  let len := Z.of_nat (List.length l) in
  let k := relative_index len start in
  let final := relative_index len end_ in
  firstn (Z.to_nat (final - k)) (skipn (Z.to_nat k) l).

(** *** [Array.isArray] and the elements of an array value. *)
Definition Array_isArray (v : value) : bool :=
  match v with
  | VArr _ => true
  | _ => false
  end.

Definition elements (v : value) : list value :=
  match v with
  | VArr xs => xs
  | _ => []
  end.

(** *** How the promise of [api.get(path)] settles: fulfilled with a response
    whose [data] is the decoded body, or rejected (network failure, status
    outside 2xx, timeout). *)
Inductive outcome : Type :=
| Resolved (data : value)
| Rejected.

End JS.

(* ================================================================== *)
(** * [DiagnosisHistory.jsx]                                            *)
(* ================================================================== *)

Module History.
Import JS.

Section WithEngine.
Variable E : engine.

(** ** Display helpers (lines 67-83) *)

Definition getCattleName (item : value) : completion value :=
  if negb (truthy item) then Normal (VStr "Unknown") else
  cattle <- get item "cattle" ;;
  if truthy cattle && (typeof cattle =? "object") then
    name <- get cattle "name" ;;
    tag_number <- get cattle "tag_number" ;;
    Normal (name ||| tag_number ||| VStr "Unknown")
  else
  cattle_name <- get item "cattle_name" ;;
  if truthy cattle_name then Normal cattle_name else
  if truthy cattle && (typeof cattle =? "number") then
    Normal (VStr ("Cattle #" ++ ToString E cattle))
  else Normal (VStr "Unknown").

(** [x && (x.disease || x)] and [x.disease || x]: the property is read only
    when [x] is truthy. *)
Definition disease_or_self (x : value) : completion value :=
  d <- get x "disease" ;; Normal (d ||| x).

Definition guarded_disease (x : value) : completion value :=
  if truthy x then disease_or_self x else Normal x.

Definition getTopDisease (item : value) : completion value :=
  if negb (truthy item) then Normal (VStr "No prediction") else
  ml <- get item "_ml" ;;
  ml_top <- get_opt ml "top_processed" ;;
  item_top <- get item "top_processed" ;;
  let topProcessed := ml_top ||| item_top in
  c <- guarded_disease topProcessed ;;
  if truthy c then disease_or_self topProcessed else
  top_prediction <- get item "top_prediction" ;;
  predictions <- get item "predictions" ;;
  first <- (if truthy predictions then get_index predictions 0
            else Normal predictions) ;;
  let top := top_prediction ||| first in
  c' <- guarded_disease top ;;
  if truthy c' then disease_or_self top else
  Normal (VStr "No prediction").

(** ** Filtering and searching (lines 86-95) *)

Definition matchesSeverity (severityFilter : string) (item : value)
  : completion bool :=
  if severityFilter =? "all" then Normal true else
  sev <- get item "severity" ;;
  s <- toLowerCase E (sev ||| VStr EmptyString) ;;
  Normal (s =? severityFilter).

Definition keep (search severityFilter : string) (item : value)
  : completion bool :=
  let q := String_toLowerCase E (String_trim E search) in
  n <- getCattleName item ;;
  cattleName <- toLowerCase E n ;;
  d <- getTopDisease item ;;
  disease <- toLowerCase E (d ||| VStr EmptyString) ;;
  let matchesSearch := (q =? EmptyString) || includes cattleName q || includes disease q in
  ms <- matchesSeverity severityFilter item ;;
  Normal (matchesSearch && ms).

Definition filtered (items : list value) (search severityFilter : string)
  : completion (list value) :=
  filter_m (keep search severityFilter) items.

(** ** Sorting (lines 98-110) *)

(** [new Date(item.created_at || 0)] *)
Definition created_time (item : value) : completion number :=
  c <- get item "created_at" ;;
  Normal (Date_value E (c ||| VNum 0)).

(** [(item.confidence || 0)], as the subtraction converts it. *)
Definition confidence_num (item : value) : completion number :=
  c <- get item "confidence" ;;
  Normal (ToNumber E (c ||| VNum 0)).

Definition by_newest (a b : value) : completion number :=
  tb <- created_time b ;; ta <- created_time a ;; Normal (num_sub tb ta).

Definition by_oldest (a b : value) : completion number :=
  ta <- created_time a ;; tb <- created_time b ;; Normal (num_sub ta tb).

Definition by_confidence_desc (a b : value) : completion number :=
  cb <- confidence_num b ;; ca <- confidence_num a ;; Normal (num_sub cb ca).

Definition by_confidence_asc (a b : value) : completion number :=
  ca <- confidence_num a ;; cb <- confidence_num b ;; Normal (num_sub ca cb).

Definition sorted (filtered : list value) (sortBy : string)
  : completion (list value) :=
  if sortBy =? "newest" then sort by_newest filtered
  else if sortBy =? "oldest" then sort by_oldest filtered
  else if sortBy =? "confidence_desc" then sort by_confidence_desc filtered
  else if sortBy =? "confidence_asc" then sort by_confidence_asc filtered
  else Normal filtered.

(** ** Pagination (lines 113-120) *)

(** [Math.ceil(n / p)] on integers, [p] not zero. *)
Definition Math_ceil_div (n p : Z) : Z := Qceiling (inject_Z n / inject_Z p).

Definition pageCount (length itemsPerPage : Z) : Z :=
  Z.max 1 (Math_ceil_div length itemsPerPage).

(** The effect of lines 114-117: the page a state settles on. *)
Definition clamp (page pageCount : Z) : Z :=
  if (page >=? pageCount)%Z then Z.max 0 (pageCount - 1) else page.

Definition visible (sorted : list value) (page itemsPerPage : Z) : list value :=
  let start := (page * itemsPerPage)%Z in
  slice sorted start (start + itemsPerPage).

(** ** CSV export (lines 123-155) *)

(** What the handler does to the outside world. *)
Inductive effect : Type :=
| Alert (msg : string)
| Download (filename mime content : string).

Definition export_row (d : value) : completion value :=
  id <- get d "id" ;;
  cattle <- getCattleName d ;;
  disease <- getTopDisease d ;;
  conf <- get d "confidence" ;;
  let confidence :=
    if truthy conf
    then VStr (number_toString E (Math_round (num_mul E (ToNumber E conf) (Fin 100)))
               ++ "%")
    else VStr EmptyString in
  severity <- get d "severity" ;;
  submitted_by <- get d "submitted_by" ;;
  created_at <- get d "created_at" ;;
  review_status <- get d "review_status" ;;
  ml <- get d "_ml" ;;
  ml_status <- get_opt ml "review_status" ;;
  reviewed_by <- get d "reviewed_by" ;;
  username <- (if truthy reviewed_by then get reviewed_by "username"
               else Normal reviewed_by) ;;
  Normal (VObj [
    ("id", id);
    ("cattle", cattle);
    ("disease", disease);
    ("confidence", confidence);
    ("severity", severity ||| VStr EmptyString);
    ("submitted_by", submitted_by ||| VStr EmptyString);
    ("created_at", created_at ||| VStr EmptyString);
    ("review_status", review_status ||| ml_status ||| VStr EmptyString);
    ("reviewed_by", username ||| reviewed_by ||| VStr EmptyString)
  ]).

(** [Object.keys(r)] of a row built above. *)
Definition Object_keys (r : value) : list string :=
  match r with
  | VObj fs => map fst fs
  | _ => []
  end.

Definition quote_char : ascii := ascii_of_nat 34.

(** [s.replace] of every double-quote character by two of them. *)
Fixpoint double_quotes (s : string) : string :=
  match s with
  | EmptyString => EmptyString
  | String c s' =>
      if Ascii.eqb c quote_char then String c (String c (double_quotes s'))
      else String c (double_quotes s')
  end.

Definition dquote : string := String quote_char EmptyString.

(** The quoted cell of key [k] in row [r]. *)
Definition csv_cell (r : value) (k : string) : completion string :=
  v <- get r k ;;
  Normal (dquote ++ double_quotes (ToString E (v ||| VStr EmptyString)) ++ dquote).

Definition csv_line (keys : list string) (r : value) : completion string :=
  cells <- map_m (csv_cell r) keys ;; Normal (join "," cells).

Definition newline : string := String (ascii_of_nat 10) EmptyString.

(** [now_iso] is what [new Date().toISOString()] returns when the handler runs. *)
Definition exportCsv (sorted : list value) (now_iso : string) : completion effect :=
  rows <- map_m export_row sorted ;;
  match rows with
  | [] => Normal (Alert "No rows to export")
  | r0 :: _ =>
      let keys := Object_keys r0 in
      lines <- map_m (csv_line keys) rows ;;
      let csv := join newline (join "," keys :: lines) in
      Normal (Download ("diagnosis_history_" ++ str_take 10 now_iso ++ ".csv")
                       "text/csv;charset=utf-8;" csv)
  end.

End WithEngine.

(** ** Component state (lines 37-43) *)

Record state : Type := mkState {
  st_list : list value;
  st_loading : bool;
  st_search : string;
  st_severityFilter : string;
  st_sortBy : string;
  st_page : Z;
  st_itemsPerPage : Z
}.

Definition initial : state :=
  mkState [] true EmptyString "all" "newest" 0 8.

Definition set_page (st : state) (p : Z) : state :=
  mkState (st_list st) (st_loading st) (st_search st) (st_severityFilter st)
          (st_sortBy st) p (st_itemsPerPage st).

(** ** The loading effect (lines 47-64) *)

Inductive action : Type :=
| SetList (l : list value)
| SetLoading (b : bool)
| ConsoleError (msg : string).

(** Up to the [await]. *)
Definition load_begin : list action := [SetLoading true].

(** From the [await] on; [mounted] is the flag as the continuation reads it. *)
Definition load_settle (mounted : bool) (res : outcome) : list action :=
  let finally := if mounted then [SetLoading false] else [] in
  match res with
  | Resolved data =>
      if negb mounted then finally
      else SetList (if Array_isArray data then elements data else []) :: finally
  | Rejected =>
      ConsoleError "Failed to load diagnoses"
        :: (if mounted then [SetList []] else []) ++ finally
  end%list.

Definition perform (st : state) (a : action) : state :=
  match a with
  | SetList l =>
      mkState l (st_loading st) (st_search st) (st_severityFilter st)
              (st_sortBy st) (st_page st) (st_itemsPerPage st)
  | SetLoading b =>
      mkState (st_list st) b (st_search st) (st_severityFilter st)
              (st_sortBy st) (st_page st) (st_itemsPerPage st)
  | ConsoleError _ => st
  end.

Definition perform_all (st : state) (acts : list action) : state :=
  fold_left perform acts st.

(** An action that writes component state. *)
Definition mutates (a : action) : bool :=
  match a with
  | SetList _ | SetLoading _ => true
  | ConsoleError _ => false
  end.

(** ** User events and their handlers (lines 167-205 and 307-350) *)

Inductive event : Type :=
| LoadSettled (res : outcome)
| SearchInput (v : string)
| SeveritySelect (v : string)
| SortSelect (v : string)
| PageSizeSelect (v : Z)
| PrevClick
| NextClick
| PageClick (p : Z)
| ExportClick (now_iso : string).

Definition severity_options : list string := ["all"; "low"; "medium"; "high"].
Definition sort_options : list string :=
  ["newest"; "oldest"; "confidence_desc"; "confidence_asc"].
Definition page_size_options : list Z := [6; 8; 12; 24]%Z.

(** The numeric page buttons of lines 330-333. *)
Definition page_buttons (pageCount page : Z) : list Z :=
  slice (map Z.of_nat (seq 0 (Z.to_nat pageCount)))
        (Z.max 0 (page - 3)) (Z.min pageCount (page + 4)).

(** The handler of an event, in the render whose page count is [pc]. *)
Definition handler (st : state) (pc : Z) (ev : event) : state :=
  match ev with
  | LoadSettled res => perform_all st (load_settle true res)
  | SearchInput v =>
      mkState (st_list st) (st_loading st) v (st_severityFilter st)
              (st_sortBy st) 0 (st_itemsPerPage st)
  | SeveritySelect v =>
      mkState (st_list st) (st_loading st) (st_search st) v
              (st_sortBy st) 0 (st_itemsPerPage st)
  | SortSelect v =>
      mkState (st_list st) (st_loading st) (st_search st) (st_severityFilter st)
              v 0 (st_itemsPerPage st)
  | PageSizeSelect v =>
      mkState (st_list st) (st_loading st) (st_search st) (st_severityFilter st)
              (st_sortBy st) 0 v
  | PrevClick => set_page st (Z.max 0 (st_page st - 1))
  | NextClick => set_page st (Z.min (pc - 1) (st_page st + 1))
  | PageClick p => set_page st p
  | ExportClick _ => st
  end.

(** What the interface lets the user do: a select offers its options, a
    disabled button does not fire, a page button exists only when rendered. *)
Definition enabled (st : state) (pc : Z) (ev : event) : Prop :=
  match ev with
  | SeveritySelect v => In v severity_options
  | SortSelect v => In v sort_options
  | PageSizeSelect v => In v page_size_options
  | PrevClick => (0 < st_page st)%Z
  | NextClick => (st_page st < pc - 1)%Z
  | PageClick p => In p (page_buttons pc (st_page st))
  | LoadSettled _ | SearchInput _ | ExportClick _ => True
  end.

Section Rendering.
Variable E : engine.

Definition render_sorted (st : state) : completion (list value) :=
  f <- filtered E (st_list st) (st_search st) (st_severityFilter st) ;;
  sorted E f (st_sortBy st).

Definition render_pageCount (st : state) : completion Z :=
  s <- render_sorted st ;;
  Normal (pageCount (Z.of_nat (List.length s)) (st_itemsPerPage st)).

Definition render_visible (st : state) : completion (list value) :=
  s <- render_sorted st ;;
  Normal (visible s (st_page st) (st_itemsPerPage st)).

(** The render that follows a state change runs the clamp effect. *)
Definition settle (st : state) : completion state :=
  pc <- render_pageCount st ;;
  Normal (set_page st (clamp (st_page st) pc)).

(** One transition: the handler runs in the current render, then the
    component renders again and its effect settles the page. *)
Definition step (st : state) (ev : event) : completion state :=
  pc <- render_pageCount st ;;
  settle (handler st pc ev).

(** What the export button does in a state. *)
Definition export (st : state) (now_iso : string) : completion effect :=
  s <- render_sorted st ;; exportCsv E s now_iso.

Inductive run : state -> list event -> state -> Prop :=
| run_nil st : run st [] st
| run_cons st ev st' evs st'' pc :
    render_pageCount st = Normal pc ->
    enabled st pc ev ->
    step st ev = Normal st' ->
    run st' evs st'' ->
    run st (ev :: evs) st''.

End Rendering.
End History.

(* ================================================================== *)
(** * [Dashboard.jsx]: the loading effect (lines 59-78)                 *)
(* ================================================================== *)

Module Dashboard.
Import JS.

Inductive action : Type :=
| SetCattle (l : list value)
| SetDiagnoses (l : list value)
| SetLoading (b : bool)
| ConsoleError (msg : string).

Definition mutates (a : action) : bool :=
  match a with
  | ConsoleError _ => false
  | _ => true
  end.

Section WithEngine.
Variable E : engine.

(** The comparator of line 67: [new Date(b.created_at) - new Date(a.created_at)]. *)
Definition by_created_desc (a b : value) : completion number :=
  cb <- get b "created_at" ;;
  ca <- get a "created_at" ;;
  Normal (num_sub (Date_value E cb) (Date_value E ca)).

Definition failure : list action :=
  [ConsoleError "Failed to load dashboard data"; SetCattle []; SetDiagnoses []].

(** From the [await Promise.all(...)] on: [c] and [d] are the settlements of
    the cattle and of the diagnosis request, [cancelled] the flag as the
    continuation reads it. [Promise.all] rejects as soon as one request does. *)
Definition load_settle (cancelled : bool) (c d : outcome) : list action :=
  let finally := if negb cancelled then [SetLoading false] else [] in
  match c, d with
  | Resolved cdata, Resolved ddata =>
      if cancelled then finally
      else
        SetCattle (if Array_isArray cdata then elements cdata else [])
          :: match (if Array_isArray ddata
                    then sort by_created_desc (elements ddata)
                    else Normal []) with
             | Normal l => [SetDiagnoses l]
             | Throw _ => failure
             end ++ finally
  | _, _ => failure ++ finally
  end%list.

Record state : Type := mkState {
  st_cattle : list value;
  st_diagnoses : list value;
  st_loading : bool
}.

Definition initial : state := mkState [] [] true.

Definition perform (st : state) (a : action) : state :=
  match a with
  | SetCattle l => mkState l (st_diagnoses st) (st_loading st)
  | SetDiagnoses l => mkState (st_cattle st) l (st_loading st)
  | SetLoading b => mkState (st_cattle st) (st_diagnoses st) b
  | ConsoleError _ => st
  end.

Definition perform_all (st : state) (acts : list action) : state :=
  fold_left perform acts st.

End WithEngine.
End Dashboard.

(* ================================================================== *)
(** * A reference engine                                                *)
(* ================================================================== *)

(** A concrete instance of the engine built-ins, used to run the components on
    sample data: dates in the ECMAScript date-time string format with the UTC
    designator, decimal numeric literals, decimal spelling of numbers, the
    case mapping and the white space of the ASCII range, and rounding to the
    nearest double. *)

Module Reference.
Import JS.

(** The case mapping and the white space of the ASCII range. *)

Definition is_upper (c : ascii) : bool :=
  let n := nat_of_ascii c in ((65 <=? n) && (n <=? 90))%nat.

Definition lower_ascii (c : ascii) : ascii :=
  if is_upper c then ascii_of_nat (nat_of_ascii c + 32) else c.

Fixpoint lower (s : string) : string :=
  match s with
  | EmptyString => EmptyString
  | String c s' => String (lower_ascii c) (lower s')
  end.

Definition is_space (c : ascii) : bool :=
  let n := nat_of_ascii c in (((9 <=? n) && (n <=? 13)) || (n =? 32))%nat.

Fixpoint trim_start (s : string) : string :=
  match s with
  | EmptyString => EmptyString
  | String c s' => if is_space c then trim_start s' else s
  end.

(** Drops the trailing white space: a character is kept when it is not a space
    or when something non-blank follows it. *)
Fixpoint trim_end (s : string) : string :=
  match s with
  | EmptyString => EmptyString
  | String c s' =>
      match trim_end s' with
      | EmptyString => if is_space c then EmptyString else String c EmptyString
      | t => String c t
      end
  end.

Definition trim (s : string) : string := trim_end (trim_start s).

(** The double nearest to a real number, ties to the even one. The doubles
    around [x] are the multiples of [2 ^ e], where [e] is 52 below the binary
    exponent of [x] and at least -1074; a result of magnitude [2 ^ 1024] or
    more is an infinity. *)

Definition pow2 (e : Z) : Q := (2 ^ e)%Q.

(** The binary exponent of a positive rational: the [k] with
    [2 ^ k <= x < 2 ^ (k + 1)]. *)
Definition log2_floor (x : Q) : Z :=
  let k := (Z.log2 (Qnum x) - Z.log2 (Zpos (Qden x)))%Z in
  if Qle_bool (pow2 k) x then k else (k - 1)%Z.

Definition round_half_even (y : Q) : Z :=
  let f := Qfloor y in
  match (y - inject_Z f ?= 1 # 2)%Q with
  | Lt => f
  | Gt => (f + 1)%Z
  | Eq => if Z.even f then f else (f + 1)%Z
  end.

Definition spacing (x : Q) : Z := Z.max (-1074) (log2_floor (Qabs x) - 52).

(** The multiple of [2 ^ e] nearest to [x]. *)
Definition on_grid (e : Z) (x : Q) : Q :=
  (inject_Z (round_half_even (x / pow2 e)) * pow2 e)%Q.

Definition clip (r : Q) : number :=
  if Qle_bool (pow2 1024) (Qabs r) then Inf (negative r) else Fin r.

Definition Number_value (x : Q) : number :=
  if Qis_zero x then Fin 0 else clip (on_grid (spacing x) x).

(** The double a decimal numeral of the data denotes, as a real. *)
Definition double (q : Q) : Q :=
  match Number_value q with
  | Fin r => r
  | _ => 0
  end.

Definition digit_value (c : ascii) : option Z :=
  let n := nat_of_ascii c in
  if ((48 <=? n) && (n <=? 57))%nat then Some (Z.of_nat (n - 48)) else None.

Fixpoint digits_acc (s : string) (acc : Z) : option Z :=
  match s with
  | EmptyString => Some acc
  | String c s' =>
      match digit_value c with
      | Some d => digits_acc s' (10 * acc + d)
      | None => None
      end
  end.

(** The value of a non-empty string of decimal digits. *)
Definition digits (s : string) : option Z :=
  match s with
  | EmptyString => None
  | _ => digits_acc s 0
  end.

(** Days from 1970-01-01 to the given day of the proleptic Gregorian calendar. *)
Definition days_from_civil (y m d : Z) : Z :=
  let y' := if (m <=? 2)%Z then (y - 1)%Z else y in
  let era := (y' / 400)%Z in
  let yoe := (y' - era * 400)%Z in
  let mp := if (m >? 2)%Z then (m - 3)%Z else (m + 9)%Z in
  let doy := ((153 * mp + 2) / 5 + d - 1)%Z in
  let doe := (yoe * 365 + yoe / 4 - yoe / 100 + doy)%Z in
  (era * 146097 + doe - 719468)%Z.

Definition is_leap (y : Z) : bool :=
  ((y mod 4 =? 0) && (negb (y mod 100 =? 0) || (y mod 400 =? 0)))%Z.

Definition days_in_month (y m : Z) : Z :=
  if (m =? 2)%Z then (if is_leap y then 29 else 28)%Z
  else if ((m =? 4) || (m =? 6) || (m =? 9) || (m =? 11))%Z then 30%Z
  else 31%Z.

Definition parse_date (s : string) : option Z :=
  match digits (substring 0 4 s), digits (substring 5 2 s), digits (substring 8 2 s) with
  | Some y, Some m, Some d =>
      if ((substring 4 1 s =? "-") && (substring 7 1 s =? "-")
          && (1 <=? m)%Z && (m <=? 12)%Z && (1 <=? d)%Z && (d <=? days_in_month y m)%Z)%bool
      then Some (days_from_civil y m d * 86400000)%Z
      else None
  | _, _, _ => None
  end.

(** [HH:mm:ss] followed by [Z] or by [.sss] and [Z]. *)
Definition parse_time (s : string) : option Z :=
  match digits (substring 0 2 s), digits (substring 3 2 s), digits (substring 6 2 s) with
  | Some h, Some mi, Some sec =>
      if ((substring 2 1 s =? ":") && (substring 5 1 s =? ":")
          && (h <=? 23)%Z && (mi <=? 59)%Z && (sec <=? 59)%Z)%bool
      then
        let base := (h * 3600000 + mi * 60000 + sec * 1000)%Z in
        if (String.length s =? 9)%nat && (substring 8 1 s =? "Z") then Some base
        else if (String.length s =? 13)%nat && (substring 8 1 s =? ".")
                && (substring 12 1 s =? "Z")
        then match digits (substring 9 3 s) with
             | Some ms => Some (base + ms)%Z
             | None => None
             end
        else None
      else None
  | _, _, _ => None
  end.

Definition Date_parse (s : string) : number :=
  let n := String.length s in
  if (n =? 10)%nat then
    match parse_date s with
    | Some t => Fin (inject_Z t)
    | None => NaN
    end
  else if (substring 10 1 s =? "T") then
    match parse_date (substring 0 10 s), parse_time (substring 11 (n - 11) s) with
    | Some t, Some u => Fin (inject_Z (t + u))
    | _, _ => NaN
    end
  else NaN.

(** Decimal literals: optional sign, digits, optional fraction; the empty
    string is zero. *)
Fixpoint split_at_dot (s : string) : string * option string :=
  match s with
  | EmptyString => (EmptyString, None)
  | String c s' =>
      if Ascii.eqb c "."%char then (EmptyString, Some s')
      else let (a, b) := split_at_dot s' in (String c a, b)
  end.

Definition unsigned_literal (s : string) : option Q :=
  match split_at_dot s with
  | (i, None) => option_map inject_Z (digits i)
  | (i, Some f) =>
      match digits i, digits f with
      | Some a, Some b =>
          Some (inject_Z a + inject_Z b / inject_Z (10 ^ Z.of_nat (String.length f)))%Q
      | _, _ => None
      end
  end.

Definition StringToNumber (s : string) : number :=
  match trim s with
  | EmptyString => Fin 0
  | String c r =>
      if Ascii.eqb c "-"%char then
        match unsigned_literal r with
        | Some q => Number_value (- q)
        | None => NaN
        end
      else
        match unsigned_literal (if Ascii.eqb c "+"%char then r else String c r) with
        | Some q => Number_value q
        | None => NaN
        end
  end.

(** Decimal spelling: the integer part, then the digits of the fraction (at
    most twenty, by long division). *)
Fixpoint fraction_digits (fuel : nat) (r d : Z) : string :=
  match fuel with
  | O => EmptyString
  | S fuel' =>
      if (r =? 0)%Z then EmptyString
      else String (digit_of_nat (Z.to_nat (10 * r / d)))
                  (fraction_digits fuel' ((10 * r) mod d) d)
  end.

Definition Number_toString (q : Q) : string :=
  let n := Qnum q in
  let d := Zpos (Qden q) in
  let a := Z.abs n in
  let int := decimal_of_nat (Z.to_nat (a / d)) in
  let frac := fraction_digits 20 (a mod d) d in
  let body := match frac with
              | EmptyString => int
              | _ => int ++ "." ++ frac
              end in
  if (n <? 0)%Z then "-" ++ body else body.

Definition engine : JS.engine :=
  {| JS.Date_parse := Date_parse;
     JS.StringToNumber := StringToNumber;
     JS.Number_toString := Number_toString;
     JS.String_toLowerCase := lower;
     JS.String_trim := trim;
     JS.Number_value := Number_value |}.

End Reference.

Import JS.

(* ================================================================== *)
(** * Sample data                                                       *)
(* ================================================================== *)

Module Sample.

(** A diagnosis that carries nothing but its identifier. *)
Definition bare (i : Z) : value := VObj [("id", VNum (inject_Z i))].

Definition thirteen : list value :=
  map bare [1; 2; 3; 4; 5; 6; 7; 8; 9; 10; 11; 12; 13]%Z.

(** Thirteen diagnoses, six per page, the user on the third and last page. *)
Definition crowded : History.state :=
  History.mkState thirteen false EmptyString "all" "newest" 2 6.

(** How the user gets there. *)
Definition to_crowded : list History.event :=
  [History.LoadSettled (Resolved (VArr thirteen));
   History.PageSizeSelect 6;
   History.NextClick;
   History.NextClick].

(** The state after the user then chooses twelve per page. *)
Definition regrouped : History.state :=
  History.mkState thirteen false EmptyString "all" "newest" 0 12.

(** The two diagnoses of the scenario of the specification. *)
Definition high_record : value :=
  VObj [("id", VNum 1);
        ("cattle", VObj [("id", VNum 4); ("name", VStr "Bossy");
                         ("tag_number", VStr "TG-0042")]);
        ("top_prediction",
         VObj [("disease", VStr "Foot and mouth disease"); ("confidence", VNum (Reference.double (9 # 10)))]);
        ("confidence", VNum (Reference.double (9 # 10)));
        ("severity", VStr "High");
        ("created_at", VStr "2024-03-02T09:30:00Z")].

Definition low_record : value :=
  VObj [("id", VNum 2);
        ("cattle", VNum 7);
        ("predictions", VArr [VObj [("disease", VStr "Mastitis");
                                    ("confidence", VNum (Reference.double (4 # 10)))]]);
        ("confidence", VNum (Reference.double (4 # 10)));
        ("severity", VStr "low");
        ("created_at", VStr "2024-03-01T09:30:00Z")].

Definition scenario : list value := [high_record; low_record].

(** The view once the scenario is loaded, sorted by decreasing confidence. *)
Definition loaded : History.state :=
  History.mkState scenario false EmptyString "all" "confidence_desc" 0 8.

(** A diagnosis that refers to its animal by number and also carries the
    animal's name as a flat field. *)
Definition renamed : value :=
  VObj [("id", VNum 3); ("cattle", VNum 7); ("cattle_name", VStr "Daisy")].

(** A diagnosis dated one second before the epoch, and one with no date. *)
Definition before_epoch : value :=
  VObj [("id", VNum 1); ("created_at", VStr "1969-12-31T23:59:59Z")].

Definition undated : value := VObj [("id", VNum 2)].

(** A body that is not a collection: the error document of a gateway. *)
Definition error_document : value :=
  VObj [("detail", VStr "Service temporarily unavailable")].

End Sample.

(* ================================================================== *)
(** * Vocabulary of the properties                                      *)
(* ================================================================== *)

(** ** Sorting *)

(** The comparator [sorted] passes to [sort] for a sort key. *)
Definition comparator (E : engine) (sortBy : string)
  : value -> value -> completion number :=
  if sortBy =? "newest" then History.by_newest E
  else if sortBy =? "oldest" then History.by_oldest E
  else if sortBy =? "confidence_desc" then History.by_confidence_desc E
  else History.by_confidence_asc E.

(** The number the comparator of a sort key reads off a record: the time
    value of its timestamp, or its confidence. *)
Definition sort_key (E : engine) (sortBy : string) (item : value)
  : completion number :=
  if (sortBy =? "newest") || (sortBy =? "oldest") then History.created_time E item
  else History.confidence_num E item.

Definition descending (sortBy : string) : bool :=
  (sortBy =? "newest") || (sortBy =? "confidence_desc").

(** Two keys in the order of a sort key. *)
Definition in_order (sortBy : string) (kx ky : Q) : Prop :=
  if descending sortBy then (ky <= kx)%Q else (kx <= ky)%Q.

(** A record the sort key can order: reading its key neither throws nor
    yields [NaN]. *)
Definition sortable (E : engine) (sortBy : string) (item : value) : Prop :=
  exists k, sort_key E sortBy item = Normal (Fin k).

(** The key as a rational, signed so that the order of the sort key is the
    ascending order of ranks. *)
Definition rank (E : engine) (sortBy : string) (item : value) : Q :=
  match sort_key E sortBy item with
  | Normal (Fin k) => if descending sortBy then (- k)%Q else k
  | _ => 0%Q
  end.

(** The stable arrangement of a list by ascending rank. *)
Section Arrange.
Variable rk : value -> Q.

Definition after (x y : value) : bool := negb (Qle_bool (rk x) (rk y)).

Fixpoint place (x : value) (l : list value) : list value :=
  match l with
  | [] => [x]
  | y :: l' => if after x y then y :: place x l' else x :: l
  end.

Fixpoint arrange (l : list value) : list value :=
  match l with
  | [] => []
  | x :: l' => place x (arrange l')
  end.

(** Ranks in ascending order. *)
Definition rank_le (x y : value) : Prop := (rk x <= rk y)%Q.

(** A comparator that never throws on a pair and whose sign is that of the
    rank difference. *)
Definition agrees (comparefn : value -> value -> completion number)
           (x y : value) : Prop :=
  exists v, comparefn x y = Normal v /\ positive v = after x y.

End Arrange.

(** ** Searching and filtering *)

(** [v.k] where the access cannot throw; [undefined] otherwise. *)
Definition field (v : value) (k : string) : value :=
  match get v k with
  | Normal x => x
  | Throw _ => VUndefined
  end.

(** ** The keys of the sort, read off the record *)

(** The timestamp of a record, when it carries one. *)
Definition timestamp (E : engine) (item : value) : option number :=
  match get item "created_at" with
  | Normal c => if truthy c then Some (Date_value E c) else None
  | Throw _ => None
  end.

(** The time the order goes by: that of the timestamp, the epoch (time value
    0) for a record without one. *)
Definition time_key (E : engine) (item : value) : number :=
  match timestamp E item with
  | Some t => t
  | None => Fin 0
  end.

(** The confidence the order goes by: that of the record, as a number, and 0
    for a record without one. *)
Definition confidence_key (E : engine) (item : value) : number :=
  let c := field item "confidence" in
  if truthy c then ToNumber E c else Fin 0.

Definition by_time (sortBy : string) : bool :=
  (sortBy =? "newest") || (sortBy =? "oldest").

Definition key_of (E : engine) (sortBy : string) (item : value) : number :=
  if by_time sortBy then time_key E item else confidence_key E item.

(** A record the key can order: an entry that is not null and whose key is a
    finite number (its timestamp, when it has one, is a valid date, resp. its
    confidence, when it has one, is numeric). *)
Definition orderable (E : engine) (sortBy : string) (item : value) : Prop :=
  nullish item = false /\ exists k, key_of E sortBy item = Fin k.

(** The records of a list whose key is [k]. *)
Definition of_key (E : engine) (sortBy : string) (k : Q) (l : list value)
  : list value :=
  filter (fun item => match key_of E sortBy item with
                      | Fin k' => Qeq_bool k' k
                      | _ => false
                      end) l.

(** ** Searching and filtering, continued *)

(** The first element of a prediction list. *)
Definition first_of (v : value) : value :=
  match get_index v 0 with
  | Normal x => x
  | Throw _ => VUndefined
  end.

(** The first candidate that is present (truthy), with a default. *)
Definition first_truthy (candidates : list value) (default : value) : value :=
  match filter truthy candidates with
  | c :: _ => c
  | [] => default
  end.

Definition is_object (v : value) : bool := truthy v && (typeof v =? "object").
Definition is_number (v : value) : bool := truthy v && (typeof v =? "number").

Definition synthesized (E : engine) (cattle : value) : value :=
  if is_number cattle then VStr ("Cattle #" ++ ToString E cattle) else VUndefined.

(** The display name the code derives: with a nested cattle object, its name,
    then its tag number, else "Unknown"; without one, the flat [cattle_name]
    of the record, then "Cattle #id" for a numeric reference, else
    "Unknown". *)
Definition display_name (E : engine) (item : value) : value :=
  let cattle := field item "cattle" in
  if is_object cattle
  then first_truthy [field cattle "name"; field cattle "tag_number"] (VStr "Unknown")
  else first_truthy [field item "cattle_name"; synthesized E cattle] (VStr "Unknown").

(** The disease a prediction names: its [disease], or itself when it is a
    bare name. *)
Definition disease_of (x : value) : value := field x "disease" ||| x.

(** The processed override: the one attached under [_ml], else the flat one. *)
Definition processed_override (item : value) : value :=
  field (field item "_ml") "top_processed" ||| field item "top_processed".

(** The display disease: of the processed override, else of the top
    prediction, else of the first element of the prediction list, else
    "No prediction". *)
Definition display_disease (item : value) : value :=
  match filter truthy [processed_override item;
                       field item "top_prediction";
                       first_of (field item "predictions")] with
  | x :: _ => disease_of x
  | [] => VStr "No prediction"
  end.

(** The characters of a string value. *)
Definition text (v : value) : string :=
  match v with
  | VStr s => s
  | _ => EmptyString
  end.

Definition is_text (v : value) : Prop := exists s, v = VStr s.

(** A text of the ASCII range. *)
Fixpoint plain (s : string) : bool :=
  match s with
  | EmptyString => true
  | String c s' => (nat_of_ascii c <? 128)%nat && plain s'
  end.

(** What every engine does on a text of the ASCII range: the capital letters
    A to Z become small letters and nothing else changes, and the white space
    trimmed is the space and the characters of codes 9 to 13. *)
Definition conforming (E : engine) : Prop :=
  forall s, plain s = true ->
            String_toLowerCase E s = Reference.lower s /\
            String_trim E s = Reference.trim s.

(** The order of numbers; [NaN] is not comparable. *)
Definition number_le (a b : number) : Prop :=
  match a, b with
  | Fin x, Fin y => (x <= y)%Q
  | Inf true, Inf _ | Inf true, Fin _ => True
  | Inf false, Inf false | Fin _, Inf false => True
  | _, _ => False
  end.

(** What rounding to the nearest double does: it keeps the order of the reals
    that are not negative, and it is exact on the whole numbers from 0 to
    [2 ^ 53 - 1]. *)
Definition rounds (E : engine) : Prop :=
  (forall x y, (0 <= x)%Q -> (x <= y)%Q ->
               number_le (Number_value E x) (Number_value E y)) /\
  (forall n, (0 <= n < 2 ^ 53)%Z ->
             exists r, Number_value E (inject_Z n) = Fin r /\ (r == inject_Z n)%Q).

(** [s] contains [q] up to letter case: put in lower case, [q] is a piece of
    [s] put in lower case. *)
Definition contains_ci (E : engine) (s q : string) : Prop :=
  exists pre post,
    String_toLowerCase E s = pre ++ String_toLowerCase E q ++ post.

(** Two texts equal up to letter case. *)
Definition equal_ci (E : engine) (s t : string) : Prop :=
  String_toLowerCase E s = String_toLowerCase E t.

(** The search and the severity filter, as conditions on a record. *)
Definition query_matches (E : engine) (name disease : value) (search : string)
  : Prop :=
  String_trim E search = EmptyString \/
  contains_ci E (text name) (String_trim E search) \/
  contains_ci E (text disease) (String_trim E search).

Definition severity_matches (E : engine) (severityFilter : string) (item : value)
  : Prop :=
  severityFilter = "all" \/
  equal_ci E (text (field item "severity" ||| VStr EmptyString)) severityFilter.

Definition matches (E : engine) (search severityFilter : string) (item : value)
  : Prop :=
  query_matches E (display_name E item) (display_disease item ||| VStr EmptyString)
                search
  /\ severity_matches E severityFilter item.

(** [keep], made total: what the callback of the filter answers when it does
    not throw. *)
Definition keeps (E : engine) (search sev : string) (item : value) : bool :=
  match History.keep E search sev item with
  | Normal b => b
  | Throw _ => false
  end.

(** A record the view can present: an entry that is not null, whose display
    name, display disease and severity are strings. *)
Definition presentable (E : engine) (item : value) : Prop :=
  nullish item = false /\
  is_text (display_name E item) /\
  is_text (display_disease item ||| VStr EmptyString) /\
  is_text (field item "severity" ||| VStr EmptyString).

(** ** Export *)

(** A number as a percentage string: the whole number nearest to a hundred
    times it (the product being a double, halves rounded up), followed by the
    percent sign. *)
Definition percent_text (E : engine) (n : number) : string :=
  match n with
  | Fin q =>
      match Number_value E (q * 100) with
      | Fin p => Number_toString E (inject_Z (Qfloor (p + (1 # 2)))) ++ "%"
      | Inf false => "Infinity%"
      | Inf true => "-Infinity%"
      | NaN => "NaN%"
      end
  | Inf false => "Infinity%"
  | Inf true => "-Infinity%"
  | NaN => "NaN%"
  end.

(** The confidence as a percentage string; empty when there is none. *)
Definition percentage (E : engine) (c : value) : value :=
  if truthy c then VStr (percent_text E (ToNumber E c)) else VStr EmptyString.

(** The names of the columns, in their order. *)
Definition csv_header : list string :=
  ["id"; "cattle"; "disease"; "confidence"; "severity"; "submitted_by";
   "created_at"; "review_status"; "reviewed_by"].

(** The fields of the row of a record, in the order of the columns:
    identifier, cattle name, disease, confidence as a percentage, severity,
    submitter, timestamp, review status, reviewer. *)
Definition row_fields (E : engine) (d : value) : list value :=
  [ field d "id";
    display_name E d;
    display_disease d;
    percentage E (field d "confidence");
    field d "severity" ||| VStr EmptyString;
    field d "submitted_by" ||| VStr EmptyString;
    field d "created_at" ||| VStr EmptyString;
    field d "review_status" ||| field (field d "_ml") "review_status"
      ||| VStr EmptyString;
    field (field d "reviewed_by") "username" ||| field d "reviewed_by"
      ||| VStr EmptyString ].








(** ** Well-formed collections *)

(** A collection the view can present and order under every sort key. *)
Definition well_formed (E : engine) (items : list value) : Prop :=
  Forall (fun item => presentable E item /\
                      forall k, In k History.sort_options -> sortable E k item)
         items.

(* ================================================================== *)
(** * Statements of the specification that the code does not satisfy    *)
(* ================================================================== *)

(** Ascending order of timestamps in which a missing timestamp is the
    earliest time. *)
Definition not_later (a b : option number) : Prop :=
  match a, b with
  | None, _ => True
  | Some _, None => False
  | Some (Fin x), Some (Fin y) => (x <= y)%Q
  | Some _, Some _ => True
  end.

(** The specification of the sort key "oldest" on a filtered collection [l]:
    a permutation of equal length in which no adjacent pair is out of order,
    a missing timestamp standing for the earliest time. *)
Definition spec_oldest_first (E : engine) (l : list value) : Prop :=
  forall out,
    History.sorted E l "oldest" = Normal out ->
    Permutation l out /\
    List.length out = List.length l /\
    forall i x y,
      nth_error out i = Some x -> nth_error out (S i) = Some y ->
      not_later (timestamp E x) (timestamp E y).

(** The display name as the specification words it: the nested cattle
    object's name, then its tag number, then a synthesized "Cattle #id", else
    "Unknown". *)
Definition spec_display_name (E : engine) (item : value) : value :=
  let cattle := field item "cattle" in
  first_truthy
    [ (if is_object cattle then field cattle "name" else VUndefined);
      (if is_object cattle then field cattle "tag_number" else VUndefined);
      synthesized E cattle ]
    (VStr "Unknown").

(** The display disease as the specification words it: the processed
    override, then [top_prediction.disease], then the first element of the
    prediction list, else "No prediction". *)
Definition spec_display_disease (item : value) : value :=
  first_truthy
    [ (if truthy (processed_override item) then disease_of (processed_override item)
       else VUndefined);
      field (field item "top_prediction") "disease";
      (if truthy (first_of (field item "predictions"))
       then disease_of (first_of (field item "predictions")) else VUndefined) ]
    (VStr "No prediction").

(** The specification of the filtered set of [items]. *)
Definition spec_filtered (E : engine) (items : list value)
           (search severityFilter : string) : Prop :=
  forall out,
    History.filtered E items search severityFilter = Normal out ->
    forall r,
      In r out <->
      In r items /\
      query_matches E (spec_display_name E r) (spec_display_disease r) search /\
      severity_matches E severityFilter r.

(** The specification on a change of page size, at state [st] and new size
    [v]: when the page index is at or beyond the new page count, the page index
    becomes the last valid page. *)
Definition spec_page_size_clamp (E : engine) (st : History.state) (v : Z) : Prop :=
  forall st' pc',
    History.step E st (History.PageSizeSelect v) = Normal st' ->
    History.render_pageCount E st' = Normal pc' ->
    (pc' <= History.st_page st)%Z ->
    History.st_page st' = (pc' - 1)%Z /\ (0 <= History.st_page st')%Z.

(* ================================================================== *)
(** * [DiagnosisHistory.jsx]: what the page displays                    *)
(* ================================================================== *)

Module HistoryView.

(** The counter "Showing a-b of n" of lines 299-304: [n] is the length of
    the sorted set, [start] the offset of the page, [shown] the length of the
    visible slice. *)
Definition showing (n start shown : Z) : Z * Z * Z :=
  (Z.min n (start + 1), Z.min n (start + shown), n).

Section WithEngine.
Variable E : engine.

Definition render_showing (st : History.state) : completion (Z * Z * Z) :=
  s <- History.render_sorted E st ;;
  let start := (History.st_page st * History.st_itemsPerPage st)%Z in
  let v := History.visible s (History.st_page st) (History.st_itemsPerPage st) in
  Normal (showing (Z.of_nat (List.length s)) start (Z.of_nat (List.length v))).

End WithEngine.
End HistoryView.

(* ================================================================== *)
(** * More sample data                                                  *)
(* ================================================================== *)

Module Fixture.

(** A diagnosis whose confidence is only the processed one, reviewed. *)
Definition processed_only : value :=
  VObj [("id", VNum 5);
        ("cattle", VObj [("name", VStr "Rosie"); ("tag_number", VStr "TG-0007")]);
        ("_ml", VObj [("confidence_processed", VNum (Reference.double (87 # 100)));
                      ("review_status", VStr "approved")]);
        ("reviewed_by", VObj [("username", VStr "dr.moyo")]);
        ("severity", VStr "High");
        ("created_at", VStr "2024-03-05T07:00:00Z")].

(** Eight dated diagnoses, as the server returns them. *)
Definition dated_on (id : Z) (day : string) (cattle : Z) (severity : string) : value :=
  VObj [("id", VNum (inject_Z id));
        ("cattle", VNum (inject_Z cattle));
        ("severity", VStr severity);
        ("confidence", VNum (3 # 4));
        ("created_at", VStr ("2024-03-" ++ day ++ "T08:00:00Z"))].

Definition eight : list value :=
  [dated_on 1 "03" 7 "low"; dated_on 2 "09" 8 "high"; dated_on 3 "01" 7 "high";
   dated_on 4 "07" 9 "medium"; dated_on 5 "05" 8 "low"; dated_on 6 "02" 9 "high";
   dated_on 7 "08" 7 "medium"; dated_on 8 "04" 8 "medium"].

Definition herd : list value :=
  [VObj [("id", VNum 7); ("name", VStr "Bossy")];
   VObj [("id", VNum 8); ("name", VStr "Daisy")];
   VObj [("id", VNum 9); ("name", VStr "Rosie")];
   VObj [("id", VNum 10); ("name", VStr "Molly")]].

End Fixture.

(* ================================================================== *)
(** * Objects used as tables                                            *)
(* ================================================================== *)

(** An object literal inherits the members of [Object.prototype]: reading a
    key it does not own finds them. [member_text k] is the text the member
    named [k] converts to in a template literal, [None] when there is no such
    member. Which members exist is up to the engine. *)

Module Proto.

Record object_prototype : Type := {
  member_text : string -> option string
}.


(** The members every browser engine has. *)
Definition native (name : string) : string :=
  "function " ++ name ++ "() { [native code] }".

Definition reference_members : list (string * string) :=
  [("constructor", native "Object");
   ("toString", native "toString");
   ("toLocaleString", native "toLocaleString");
   ("valueOf", native "valueOf");
   ("hasOwnProperty", native "hasOwnProperty");
   ("isPrototypeOf", native "isPrototypeOf");
   ("propertyIsEnumerable", native "propertyIsEnumerable");
   ("__defineGetter__", native "__defineGetter__");
   ("__defineSetter__", native "__defineSetter__");
   ("__lookupGetter__", native "__lookupGetter__");
   ("__lookupSetter__", native "__lookupSetter__");
   ("__proto__", "[object Object]")].

Fixpoint own {A} (k : string) (table : list (string * A)) : option A :=
  match table with
  | [] => None
  | (k', v) :: table' => if k =? k' then Some v else own k table'
  end.

Definition reference : object_prototype :=
  {| member_text := fun k => own k reference_members |}.

End Proto.

(* ================================================================== *)
(** * [DiagnosisHistory.jsx]: badges, confidence bar and cards          *)
(* ================================================================== *)

Module Card.

(** [a ?? b] *)
Definition coalesce (a b : value) : value := if nullish a then b else a.

(** [v === s] for a string literal [s]. *)
Definition strict_eq (v : value) (s : string) : bool :=
  match v with
  | VStr t => t =? s
  | _ => false
  end.

(** The dash shown for a value that is absent. *)
Definition dash : string := "—".

Definition base : string := "px-3 py-1 rounded-full text-xs font-medium".

Definition variants : list (string * string) :=
  [("high", "bg-red-100 text-red-700");
   ("medium", "bg-yellow-100 text-yellow-700");
   ("low", "bg-green-100 text-green-700");
   ("unknown", "bg-gray-100 text-gray-700");
   ("approved", "bg-blue-100 text-blue-700");
   ("edited", "bg-indigo-100 text-indigo-700");
   ("rejected", "bg-gray-100 text-gray-700")].

Section WithEngine.
Variable E : engine.
Variable P : Proto.object_prototype.

(** [variants[key]], as a text; [None] for [undefined]. *)
Definition variant_class (key : string) : option string :=
  match Proto.own key variants with
  | Some c => Some c
  | None => Proto.member_text P key
  end.

(** The class name of [Badge] (lines 13-25); the variant defaults to "gray"
    when it is [undefined]. *)
Definition Badge (variant : value) : string :=
  let variant := if is_undefined variant then VStr "gray" else variant in
  let chosen :=
    match variant_class (ToString E variant) with
    | Some c => c
    | None =>
        match variant_class "unknown" with
        | Some c => c
        | None => "undefined"
        end
    end in
  base ++ " " ++ chosen.

(** The percentage of [ConfidenceBar] (lines 27-34); the value defaults to 0
    when it is [undefined]. *)
Definition ConfidenceBar (value : value) : number :=
  let value := if is_undefined value then VNum 0 else value in
  Math_round (num_mul E (ToNumber E (value ||| VNum 0)) (Fin 100)).

(** The constants of a card (lines 219-223). *)
Definition card_conf (item : value) : completion value :=
  c <- get item "confidence" ;;
  ml <- get item "_ml" ;;
  cp <- get_opt ml "confidence_processed" ;;
  Normal (c ||| coalesce cp VNull).

Definition card_reviewStatus (item : value) : completion value :=
  rs <- get item "review_status" ;;
  ml <- get item "_ml" ;;
  mrs <- get_opt ml "review_status" ;;
  Normal (rs ||| mrs ||| VNull).

Definition card_reviewedBy (item : value) : completion value :=
  rb <- get item "reviewed_by" ;;
  u <- get_opt rb "username" ;;
  Normal (u ||| rb ||| VNull).

(** What a card shows (lines 216-292). [date] is the time value handed to
    [toLocaleString], [None] for the dash; [review_badge] and
    [severity_badge] are a class name and a label. *)
Record card : Type := mkCard {
  key : value;
  cattleName : value;
  tag : string;
  date : option number;
  review_badge : option (string * value);
  top : value;
  percent : string;
  severity_badge : string * string;
  bar : number;
  recommendation : option value;
  footer : string
}.

Definition render_card (item : value) : completion card :=
  top <- History.getTopDisease item ;;
  cattleName <- History.getCattleName E item ;;
  created_at <- get item "created_at" ;;
  let date := if truthy created_at then Some (Date_value E created_at) else None in
  conf <- card_conf item ;;
  reviewStatus <- card_reviewStatus item ;;
  reviewedBy <- card_reviewedBy item ;;
  let reviewerText :=
    if truthy reviewedBy then "by " ++ ToString E reviewedBy else EmptyString in
  id <- get item "id" ;;
  cattle <- get item "cattle" ;;
  tag_number <- get_opt cattle "tag_number" ;;
  let tag := if truthy tag_number then "Tag: " ++ ToString E tag_number
             else EmptyString in
  let review_badge :=
    if truthy reviewStatus
    then Some (Badge (VStr (if strict_eq reviewStatus "approved" then "approved"
                            else if strict_eq reviewStatus "edited" then "edited"
                            else "rejected")),
               reviewStatus)
    else None in
  let percent :=
    if truthy conf
    then number_toString E (Math_round (num_mul E (ToNumber E conf) (Fin 100))) ++ "%"
    else dash in
  severity <- get item "severity" ;;
  label <- toLowerCase E (severity ||| VStr "unknown") ;;
  let severity_badge := (Badge (severity ||| VStr "unknown"), label) in
  let bar := ConfidenceBar (conf ||| VNum 0) in
  rec <- get item "recommendation" ;;
  let recommendation := if truthy rec then Some rec else None in
  let footer :=
    if truthy reviewStatus
    then ToString E reviewStatus
         ++ (if negb (reviewerText =? EmptyString) then " " ++ reviewerText
             else EmptyString)
    else "AI-generated" in
  Normal (mkCard id cattleName tag date review_badge top percent severity_badge
                 bar recommendation footer).

End WithEngine.
End Card.

(* ================================================================== *)
(** * [DiagnosisHistory.jsx]: the body of the page, cards included       *)
(* ================================================================== *)

Module Page.

(** What the body of the page shows (lines 210-295): the loading notice, the
    notice that nothing was found, or the cards of the visible records. The
    filter, the sort and the slice run first; a record whose card cannot be
    built makes the render throw. *)
Inductive body : Type :=
| ShowLoading
| ShowEmpty
| ShowCards (cards : list Card.card).

Section WithEngine.
Variable E : engine.
Variable P : Proto.object_prototype.

Definition render_body (st : History.state) : completion body :=
  v <- History.render_visible E st ;;
  if History.st_loading st then Normal ShowLoading
  else match v with
       | [] => Normal ShowEmpty
       | _ => cards <- map_m (Card.render_card E P) v ;; Normal (ShowCards cards)
       end.

End WithEngine.
End Page.

(** A record whose card can be built: an entry that is not null and whose
    severity, when it has one, is a string. *)
Definition drawable (item : value) : Prop :=
  nullish item = false /\
  is_text (field item "severity" ||| VStr "unknown").

(* ================================================================== *)
(** * [Dashboard.jsx]: the figures of the dashboard (lines 80-114)      *)
(* ================================================================== *)

Module Stats.

(** The left operand of [+] once converted: a number or a string. *)
Inductive primitive : Type :=
| PNum (n : number)
| PStr (s : string).






Section WithEngine.
Variable E : engine.
Variable P : Proto.object_prototype.

(** [s + v], where [s] is the sum so far: concatenation as soon as one side
    is a string (or an object, through its string form), addition otherwise. *)
Definition primitive_text (s : primitive) : string :=
  match s with
  | PNum n => number_toString E n
  | PStr t => t
  end.

Definition plus (s : primitive) (v : value) : primitive :=
  match v with
  | VStr _ | VArr _ | VObj _ => PStr (primitive_text s ++ ToString E v)
  | _ =>
      match s with
      | PStr t => PStr (t ++ ToString E v)
      | PNum n => PNum (num_add E n (ToNumber E v))
      end
  end.

Definition primitive_number (s : primitive) : number :=
  match s with
  | PNum n => n
  | PStr t => StringToNumber E t
  end.

(** [diagnoses.reduce((s, r) => s + (r.confidence || 0), 0)] *)
Fixpoint sum_confidence (s : primitive) (diagnoses : list value)
  : completion primitive :=
  match diagnoses with
  | [] => Normal s
  | r :: rest =>
      c <- get r "confidence" ;;
      sum_confidence (plus s (c ||| VNum 0)) rest
  end.

Definition totalDiagnoses (diagnoses : list value) : nat := List.length diagnoses.

(** Line 83. *)
Definition criticalCases (diagnoses : list value) : completion nat :=
  l <- filter_m (fun d => s <- get d "severity" ;; Normal (Card.strict_eq s "high"))
                diagnoses ;;
  Normal (List.length l).

(** Line 84. *)
Definition avgConfidence (diagnoses : list value) : completion string :=
  if (0 <? totalDiagnoses diagnoses)%nat then
    total <- sum_confidence (PNum (Fin 0)) diagnoses ;;
    let avg := num_div E (primitive_number total)
                       (Z.of_nat (totalDiagnoses diagnoses)) in
    Normal (number_toString E (Math_round (num_mul E avg (Fin 100))) ++ "%")
  else Normal Card.dash.

(** Line 98. *)
Definition recent (diagnoses : list value) : list value := slice diagnoses 0 6.

(** [new Date(d.created_at)], the key of the sort of line 67. *)
Definition creation (d : value) : completion number :=
  c <- get d "created_at" ;; Normal (Date_value E c).









End WithEngine.
End Stats.

(** ** Vocabulary for the dashboard *)

(** A diagnosis whose creation date is a valid date. *)
Definition dated (E : engine) (d : value) : Prop :=
  exists t, Stats.creation E d = Normal (Fin t).

(** The rank of the sort of line 67: the newest first. *)
Definition newness (E : engine) (d : value) : Q :=
  match Stats.creation E d with
  | Normal (Fin t) => (- t)%Q
  | _ => 0%Q
  end.

(** [x] is at least as recent as [y]. *)
Definition not_older (E : engine) (x y : value) : Prop :=
  forall tx ty,
    Stats.creation E x = Normal (Fin tx) ->
    Stats.creation E y = Normal (Fin ty) ->
    (ty <= tx)%Q.


(** A diagnosis whose confidence is absent or a number between 0 and 1. *)
Definition confidence_in_range (d : value) : Prop :=
  nullish d = false /\
  (truthy (field d "confidence") = false \/
   exists q, field d "confidence" = VNum q /\ (0 <= q <= 1)%Q).






(* ================================================================== *)
(** * Reading a line of the exported document back                      *)
(* ================================================================== *)

Module Csv.





End Csv.

(* ================================================================== *)
(** * [lib/api.js]: the access token                                    *)
(* ================================================================== *)

Module Api.




Section WithEngine.
Variable E : engine.





End WithEngine.
End Api.

(* ================================================================== *)
(** * Properties                                                        *)
(* ================================================================== *)

(** Case analysis on every conditional of the goal. *)
Ltac split_ifs :=
  repeat match goal with
         | |- context [if ?b then _ else _] => destruct b eqn:?
         end.

(** One transition of a run on concrete data. *)
Ltac run_step :=
  eapply History.run_cons;
  [ vm_compute; reflexivity
  | simpl; first [exact I | lia | tauto]
  | vm_compute; reflexivity
  | ].

(** ** Pagination arithmetic *)

Lemma Math_ceil_div_Z (n p : Z) :
  History.Math_ceil_div n p = (- ((- n) / p))%Z.
Proof.
  unfold History.Math_ceil_div, Qceiling.
  f_equal.
  rewrite Zdiv_Qdiv.
  apply Qfloor_comp.
  unfold Qdiv. rewrite inject_Z_opp. ring.
Qed.

Lemma Math_ceil_div_bounds (n p : Z) :
  (0 < p)%Z ->
  ((History.Math_ceil_div n p - 1) * p < n <= History.Math_ceil_div n p * p)%Z.
Proof.
  intros Hp. rewrite Math_ceil_div_Z.
  pose proof (Z.div_mod (- n) p ltac:(lia)) as Hdm.
  pose proof (Z.mod_pos_bound (- n) p Hp) as Hb.
  nia.
Qed.

Lemma pageCount_pos (n p : Z) : (1 <= History.pageCount n p)%Z.
Proof. unfold History.pageCount. lia. Qed.

Lemma pageCount_covers (n p : Z) :
  (0 < p)%Z -> (n <= History.pageCount n p * p)%Z.
Proof.
  intros Hp. unfold History.pageCount.
  pose proof (@Math_ceil_div_bounds n p Hp). nia.
Qed.

Lemma firstn_plus {A} (a b : nat) (l : list A) :
  firstn (a + b) l = (firstn a l ++ firstn b (skipn a l))%list.
Proof.
  revert l. induction a as [|a IH]; intros l; simpl.
  - reflexivity.
  - destruct l as [|x l]; simpl.
    + now rewrite firstn_nil.
    + now rewrite IH.
Qed.

(** Within the array, [slice] is "drop [start], take [end - start]". *)
Lemma slice_window {A} (l : list A) (a w : nat) :
  slice l (Z.of_nat a) (Z.of_nat a + Z.of_nat w) = firstn w (skipn a l).
Proof.
  unfold slice, relative_index.
  set (len := List.length l).
  destruct (Z.ltb_spec (Z.of_nat a) 0) as [H|_]; [lia|].
  destruct (Z.ltb_spec (Z.of_nat a + Z.of_nat w) 0) as [H|_]; [lia|].
  destruct (Nat.le_gt_cases a len) as [Ha|Ha].
  - rewrite (Z.min_l (Z.of_nat a)) by lia.
    rewrite Nat2Z.id.
    destruct (Nat.le_gt_cases (a + w) len) as [Hw|Hw].
    + rewrite Z.min_l by lia.
      replace (Z.to_nat (Z.of_nat a + Z.of_nat w - Z.of_nat a)) with w by lia.
      reflexivity.
    + rewrite Z.min_r by lia.
      replace (Z.to_nat (Z.of_nat len - Z.of_nat a)) with (len - a)%nat by lia.
      rewrite !firstn_all2; try reflexivity; rewrite length_skipn; fold len; lia.
  - rewrite (Z.min_r (Z.of_nat a)) by lia.
    rewrite Z.min_r by lia.
    rewrite Z.sub_diag. simpl.
    rewrite (skipn_all2 l) by (fold len; lia).
    now rewrite firstn_nil.
Qed.

Lemma visible_window (s : list value) (i p : nat) :
  History.visible s (Z.of_nat i) (Z.of_nat p) = firstn p (skipn (i * p) s).
Proof.
  unfold History.visible.
  rewrite <- Nat2Z.inj_mul. apply slice_window.
Qed.

Lemma pages_concat (s : list value) (p k : nat) :
  List.concat (map (fun i => History.visible s (Z.of_nat i) (Z.of_nat p)) (seq 0 k))
  = firstn (k * p) s.
Proof.
  induction k as [|k IH].
  - reflexivity.
  - rewrite seq_S, map_app, concat_app, IH. simpl.
    rewrite app_nil_r, visible_window.
    replace (p + k * p)%nat with (k * p + p)%nat by lia.
    now rewrite firstn_plus.
Qed.

(** C3. For a sorted collection of length [n] and a page size [p >= 1]: the
    page count is the ceiling of [n / p] (the integer [c] with
    [(c - 1) * p < n <= c * p]), raised to 1 when that is 0; the element at
    offset [j] of the visible slice at page index [i] is the element at
    position [i * p + j] of the sorted collection, for [j < p]; and the slices
    of pages [0 .. pageCount - 1], put end to end, are the sorted collection
    itself, so that every element appears exactly once. *)
Theorem C3_pages_partition (s : list value) (p : Z) :
  (1 <= p)%Z ->
  let n := Z.of_nat (List.length s) in
  let pc := History.pageCount n p in
  (exists c, ((c - 1) * p < n <= c * p)%Z /\ pc = Z.max 1 c) /\
  (forall i j : nat,
      nth_error (History.visible s (Z.of_nat i) p) j
      = if (Z.of_nat j <? p)%Z then nth_error s (i * Z.to_nat p + j) else None) /\
  List.concat (map (fun i => History.visible s (Z.of_nat i) p) (seq 0 (Z.to_nat pc)))
  = s.
Proof.
  intros Hp.
  destruct (Z_of_nat_complete p ltac:(lia)) as [p' ->].
  intros n pc.
  split; [|split].
  - exists (History.Math_ceil_div n (Z.of_nat p')). split.
    + apply Math_ceil_div_bounds. lia.
    + reflexivity.
  - intros i j. rewrite visible_window, Nat2Z.id.
    rewrite nth_error_firstn, nth_error_skipn.
    destruct (Nat.ltb_spec j p'), (Z.ltb_spec (Z.of_nat j) (Z.of_nat p'));
      try reflexivity; lia.
  - rewrite pages_concat. apply firstn_all2.
    pose proof (@pageCount_covers n (Z.of_nat p') ltac:(lia)) as Hc.
    fold pc in Hc. unfold n in Hc.
    pose proof (pageCount_pos n (Z.of_nat p')) as Hpos. fold pc in Hpos.
    nia.
Qed.

Lemma C3_pages_partition_witness :
  let s := [VNum 1; VNum 2; VNum 3; VNum 4; VNum 5; VNum 6; VNum 7] in
  History.pageCount 7 3 = 3%Z /\
  List.concat (map (fun i => History.visible s (Z.of_nat i) 3) (seq 0 3)) = s.
Proof.
  intros s.
  destruct (@C3_pages_partition s 3%Z ltac:(lia)) as (_ & _ & H).
  split; [reflexivity | exact H].
Defined.

(** ** The page of a settled state *)

Section Settled.
Variable E : engine.

Lemma render_pageCount_set_page (st : History.state) (p : Z) :
  History.render_pageCount E (History.set_page st p) = History.render_pageCount E st.
Proof. reflexivity. Qed.

Lemma render_pageCount_pos (st : History.state) (pc : Z) :
  History.render_pageCount E st = Normal pc -> (1 <= pc)%Z.
Proof.
  unfold History.render_pageCount.
  destruct (History.render_sorted E st) as [s|e]; simpl; [|discriminate].
  intros [= <-]. apply pageCount_pos.
Qed.

Lemma clamp_range (page pc : Z) :
  (1 <= pc)%Z -> (0 <= page)%Z -> (0 <= History.clamp page pc < pc)%Z.
Proof.
  intros Hpc Hp. unfold History.clamp.
  destruct (Z.geb_spec page pc); lia.
Qed.

Lemma clamp_last (page pc : Z) :
  (1 <= pc)%Z -> (pc <= page)%Z -> History.clamp page pc = (pc - 1)%Z.
Proof.
  intros Hpc Hp. unfold History.clamp.
  destruct (Z.geb_spec page pc); lia.
Qed.

Lemma clamp_fixed (page pc : Z) :
  (page < pc)%Z -> History.clamp page pc = page.
Proof.
  intros Hp. unfold History.clamp.
  destruct (Z.geb_spec page pc); lia.
Qed.

(** What [settle] returns: same state, page clamped to its page count. *)
Lemma settle_inv (st st' : History.state) :
  History.settle E st = Normal st' ->
  exists pc, History.render_pageCount E st = Normal pc /\
             st' = History.set_page st (History.clamp (History.st_page st) pc).
Proof.
  unfold History.settle.
  destruct (History.render_pageCount E st) as [pc|e]; simpl; [|discriminate].
  intros [= <-]. now exists pc.
Qed.

Lemma step_inv (st st' : History.state) (ev : History.event) :
  History.step E st ev = Normal st' ->
  exists pc pc',
    History.render_pageCount E st = Normal pc /\
    History.render_pageCount E (History.handler st pc ev) = Normal pc' /\
    st' = History.set_page (History.handler st pc ev)
            (History.clamp (History.st_page (History.handler st pc ev)) pc').
Proof.
  unfold History.step.
  destruct (History.render_pageCount E st) as [pc|e]; simpl; [|discriminate].
  intros H. apply settle_inv in H as (pc' & H1 & H2).
  now exists pc, pc'.
Qed.

(** Once settled, a state stays as it is: the effect that runs after its own
    [setPage] finds the page in range. *)
Lemma settle_settled (st st' : History.state) :
  History.settle E st = Normal st' -> History.settle E st' = Normal st'.
Proof.
  intros H. apply settle_inv in H as (pc & Hpc & ->).
  unfold History.settle. rewrite render_pageCount_set_page, Hpc. simpl.
  f_equal. unfold History.set_page. simpl. f_equal.
  pose proof (render_pageCount_pos _ _ Hpc) as Hpos.
  unfold History.clamp.
  destruct (Z.geb_spec (History.st_page st) pc) as [Hge|Hlt].
  - destruct (Z.geb_spec (Z.max 0 (pc - 1)) pc); [lia | reflexivity].
  - destruct (Z.geb_spec (History.st_page st) pc); [lia | reflexivity].
Qed.

End Settled.

Lemma In_slice {A} (l : list A) (a b : Z) (x : A) : In x (slice l a b) -> In x l.
Proof.
  unfold slice. intros H.
  set (k := Z.to_nat (relative_index (Z.of_nat (List.length l)) a)) in *.
  set (w := Z.to_nat _) in H.
  rewrite <- (firstn_skipn k l). apply in_or_app. right.
  rewrite <- (firstn_skipn w (skipn k l)). apply in_or_app. now left.
Qed.

Lemma page_buttons_range (pc page p : Z) :
  In p (History.page_buttons pc page) -> (0 <= p < pc)%Z.
Proof.
  unfold History.page_buttons. intros H.
  apply In_slice in H. apply in_map_iff in H as (i & <- & Hi).
  apply in_seq in Hi. lia.
Qed.

(** The page index a handler leaves is not negative. *)
Lemma handler_page_nonneg (st : History.state) (pc : Z) (ev : History.event) :
  (1 <= pc)%Z ->
  (0 <= History.st_page st)%Z ->
  History.enabled st pc ev ->
  (0 <= History.st_page (History.handler st pc ev))%Z.
Proof.
  intros Hpc Hp Hen.
  destruct ev as [res|v|v|v|v| | |p|now]; simpl in *; try lia.
  - destruct res as [data|]; simpl; assumption.
  - apply page_buttons_range in Hen. lia.
Qed.

(** The range of the page index is kept by every run. *)
Lemma run_page_in_range (E : engine) (evs : list History.event)
        (st st' : History.state) (pc0 : Z) :
  History.render_pageCount E st = Normal pc0 ->
  (0 <= History.st_page st < pc0)%Z ->
  History.run E st evs st' ->
  exists pc, History.render_pageCount E st' = Normal pc /\
             (0 <= History.st_page st' < pc)%Z.
Proof.
  intros Hpc0 Hrange Hrun. revert pc0 Hpc0 Hrange.
  induction Hrun as [st|st ev st1 evs st2 pc Hpc Hen Hstep Hrun IH];
    intros pc0 Hpc0 Hrange.
  - now exists pc0.
  - rewrite Hpc in Hpc0. injection Hpc0 as <-.
    apply step_inv in Hstep as (pc1 & pc' & H1 & H2 & ->).
    rewrite Hpc in H1. injection H1 as <-.
    pose proof (render_pageCount_pos _ _ _ H2) as Hpos'.
    apply (IH pc').
    + now rewrite render_pageCount_set_page.
    + simpl. apply clamp_range; [assumption|].
      apply handler_page_nonneg; [lia | lia | assumption].
Qed.

(** C4. After every sequence of transitions of the view, from its initial
    state (load settled, search, severity filter, sort, page size,
    previous/next/numbered page, export), each followed by the render and its
    clamp effect, the page index [page] satisfies [0 <= page < pageCount],
    where [pageCount] is the page count of the filtered and sorted collection
    of the state reached, for its page size. *)
Theorem C4_page_in_range (E : engine) (evs : list History.event)
        (st : History.state) :
  History.run E History.initial evs st ->
  exists pc, History.render_pageCount E st = Normal pc /\
             (0 <= History.st_page st < pc)%Z.
Proof.
  apply (run_page_in_range E evs History.initial st 1%Z).
  - reflexivity.
  - simpl. lia.
Qed.

Lemma crowded_reachable :
  History.run Reference.engine History.initial Sample.to_crowded Sample.crowded.
Proof.
  unfold Sample.to_crowded.
  do 4 run_step. apply History.run_nil.
Defined.

Lemma C4_page_in_range_witness :
  exists pc, History.render_pageCount Reference.engine Sample.crowded = Normal pc /\
             (0 <= History.st_page Sample.crowded < pc)%Z.
Proof.
  exact (C4_page_in_range Reference.engine Sample.to_crowded Sample.crowded
           crowded_reachable).
Defined.

(** ** Changing the page size *)

(** C5, as the specification words it, fails: with thirteen diagnoses shown
    six per page and the user on the third page (index 2), choosing twelve per
    page leaves two pages, so that the old index is at the new page count; the
    page index becomes 0 and not 1, the last valid page. *)
Lemma C5_page_size_counterexample :
  ~ spec_page_size_clamp Reference.engine Sample.crowded 12.
Proof.
  intros H.
  destruct (H Sample.regrouped 2%Z) as [Hpage _].
  - vm_compute. reflexivity.
  - vm_compute. reflexivity.
  - simpl. lia.
  - simpl in Hpage. discriminate Hpage.
Qed.

(** C5, amended. A change of page size resets the page index to 0, the first
    page, which is a valid page of the new page count. It is the clamp effect
    that, in any state whose page index is greater than or equal to the page
    count, resets the page index to the last valid page (page count - 1),
    which is never negative. *)
Theorem C5_page_size_resets (E : engine) (st st' : History.state) (v : Z) :
  In v History.page_size_options ->
  History.step E st (History.PageSizeSelect v) = Normal st' ->
  (History.st_page st' = 0%Z /\
   History.st_itemsPerPage st' = v /\
   exists pc', History.render_pageCount E st' = Normal pc' /\ (0 < pc')%Z) /\
  (forall st1 st2 pc,
      History.render_pageCount E st1 = Normal pc ->
      (pc <= History.st_page st1)%Z ->
      History.settle E st1 = Normal st2 ->
      History.st_page st2 = (pc - 1)%Z /\ (0 <= History.st_page st2)%Z).
Proof.
  intros Hv Hstep. split.
  - apply step_inv in Hstep as (pc & pc' & H1 & H2 & ->).
    pose proof (render_pageCount_pos _ _ _ H2) as Hpos.
    simpl. rewrite clamp_fixed by lia.
    repeat split; try reflexivity.
    exists pc'. split; [|lia].
    rewrite render_pageCount_set_page. exact H2.
  - intros st1 st2 pc Hpc Hge Hsettle.
    apply settle_inv in Hsettle as (pc1 & H1 & ->).
    rewrite Hpc in H1. injection H1 as <-.
    pose proof (render_pageCount_pos _ _ _ Hpc) as Hpos.
    simpl. rewrite clamp_last by lia. lia.
Qed.

Lemma C5_page_size_resets_witness :
  History.step Reference.engine Sample.crowded (History.PageSizeSelect 12)
  = Normal Sample.regrouped /\
  History.st_page Sample.regrouped = 0%Z.
Proof.
  assert (Hstep : History.step Reference.engine Sample.crowded
                    (History.PageSizeSelect 12) = Normal Sample.regrouped)
    by (vm_compute; reflexivity).
  split; [exact Hstep|].
  refine (proj1 (proj1 (C5_page_size_resets Reference.engine Sample.crowded
                          Sample.regrouped 12 _ Hstep))).
  simpl. tauto.
Defined.

(** ** Export of an empty set *)

Lemma set_page_same (st : History.state) :
  History.set_page st (History.st_page st) = st.
Proof. now destruct st. Qed.

(** C7. In every state whose filtered and sorted set is empty, the export
    handler produces no download: it reports "No rows to export" in an alert
    and returns; it writes no component state, and the transition it
    triggers leaves a settled state as it is. *)
Theorem C7_empty_export (E : engine) (st : History.state) (now_iso : string) :
  History.render_sorted E st = Normal [] ->
  History.export E st now_iso = Normal (History.Alert "No rows to export") /\
  (forall f m c, History.export E st now_iso <> Normal (History.Download f m c)) /\
  (forall pc, History.handler st pc (History.ExportClick now_iso) = st) /\
  (forall pc, History.render_pageCount E st = Normal pc ->
              (History.st_page st < pc)%Z ->
              History.step E st (History.ExportClick now_iso) = Normal st).
Proof.
  intros Hs.
  assert (Hx : History.export E st now_iso = Normal (History.Alert "No rows to export")).
  { unfold History.export. rewrite Hs. reflexivity. }
  split; [exact Hx|]. split; [|split].
  - intros f m c. rewrite Hx. discriminate.
  - reflexivity.
  - intros pc Hpc Hlt. unfold History.step. rewrite Hpc. simpl.
    unfold History.settle. rewrite Hpc. simpl.
    rewrite clamp_fixed by assumption. now rewrite set_page_same.
Qed.

Lemma C7_empty_export_witness :
  History.render_sorted Reference.engine History.initial = Normal [] /\
  History.export Reference.engine History.initial "2026-11-02T08:00:00.000Z"
  = Normal (History.Alert "No rows to export").
Proof.
  assert (H : History.render_sorted Reference.engine History.initial = Normal [])
    by reflexivity.
  split; [exact H|].
  exact (proj1 (C7_empty_export Reference.engine History.initial
                  "2026-11-02T08:00:00.000Z" H)).
Defined.

(** ** Loading *)

Lemma sorted_nil (E : engine) (sortBy : string) : History.sorted E [] sortBy = Normal [].
Proof.
  unfold History.sorted.
  repeat match goal with |- context [if ?b then _ else _] => destruct b end;
    reflexivity.
Qed.

Lemma visible_nil (page p : Z) : History.visible [] page p = [].
Proof.
  unfold History.visible, slice. now rewrite skipn_nil, firstn_nil.
Qed.

(** A state with no records renders the empty-state message once it has
    stopped loading. *)
Lemma render_body_no_records (E : engine) (P : Proto.object_prototype)
      (st : History.state) :
  History.st_list st = [] ->
  History.st_loading st = false ->
  Page.render_body E P st = Normal Page.ShowEmpty.
Proof.
  intros Hl Hld.
  unfold Page.render_body, History.render_visible, History.render_sorted.
  rewrite Hl. simpl. rewrite sorted_nil. simpl.
  now rewrite visible_nil, Hld.
Qed.

(** C8. When the diagnosis list fails to load, the handler of the failure
    only logs it, stores the empty collection and clears the loading flag:
    the view then renders its empty state, the other view state untouched and
    no exception escaping. When the dashboard awaits its two requests jointly,
    the rejection of either one stores the empty collection for both the
    cattle and the diagnoses, whatever the other request returned. *)
Theorem C8_load_failure_empties (E : engine) (P : Proto.object_prototype) :
  (forall st : History.state,
      History.load_settle true Rejected
      = [History.ConsoleError "Failed to load diagnoses";
         History.SetList []; History.SetLoading false] /\
      let st' := History.perform_all st (History.load_settle true Rejected) in
      History.st_list st' = [] /\
      History.st_loading st' = false /\
      Page.render_body E P st' = Normal Page.ShowEmpty /\
      History.st_search st' = History.st_search st /\
      History.st_severityFilter st' = History.st_severityFilter st /\
      History.st_sortBy st' = History.st_sortBy st /\
      History.st_page st' = History.st_page st /\
      History.st_itemsPerPage st' = History.st_itemsPerPage st) /\
  (forall (st : Dashboard.state) (cancelled : bool) (other : outcome),
      let left := Dashboard.perform_all st
                    (Dashboard.load_settle E cancelled Rejected other) in
      let right := Dashboard.perform_all st
                     (Dashboard.load_settle E cancelled other Rejected) in
      Dashboard.st_cattle left = [] /\ Dashboard.st_diagnoses left = [] /\
      Dashboard.st_cattle right = [] /\ Dashboard.st_diagnoses right = []).
Proof.
  split.
  - intros st. split; [reflexivity|].
    simpl. repeat split.
    apply render_body_no_records; reflexivity.
  - intros st cancelled other.
    destruct cancelled, other; simpl; repeat split.
Qed.

(** The diagnosis list once unmounted: the continuation of the load writes no
    component state, whether the request was fulfilled or rejected. *)
Lemma history_load_discarded (res : outcome) :
  existsb History.mutates (History.load_settle false res) = false.
Proof. destruct res; reflexivity. Qed.

(** The dashboard once unmounted, both requests fulfilled: nothing is
    written. *)
Lemma dashboard_load_discarded (E : engine) (cdata ddata : value) :
  Dashboard.load_settle E true (Resolved cdata) (Resolved ddata) = [].
Proof. reflexivity. Qed.

(** C9 (no state is written once the component is unmounted, whether the
    request is fulfilled or rejected) fails on the dashboard when a request
    is rejected after the unmount: the handler of the failure does not read
    the [cancelled] flag and stores the two empty collections. *)
Theorem C9_dashboard_writes_after_unmount (E : engine) (other : outcome) :
  Dashboard.load_settle E true Rejected other
  = [Dashboard.ConsoleError "Failed to load dashboard data";
     Dashboard.SetCattle []; Dashboard.SetDiagnoses []] /\
  Dashboard.load_settle E true other Rejected
  = [Dashboard.ConsoleError "Failed to load dashboard data";
     Dashboard.SetCattle []; Dashboard.SetDiagnoses []] /\
  existsb Dashboard.mutates (Dashboard.load_settle E true Rejected other) = true.
Proof.
  destruct other; repeat split.
Qed.

(** C10. When the request is fulfilled with a body that is not an array, the
    collection stored is the empty list, never the body itself: in the
    diagnosis list, and for each of the two collections of the dashboard
    (whatever the other body is); in the diagnosis list, what is stored is
    always the list of the elements of an array. *)
Theorem C10_non_array_body_empties (E : engine) (data : value) :
  Array_isArray data = false ->
  (forall st : History.state,
      History.st_list (History.perform_all st (History.load_settle true (Resolved data)))
      = []) /\
  (forall (st : History.state) (body : value),
      History.st_list (History.perform_all st (History.load_settle true (Resolved body)))
      = elements body) /\
  (forall (st : Dashboard.state) (other : value),
      Dashboard.st_cattle
        (Dashboard.perform_all st
           (Dashboard.load_settle E false (Resolved data) (Resolved other))) = [] /\
      Dashboard.st_diagnoses
        (Dashboard.perform_all st
           (Dashboard.load_settle E false (Resolved other) (Resolved data))) = []).
Proof.
  intros Hna. split; [|split].
  - intros st. simpl. now rewrite Hna.
  - intros st body. simpl. now destruct body.
  - intros st other. split.
    + simpl. rewrite Hna.
      destruct (if Array_isArray other then _ else _); reflexivity.
    + simpl. rewrite Hna. reflexivity.
Qed.

Lemma C10_non_array_body_empties_witness :
  Array_isArray Sample.error_document = false /\
  History.st_list
    (History.perform_all History.initial
       (History.load_settle true (Resolved Sample.error_document))) = [].
Proof.
  split; [reflexivity|].
  exact (proj1 (C10_non_array_body_empties Reference.engine Sample.error_document
                  eq_refl) History.initial).
Defined.

(** ** Reading the fields of a record *)

Lemma nullish_cases (v : value) : nullish v = true -> v = VUndefined \/ v = VNull.
Proof. destruct v; simpl; try discriminate; auto. Qed.

Lemma get_field (v : value) (k : string) :
  nullish v = false -> get v k = Normal (field v k).
Proof. destruct v; simpl; try discriminate; reflexivity. Qed.

(** ** Sorting: the stable arrangement *)

Section ArrangeFacts.
Variable rk : value -> Q.

Lemma place_perm (x : value) (l : list value) :
  Permutation (x :: l) (place rk x l).
Proof.
  induction l as [|y l IH]; simpl.
  - apply Permutation_refl.
  - destruct (after rk x y).
    + eapply Permutation_trans; [apply perm_swap|]. now apply perm_skip.
    + apply Permutation_refl.
Qed.

Lemma arrange_perm (l : list value) : Permutation l (arrange rk l).
Proof.
  induction l as [|x l IH]; simpl.
  - constructor.
  - eapply Permutation_trans; [apply perm_skip, IH | apply place_perm].
Qed.

Lemma after_false (x y : value) : after rk x y = false -> rank_le rk x y.
Proof.
  unfold after, rank_le. intros H. apply negb_false_iff in H.
  now apply Qle_bool_iff.
Qed.

Lemma after_true (x y : value) : after rk x y = true -> rank_le rk y x.
Proof.
  unfold after, rank_le. intros H. apply negb_true_iff in H.
  apply Qlt_le_weak, Qnot_le_lt. intros Hle.
  apply Qle_bool_iff in Hle. congruence.
Qed.

Lemma place_hd (a x : value) (l : list value) :
  HdRel (rank_le rk) a l -> rank_le rk a x -> HdRel (rank_le rk) a (place rk x l).
Proof.
  intros Hl Hx. destruct l as [|y l]; simpl.
  - now constructor.
  - destruct (after rk x y); constructor; [now inversion Hl | assumption].
Qed.

Lemma place_sorted (x : value) (l : list value) :
  Sorted (rank_le rk) l -> Sorted (rank_le rk) (place rk x l).
Proof.
  induction l as [|y l IH]; intros Hs; simpl.
  - repeat constructor.
  - inversion Hs as [|? ? Hs' Hhd]; subst.
    destruct (after rk x y) eqn:Hxy.
    + constructor; [now apply IH|].
      apply place_hd; [assumption | now apply after_true].
    + constructor; [assumption|]. constructor. now apply after_false.
Qed.

Lemma arrange_sorted (l : list value) : Sorted (rank_le rk) (arrange rk l).
Proof.
  induction l as [|x l IH]; simpl.
  - constructor.
  - now apply place_sorted.
Qed.

(** Stability: a selection of records that the order does not separate keeps
    its sequence. *)
Lemma place_stable (f : value -> bool) (x : value) (l : list value) :
  (forall y, In y l -> f x = true -> f y = true -> after rk x y = false) ->
  filter f (place rk x l) = filter f (x :: l).
Proof.
  induction l as [|y l IH]; intros Hf; simpl.
  - reflexivity.
  - destruct (after rk x y) eqn:Hxy.
    + simpl. rewrite IH by (intros z Hz; apply Hf; now right). simpl.
      destruct (f x) eqn:Hfx, (f y) eqn:Hfy; try reflexivity.
      rewrite (Hf y (or_introl eq_refl) eq_refl Hfy) in Hxy. discriminate.
    + reflexivity.
Qed.

Lemma arrange_stable (f : value -> bool) (l : list value) :
  (forall x y, f x = true -> f y = true -> after rk x y = false) ->
  filter f (arrange rk l) = filter f l.
Proof.
  intros Hf. induction l as [|x l IH]; simpl.
  - reflexivity.
  - rewrite place_stable by (intros; now apply Hf). simpl. now rewrite IH.
Qed.

(** The engine's sort computes the arrangement whenever the comparator never
    throws on the list and its sign is that of the rank difference. *)
Section WithComparator.
Variable comparefn : value -> value -> completion number.

Lemma insert_place (x : value) (l : list value) :
  (forall y, In y l -> agrees rk comparefn x y) ->
  insert comparefn x l = Normal (place rk x l).
Proof.
  induction l as [|y l IH]; intros H; simpl.
  - reflexivity.
  - destruct (H y (or_introl eq_refl)) as (v & -> & Hv). simpl.
    rewrite Hv. destruct (after rk x y).
    + rewrite IH by (intros z Hz; apply H; now right). reflexivity.
    + reflexivity.
Qed.

Lemma sort_defined_arrange (l : list value) :
  (forall x y, In x l -> In y l -> agrees rk comparefn x y) ->
  sort_defined comparefn l = Normal (arrange rk l).
Proof.
  induction l as [|x l IH]; intros H; simpl.
  - reflexivity.
  - rewrite IH by (intros; apply H; now right). simpl.
    apply insert_place. intros y Hy. apply H; [now left|right].
    eapply Permutation_in; [apply Permutation_sym, arrange_perm | exact Hy].
Qed.

Lemma filter_all {A} (f : A -> bool) (l : list A) :
  (forall x, In x l -> f x = true) -> filter f l = l.
Proof.
  induction l as [|x l IH]; intros H; simpl.
  - reflexivity.
  - rewrite (H x (or_introl eq_refl)). f_equal. apply IH.
    intros; apply H; now right.
Qed.

Lemma filter_none {A} (f : A -> bool) (l : list A) :
  (forall x, In x l -> f x = false) -> filter f l = [].
Proof.
  induction l as [|x l IH]; intros H; simpl.
  - reflexivity.
  - rewrite (H x (or_introl eq_refl)). apply IH.
    intros; apply H; now right.
Qed.

Lemma sort_arrange (l : list value) :
  (forall x, In x l -> is_undefined x = false) ->
  (forall x y, In x l -> In y l -> agrees rk comparefn x y) ->
  sort comparefn l = Normal (arrange rk l).
Proof.
  intros Hdef Hag. unfold sort.
  rewrite filter_all by (intros x Hx; now rewrite (Hdef x Hx)).
  rewrite sort_defined_arrange by assumption. simpl.
  rewrite filter_none by assumption. now rewrite app_nil_r.
Qed.

End WithComparator.
End ArrangeFacts.

(** Whatever the comparator, a sort that returns has rearranged the list. *)
Lemma insert_perm (comparefn : value -> value -> completion number)
      (x : value) (l r : list value) :
  insert comparefn x l = Normal r -> Permutation (x :: l) r.
Proof.
  revert r. induction l as [|y l IH]; intros r; simpl.
  - intros [= <-]. apply Permutation_refl.
  - destruct (comparefn x y) as [v|e]; simpl; [|discriminate].
    destruct (positive v).
    + destruct (insert comparefn x l) as [r'|e] eqn:Hr; simpl; [|discriminate].
      intros [= <-]. eapply Permutation_trans; [apply perm_swap|].
      apply perm_skip. now apply IH.
    + intros [= <-]. apply Permutation_refl.
Qed.

Lemma sort_defined_perm (comparefn : value -> value -> completion number)
      (l r : list value) :
  sort_defined comparefn l = Normal r -> Permutation l r.
Proof.
  revert r. induction l as [|x l IH]; intros r; simpl.
  - intros [= <-]. constructor.
  - destruct (sort_defined comparefn l) as [s|e]; simpl; [|discriminate].
    intros H. apply insert_perm in H.
    eapply Permutation_trans; [apply perm_skip, IH; reflexivity | exact H].
Qed.

Lemma filter_split_perm {A} (f : A -> bool) (l : list A) :
  Permutation l (filter (fun v => negb (f v)) l ++ filter f l).
Proof.
  induction l as [|x l IH]; simpl.
  - constructor.
  - destruct (f x); simpl.
    + now apply Permutation_cons_app.
    + now apply perm_skip.
Qed.

Lemma sort_perm (comparefn : value -> value -> completion number)
      (l r : list value) :
  sort comparefn l = Normal r -> Permutation l r.
Proof.
  unfold sort.
  destruct (sort_defined comparefn _) as [s|e] eqn:Hs; simpl; [|discriminate].
  intros [= <-]. apply sort_defined_perm in Hs.
  eapply Permutation_trans; [apply (filter_split_perm is_undefined)|].
  now apply Permutation_app_tail.
Qed.

Lemma sorted_perm (E : engine) (l out : list value) (sortBy : string) :
  History.sorted E l sortBy = Normal out -> Permutation l out.
Proof.
  unfold History.sorted.
  repeat match goal with
         | |- context [if ?b then _ else _] => destruct b
         end;
    try apply sort_perm.
  intros [= <-]. apply Permutation_refl.
Qed.

Lemma Sorted_adjacent {A} (R : A -> A -> Prop) (l : list A) (i : nat) (x y : A) :
  Sorted R l -> nth_error l i = Some x -> nth_error l (S i) = Some y -> R x y.
Proof.
  intros Hs. revert i. induction Hs as [|a l Hs IH Hhd]; intros i Hx Hy.
  - destruct i; discriminate.
  - destruct i as [|i]; simpl in *.
    + injection Hx as <-. destruct l as [|b l]; [discriminate|].
      simpl in Hy. injection Hy as <-. now inversion Hhd.
    + eapply IH; eassumption.
Qed.

(** The sign of a difference. *)
Lemma positive_sub (a b : Q) : positive (Fin (a - b)) = negb (Qle_bool a b).
Proof.
  destruct a as [an ad], b as [bn bd].
  unfold positive, Qle_bool, Qminus, Qplus, Qopp. simpl.
  destruct (Z.ltb_spec 0 (an * Z.pos bd + - bn * Z.pos ad)),
           (Z.leb_spec (an * Z.pos bd) (bn * Z.pos ad)); simpl; try reflexivity; lia.
Qed.

Lemma Qle_bool_opp (a b : Q) : Qle_bool (- a) (- b) = Qle_bool b a.
Proof.
  destruct (Qle_bool b a) eqn:H.
  - apply Qle_bool_iff. apply Qle_bool_iff in H. now apply Qopp_le_compat.
  - destruct (Qle_bool (- a) (- b)) eqn:H'; [|reflexivity].
    apply Qle_bool_iff in H'. apply Qopp_le_compat in H'.
    rewrite !Qopp_involutive in H'. apply Qle_bool_iff in H'. congruence.
Qed.

(** For records the sort key can order, the comparator never throws and its
    sign is that of the difference of ranks. *)
Lemma comparator_agrees (E : engine) (sortBy : string) (x y : value) :
  In sortBy History.sort_options ->
  sortable E sortBy x -> sortable E sortBy y ->
  agrees (rank E sortBy) (comparator E sortBy) x y.
Proof.
  intros Hin [kx Hx] [ky Hy]. unfold agrees, after, rank.
  rewrite Hx, Hy.
  simpl in Hin. destruct Hin as [<-|[<-|[<-|[<-|[]]]]];
    cbn in Hx, Hy; cbn [comparator descending String.eqb Ascii.eqb Bool.eqb orb];
    cbn.
  - unfold History.by_newest. rewrite Hx, Hy. cbn [bind num_sub].
    eexists; split; [reflexivity|].
    now rewrite positive_sub, Qle_bool_opp.
  - unfold History.by_oldest. rewrite Hx, Hy. cbn [bind num_sub].
    eexists; split; [reflexivity|]. apply positive_sub.
  - unfold History.by_confidence_desc. rewrite Hx, Hy. cbn [bind num_sub].
    eexists; split; [reflexivity|].
    now rewrite positive_sub, Qle_bool_opp.
  - unfold History.by_confidence_asc. rewrite Hx, Hy. cbn [bind num_sub].
    eexists; split; [reflexivity|]. apply positive_sub.
Qed.

Lemma sorted_by_comparator (E : engine) (l : list value) (sortBy : string) :
  In sortBy History.sort_options ->
  History.sorted E l sortBy = sort (comparator E sortBy) l.
Proof.
  simpl. intros [<-|[<-|[<-|[<-|[]]]]]; reflexivity.
Qed.

Lemma sortable_defined (E : engine) (sortBy : string) (x : value) :
  sortable E sortBy x -> is_undefined x = false.
Proof.
  intros [k Hk]. destruct x; try reflexivity.
  unfold sort_key in Hk. destruct (_ || _); discriminate Hk.
Qed.

(** On sortable records, [sorted] is the stable arrangement by rank. *)
Lemma sorted_arrange (E : engine) (l : list value) (sortBy : string) :
  In sortBy History.sort_options ->
  Forall (sortable E sortBy) l ->
  History.sorted E l sortBy = Normal (arrange (rank E sortBy) l).
Proof.
  intros Hin Hl. rewrite Forall_forall in Hl.
  rewrite sorted_by_comparator by assumption.
  apply sort_arrange.
  - intros x Hx. eapply sortable_defined; eauto.
  - intros x y Hx Hy. apply comparator_agrees; auto.
Qed.

(** The order of ranks is the order of the sort key. *)
Lemma rank_in_order (E : engine) (sortBy : string) (x y : value) (kx ky : Q) :
  sort_key E sortBy x = Normal (Fin kx) ->
  sort_key E sortBy y = Normal (Fin ky) ->
  (rank E sortBy x <= rank E sortBy y)%Q ->
  in_order sortBy kx ky.
Proof.
  unfold rank, in_order. intros -> ->.
  destruct (descending sortBy); intros H; [|exact H].
  apply Qopp_le_compat in H. now rewrite !Qopp_involutive in H.
Qed.

(** The comparator of a sort key reads the key of the record: the time of
    its timestamp or the epoch, resp. its confidence or 0. *)
Lemma sort_key_read (E : engine) (sortBy : string) (x : value) :
  nullish x = false ->
  sort_key E sortBy x = Normal (key_of E sortBy x).
Proof.
  intros Hx. unfold sort_key, key_of, by_time.
  destruct ((sortBy =? "newest") || (sortBy =? "oldest")).
  - unfold History.created_time, time_key, timestamp.
    rewrite (get_field x "created_at" Hx). cbn [bind]. unfold or_else.
    destruct (truthy (field x "created_at")); reflexivity.
  - unfold History.confidence_num, confidence_key.
    rewrite (get_field x "confidence" Hx). cbn [bind]. unfold or_else.
    destruct (truthy (field x "confidence")); reflexivity.
Qed.

Lemma orderable_sortable (E : engine) (sortBy : string) (x : value) :
  orderable E sortBy x -> sortable E sortBy x.
Proof.
  intros [Hx [k Hk]]. exists k. now rewrite sort_key_read, Hk.
Qed.

(** The rank of a record is its key, with the sign of the direction. *)
Lemma key_rank (E : engine) (sortBy : string) (x : value) (k : Q) :
  key_of E sortBy x = Fin k ->
  (rank E sortBy x == if descending sortBy then - k else k)%Q.
Proof.
  intros Hk. unfold rank. destruct (nullish x) eqn:Hx.
  - assert (Hz : k = 0%Q).
    { destruct (nullish_cases x Hx) as [-> | ->];
        unfold key_of, time_key, confidence_key in Hk; cbn in Hk;
        destruct (by_time sortBy); now injection Hk as <-. }
    subst k.
    assert (Hs : sort_key E sortBy x = Throw TypeError).
    { unfold sort_key.
      destruct (nullish_cases x Hx) as [-> | ->];
        destruct (_ || _); reflexivity. }
    rewrite Hs. destruct (descending sortBy); reflexivity.
  - rewrite (sort_key_read E sortBy x Hx), Hk.
    destruct (descending sortBy); reflexivity.
Qed.

Lemma same_key_not_after (E : engine) (sortBy : string) (k : Q) (x y : value) :
  match key_of E sortBy x with
  | Fin k' => Qeq_bool k' k
  | _ => false
  end = true ->
  match key_of E sortBy y with
  | Fin k' => Qeq_bool k' k
  | _ => false
  end = true ->
  after (rank E sortBy) x y = false.
Proof.
  unfold after.
  destruct (key_of E sortBy x) as [| |kx] eqn:Hkx; try discriminate.
  destruct (key_of E sortBy y) as [| |ky] eqn:Hky; try discriminate.
  intros Hx Hy. apply Qeq_bool_iff in Hx, Hy.
  apply negb_false_iff, Qle_bool_iff.
  rewrite (key_rank E sortBy x kx Hkx), (key_rank E sortBy y ky Hky).
  destruct (descending sortBy); rewrite Hx, Hy; apply Qle_refl.
Qed.

(** C1, as the specification words it, fails for the key "oldest": a record
    with no timestamp that stands first in the collection is moved behind a
    record dated before 1970, so it is not treated as the earliest time. *)
Lemma C1_missing_not_earliest_counterexample :
  ~ spec_oldest_first Reference.engine [Sample.undated; Sample.before_epoch].
Proof.
  intros H.
  destruct (H [Sample.before_epoch; Sample.undated]) as (_ & _ & Hadj).
  - vm_compute. reflexivity.
  - exact (Hadj 0%nat Sample.before_epoch Sample.undated eq_refl eq_refl).
Qed.

(** C1, amended. For every filtered collection whose records the sort key can
    order (entries that are not null, whose timestamp, when present, is a
    valid date, or whose confidence, when present, is numeric) and every sort
    key among newest, oldest, confidence_desc and confidence_asc, the sorted
    set is a permutation of the filtered set, of equal length, in which no
    adjacent pair is out of order: the comparator of the key finds none, and
    the keys read off the two records (the time of the timestamp, descending
    or ascending, with a missing timestamp treated as the epoch, time value
    0; the confidence, descending or ascending, with a missing confidence
    treated as 0) are in the order of the sort key; and the records of equal
    key keep their original relative order. On any collection at all, a sort
    that returns has returned a permutation of equal length. *)
Theorem C1_sorted_stable (E : engine) (l : list value) (sortBy : string) :
  In sortBy History.sort_options ->
  Forall (orderable E sortBy) l ->
  exists out,
    History.sorted E l sortBy = Normal out /\
    Permutation l out /\
    List.length out = List.length l /\
    (forall i x y,
        nth_error out i = Some x -> nth_error out (S i) = Some y ->
        (exists v, comparator E sortBy x y = Normal v /\ positive v = false) /\
        (forall kx ky,
            key_of E sortBy x = Fin kx ->
            key_of E sortBy y = Fin ky ->
            in_order sortBy kx ky)) /\
    (forall k, of_key E sortBy k out = of_key E sortBy k l) /\
    (forall item, nullish item = false ->
                  sort_key E sortBy item = Normal (key_of E sortBy item)) /\
    (forall fs, truthy (assoc "created_at" fs) = false ->
                History.created_time E (VObj fs) = Normal (Fin 0) /\
                time_key E (VObj fs) = Fin 0) /\
    (forall fs, truthy (assoc "confidence" fs) = false ->
                History.confidence_num E (VObj fs) = Normal (Fin 0) /\
                confidence_key E (VObj fs) = Fin 0) /\
    (forall any out',
        History.sorted E any sortBy = Normal out' ->
        Permutation any out' /\ List.length out' = List.length any).
Proof.
  intros Hin Hl.
  assert (Hs : Forall (sortable E sortBy) l).
  { eapply Forall_impl; [|exact Hl]. intros x. apply orderable_sortable. }
  exists (arrange (rank E sortBy) l).
  pose proof (arrange_perm (rank E sortBy) l) as Hperm.
  split; [now apply sorted_arrange|].
  split; [exact Hperm|].
  split; [symmetry; now apply Permutation_length|].
  split; [|split; [|split; [|split; [|split]]]].
  - intros i x y Hx Hy.
    pose proof (Sorted_adjacent _ _ _ _ _ (arrange_sorted (rank E sortBy) l) Hx Hy)
      as Hle.
    rewrite Forall_forall in Hl.
    assert (Ox : orderable E sortBy x).
    { apply Hl. eapply Permutation_in; [apply Permutation_sym, Hperm|].
      eapply nth_error_In; eauto. }
    assert (Oy : orderable E sortBy y).
    { apply Hl. eapply Permutation_in; [apply Permutation_sym, Hperm|].
      eapply nth_error_In; eauto. }
    split.
    + destruct (comparator_agrees E sortBy x y Hin
                  (orderable_sortable _ _ _ Ox) (orderable_sortable _ _ _ Oy))
        as (v & Hv & Hpos).
      exists v. split; [exact Hv|]. rewrite Hpos.
      unfold after. apply negb_false_iff. now apply Qle_bool_iff.
    + intros kx ky Hkx Hky.
      apply (rank_in_order E sortBy x y kx ky);
        [rewrite sort_key_read by apply Ox; now rewrite Hkx
        |rewrite sort_key_read by apply Oy; now rewrite Hky
        |exact Hle].
  - intros k. unfold of_key. apply arrange_stable.
    intros x y. apply same_key_not_after.
  - intros item Hx. now apply sort_key_read.
  - intros fs Hf. split.
    + unfold History.created_time. simpl. unfold or_else. now rewrite Hf.
    + unfold time_key, timestamp. cbn [get nullish field]. now rewrite Hf.
  - intros fs Hf. split.
    + unfold History.confidence_num. simpl. unfold or_else. now rewrite Hf.
    + unfold confidence_key, field. cbn [get nullish]. now rewrite Hf.
  - intros any out' Hany. apply sorted_perm in Hany.
    split; [assumption | symmetry; now apply Permutation_length].
Qed.

(** ** Strings *)

Lemma starts_with_spec (p s : string) :
  starts_with p s = true <-> exists post, s = p ++ post.
Proof.
  revert s. induction p as [|a p IH]; intros s; simpl.
  - split; [intros _; now exists s | reflexivity].
  - destruct s as [|b s].
    + split; [discriminate | intros [post H]; discriminate].
    + rewrite andb_true_iff, IH. split.
      * intros [Hab [post ->]]. apply Ascii.eqb_eq in Hab as ->. now exists post.
      * intros [post [= -> ->]]. split; [apply Ascii.eqb_refl | now exists post].
Qed.

Lemma includes_spec (s q : string) :
  includes s q = true <-> exists pre post, s = pre ++ q ++ post.
Proof.
  induction s as [|c s IH].
  - simpl. rewrite orb_false_r, starts_with_spec. split.
    + intros [post H]. now exists EmptyString, post.
    + intros (pre & post & H). destruct pre; [now exists post | discriminate].
  - cbn [includes]. rewrite orb_true_iff, starts_with_spec, IH. split.
    + intros [[post H] | (pre & post & H)].
      * now exists EmptyString, post.
      * exists (String c pre), post. simpl. now rewrite H.
    + intros (pre & post & H). destruct pre as [|c' pre].
      * left. now exists post.
      * right. injection H as -> ->. now exists pre, post.
Qed.

(** The test the filter runs is containment up to letter case. *)
Lemma includes_ci (E : engine) (s q : string) :
  includes (String_toLowerCase E s) (String_toLowerCase E q) = true
  <-> contains_ci E s q.
Proof. apply includes_spec. Qed.

(** What a conforming engine does with the empty text and with the names of
    the severity filters. *)
Lemma conforming_empty (E : engine) :
  conforming E ->
  String_toLowerCase E EmptyString = EmptyString /\
  String_trim E EmptyString = EmptyString.
Proof. intros H. exact (H EmptyString eq_refl). Qed.

Lemma conforming_option (E : engine) (sev : string) :
  conforming E -> In sev History.severity_options ->
  String_toLowerCase E sev = sev.
Proof.
  intros H. simpl.
  intros [<-|[<-|[<-|[<-|[]]]]];
    match goal with
    | |- String_toLowerCase E ?s = _ => exact (proj1 (H s eq_refl))
    end.
Qed.

(** ** The display helpers follow their chains and never throw *)

Lemma getCattleName_chain (E : engine) (item : value) :
  History.getCattleName E item = Normal (display_name E item).
Proof.
  unfold History.getCattleName, display_name, field, first_truthy, synthesized,
    is_object, is_number.
  destruct item as [| |b|q|s|xs|fs]; try reflexivity.
  - destruct b; reflexivity.
  - simpl. destruct (Qis_zero q); reflexivity.
  - simpl. destruct (s =? EmptyString); reflexivity.
  - cbn [truthy negb get bind].
    destruct (assoc "cattle" fs) as [| |b|q|s|xs|gs] eqn:Hc;
      cbn [truthy typeof andb String.eqb Ascii.eqb Bool.eqb get bind filter negb];
      unfold or_else; split_ifs; try reflexivity;
      simpl in *; rewrite ?andb_false_r in *; congruence.
Qed.

Lemma get_opt_field (v : value) (k : string) : get_opt v k = Normal (field v k).
Proof. destruct v; reflexivity. Qed.

Lemma truthy_not_nullish (v : value) : truthy v = true -> nullish v = false.
Proof. destruct v; simpl; try discriminate; reflexivity. Qed.

Lemma disease_of_truthy (x : value) : truthy x = true -> truthy (disease_of x) = true.
Proof.
  intros H. unfold disease_of, or_else.
  destruct (truthy (field x "disease")) eqn:Hd; assumption.
Qed.

Lemma disease_or_self_eq (x : value) :
  truthy x = true -> History.disease_or_self x = Normal (disease_of x).
Proof.
  intros H. unfold History.disease_or_self.
  rewrite get_field by now apply truthy_not_nullish. reflexivity.
Qed.

Lemma guarded_disease_eq (x : value) :
  History.guarded_disease x = Normal (if truthy x then disease_of x else x).
Proof.
  unfold History.guarded_disease. destruct (truthy x) eqn:H.
  - now apply disease_or_self_eq.
  - reflexivity.
Qed.

Lemma first_of_falsy (p : value) : truthy p = false -> truthy (first_of p) = false.
Proof.
  destruct p as [| |b|q|s|xs|fs]; simpl; try reflexivity; try discriminate.
  destruct s; [reflexivity | discriminate].
Qed.

Lemma get_index_first (p : value) :
  truthy p = true -> get_index p 0 = Normal (first_of p).
Proof.
  intros H. unfold first_of.
  destruct p; simpl in *; try discriminate; reflexivity.
Qed.

Lemma or_else_truthy (a b : value) : truthy a = true -> a ||| b = a.
Proof. unfold or_else. now intros ->. Qed.

Lemma or_else_falsy (a b : value) : truthy a = false -> a ||| b = b.
Proof. unfold or_else. now intros ->. Qed.

Lemma getTopDisease_object (fs : list (string * value)) :
  History.getTopDisease (VObj fs) = Normal (display_disease (VObj fs)).
Proof.
  unfold History.getTopDisease, display_disease, processed_override.
  cbn [truthy negb get bind].
  rewrite get_opt_field. cbn [bind].
  change (assoc "_ml" fs) with (field (VObj fs) "_ml").
  change (assoc "top_processed" fs) with (field (VObj fs) "top_processed").
  change (assoc "top_prediction" fs) with (field (VObj fs) "top_prediction").
  change (assoc "predictions" fs) with (field (VObj fs) "predictions").
  set (ov := field (field (VObj fs) "_ml") "top_processed" ||| field (VObj fs) "top_processed").
  set (tp := field (VObj fs) "top_prediction").
  set (p := field (VObj fs) "predictions").
  rewrite guarded_disease_eq. cbn [bind filter].
  destruct (truthy ov) eqn:Hov.
  - rewrite (disease_of_truthy _ Hov). now apply disease_or_self_eq.
  - rewrite Hov.
    destruct (truthy tp) eqn:Htp.
    + destruct (truthy p) eqn:Hp.
      * rewrite get_index_first by assumption. cbn [bind].
        rewrite (or_else_truthy tp _ Htp).
        rewrite guarded_disease_eq, Htp. cbn [bind].
        rewrite (disease_of_truthy _ Htp). now apply disease_or_self_eq.
      * cbn [bind]. rewrite (or_else_truthy tp _ Htp).
        rewrite guarded_disease_eq, Htp. cbn [bind].
        rewrite (disease_of_truthy _ Htp). now apply disease_or_self_eq.
    + destruct (truthy p) eqn:Hp.
      * rewrite get_index_first by assumption. cbn [bind].
        rewrite (or_else_falsy tp _ Htp).
        rewrite guarded_disease_eq. cbn [bind].
        destruct (truthy (first_of p)) eqn:Hf.
        -- rewrite (disease_of_truthy _ Hf). now apply disease_or_self_eq.
        -- rewrite Hf. reflexivity.
      * cbn [bind]. rewrite (or_else_falsy tp _ Htp).
        rewrite guarded_disease_eq, Hp. cbn [bind]. rewrite Hp.
        now rewrite (first_of_falsy _ Hp).
Qed.

Lemma getTopDisease_chain (item : value) :
  History.getTopDisease item = Normal (display_disease item).
Proof.
  destruct item as [| |b|q|s|xs|fs]; try reflexivity.
  - destruct b; reflexivity.
  - unfold History.getTopDisease. simpl. destruct (Qis_zero q); reflexivity.
  - unfold History.getTopDisease. simpl. destruct (s =? EmptyString); reflexivity.
  - apply getTopDisease_object.
Qed.

(** ** The filter *)

Lemma filter_m_total (f : value -> completion bool) (g : value -> bool)
      (l : list value) :
  (forall x, In x l -> f x = Normal (g x)) ->
  filter_m f l = Normal (filter g l).
Proof.
  induction l as [|x l IH]; intros H; simpl.
  - reflexivity.
  - rewrite (H x (or_introl eq_refl)). simpl.
    rewrite IH by (intros; apply H; now right). reflexivity.
Qed.

(** On a presentable record the callback of the filter returns. *)
Lemma keep_returns (E : engine) (search sev : string) (item : value) :
  presentable E item ->
  History.keep E search sev item
  = Normal (let q := String_toLowerCase E (String_trim E search) in
            ((q =? EmptyString)
             || includes (String_toLowerCase E (text (display_name E item))) q
             || includes (String_toLowerCase E
                            (text (display_disease item ||| VStr EmptyString))) q)
            && (if sev =? "all" then true
                else String_toLowerCase E
                       (text (field item "severity" ||| VStr EmptyString)) =? sev)).
Proof.
  intros (Hnn & [n Hn] & [d Hd] & [sv Hsv]).
  unfold History.keep, History.matchesSeverity.
  rewrite getCattleName_chain, getTopDisease_chain. cbn [bind].
  rewrite Hn, Hd, Hsv. cbn [toLowerCase bind text].
  destruct (sev =? "all") eqn:Hall.
  - reflexivity.
  - rewrite get_field by assumption. cbn [bind]. rewrite Hsv. reflexivity.
Qed.

(** It returns [true] exactly on the records that match. *)
Lemma keep_matches (E : engine) (search sev : string) (item : value) :
  conforming E ->
  In sev History.severity_options ->
  presentable E item ->
  exists b, History.keep E search sev item = Normal b /\
            (b = true <-> matches E search sev item).
Proof.
  intros HE Hsev Hp. rewrite (keep_returns E search sev item Hp).
  eexists; split; [reflexivity|]. cbv zeta.
  unfold matches, query_matches, severity_matches, equal_ci.
  rewrite andb_true_iff, !orb_true_iff, !includes_ci, String.eqb_eq.
  rewrite (conforming_option E sev HE Hsev).
  set (q := String_trim E search).
  assert (Hq : String_toLowerCase E q = EmptyString \/
               contains_ci E (text (display_name E item)) q \/
               contains_ci E (text (display_disease item ||| VStr EmptyString)) q
               <->
               q = EmptyString \/
               contains_ci E (text (display_name E item)) q \/
               contains_ci E (text (display_disease item ||| VStr EmptyString)) q).
  { split; (intros [H|H]; [|now right]).
    - right; left. exists EmptyString, (String_toLowerCase E (text (display_name E item))).
      now rewrite H.
    - left. rewrite H. apply (conforming_empty E HE). }
  destruct (sev =? "all") eqn:Hall.
  - apply String.eqb_eq in Hall. tauto.
  - apply String.eqb_neq in Hall. rewrite String.eqb_eq. tauto.
Qed.

(** On presentable records the filter returns, and it selects, in their order,
    the records its callback keeps. *)
Lemma filtered_total (E : engine) (items : list value) (search sev : string) :
  In sev History.severity_options ->
  Forall (presentable E) items ->
  History.filtered E items search sev = Normal (filter (keeps E search sev) items).
Proof.
  intros Hsev Hp. rewrite Forall_forall in Hp.
  apply filter_m_total. intros x Hx. unfold keeps.
  now rewrite (keep_returns E search sev x (Hp x Hx)).
Qed.

(** C2, as the specification words it, fails: a record that refers to its
    animal by number and carries the flat field [cattle_name] is displayed
    under that name, not as "Cattle #7", so the query "cattle" does not
    select it. *)
Lemma C2_flat_name_counterexample :
  ~ spec_filtered Reference.engine [Sample.renamed] "cattle" "all".
Proof.
  intros H.
  assert (Hout : History.filtered Reference.engine [Sample.renamed] "cattle" "all"
                 = Normal []) by (vm_compute; reflexivity).
  apply (proj2 (H [] Hout Sample.renamed)).
  split; [now left|]. split.
  - right. left. exists EmptyString, " #7". reflexivity.
  - now left.
Qed.

(** C2, amended. For every collection of presentable records (entries that
    are not null and whose display name, display disease and severity are
    strings), every query string and every severity filter among all, low,
    medium and high: the filter returns, and a record is in the filtered set if
    and only if it is in the collection, the trimmed query is empty or is
    contained up to letter case in the display name or in the display disease,
    and the filter is "all" or equals the severity of the record up to letter
    case. The case mapping and the trimming are those of the engine, whatever
    the characters; all that is assumed of them is what they do on the text
    of the ASCII range. The display name is what [getCattleName] returns:
    with a nested cattle object, its name, then its tag number, else
    "Unknown"; without one, the flat [cattle_name] of the record, then a
    synthesized "Cattle #id" for a numeric reference, else "Unknown". The
    display disease is what [getTopDisease] returns: the disease of the
    processed override, then of [top_prediction], then of the first element
    of the prediction list, else "No prediction". In particular the query
    "bossy" selects a record whose cattle name is "Bossy". *)
Theorem C2_filtered_matches (E : engine) (items : list value)
        (search sev : string) :
  conforming E ->
  In sev History.severity_options ->
  Forall (presentable E) items ->
  (exists out,
      History.filtered E items search sev = Normal out /\
      forall r, In r out <-> In r items /\ matches E search sev r) /\
  (forall item, History.getCattleName E item = Normal (display_name E item)) /\
  (forall item, History.getTopDisease item = Normal (display_disease item)) /\
  (forall fs gs,
      assoc "cattle" fs = VObj gs -> assoc "name" gs = VStr "Bossy" ->
      presentable E (VObj fs) ->
      History.filtered E [VObj fs] "bossy" "all" = Normal [VObj fs]).
Proof.
  intros HE Hsev Hp. split; [|split; [|split]].
  - exists (filter (keeps E search sev) items).
    split; [now apply filtered_total|].
    intros r. rewrite filter_In. rewrite Forall_forall in Hp.
    split.
    + intros [Hin Hk]. split; [assumption|]. unfold keeps in Hk.
      destruct (keep_matches E search sev r HE Hsev (Hp r Hin)) as (b & Hb & Hiff).
      rewrite Hb in Hk. now apply Hiff.
    + intros [Hin Hm]. split; [assumption|]. unfold keeps.
      destruct (keep_matches E search sev r HE Hsev (Hp r Hin)) as (b & -> & Hiff).
      now apply Hiff.
  - apply getCattleName_chain.
  - apply getTopDisease_chain.
  - intros fs gs Hc Hn Hpres.
    rewrite filtered_total; [|simpl; tauto|constructor; [exact Hpres|constructor]].
    simpl. unfold keeps.
    destruct (keep_matches E "bossy" "all" (VObj fs) HE ltac:(simpl; tauto) Hpres)
      as (b & -> & Hiff).
    assert (Hb : b = true).
    { apply Hiff. split; [|now left].
      right. left. unfold display_name, field. simpl. rewrite Hc. simpl.
      rewrite Hn. simpl.
      exists EmptyString, EmptyString. unfold text.
      rewrite (proj2 (HE "bossy" eq_refl)).
      rewrite (proj1 (HE "Bossy" eq_refl)).
      change (Reference.trim "bossy") with "bossy".
      rewrite (proj1 (HE "bossy" eq_refl)). reflexivity. }
    now rewrite Hb.
Qed.

Lemma C2_filtered_matches_witness :
  conforming Reference.engine /\
  History.filtered Reference.engine Sample.scenario " BOSSY " "high"
  = Normal [Sample.high_record] /\
  In Sample.high_record Sample.scenario /\
  matches Reference.engine " BOSSY " "high" Sample.high_record.
Proof.
  assert (HE : conforming Reference.engine) by (intros s _; split; reflexivity).
  assert (Hs : In "high" History.severity_options) by (simpl; tauto).
  assert (Hp : Forall (presentable Reference.engine) Sample.scenario).
  { repeat constructor; eexists; reflexivity. }
  destruct (C2_filtered_matches Reference.engine Sample.scenario " BOSSY " "high"
              HE Hs Hp)
    as ((out & Hout & Hiff) & _).
  assert (Hc : History.filtered Reference.engine Sample.scenario " BOSSY " "high"
               = Normal [Sample.high_record]) by (vm_compute; reflexivity).
  split; [exact HE|]. split; [exact Hc|].
  apply Hiff. rewrite Hc in Hout. injection Hout as <-. now left.
Defined.

(** ** Export *)



Lemma reviewer_eq (rb : value) :
  (if truthy rb then field rb "username" else rb) ||| rb = field rb "username" ||| rb.
Proof.
  destruct (truthy rb) eqn:H; [reflexivity|].
  rewrite (or_else_falsy rb rb H).
  destruct rb as [| |b|q|s|xs|fs]; simpl in H; try discriminate; reflexivity.
Qed.

(** The percentage the code computes is the whole number nearest to a hundred
    times the number. *)
Lemma percent_text_eq (E : engine) (n : number) :
  number_toString E (Math_round (num_mul E n (Fin 100))) ++ "%" = percent_text E n.
Proof.
  destruct n as [|[|]|q]; try reflexivity.
  cbn [num_mul percent_text].
  destruct (Number_value E (q * 100)) as [|[|]|p]; reflexivity.
Qed.

(** The row the export builds for a record, as an object. *)
Lemma export_row_fields (E : engine) (d : value) :
  nullish d = false ->
  History.export_row E d = Normal (VObj (combine csv_header (row_fields E d))).
Proof.
  intros Hd. unfold History.export_row.
  repeat first [ rewrite (get_field d) by assumption
               | rewrite getCattleName_chain
               | rewrite getTopDisease_chain
               | rewrite get_opt_field
               | progress cbn [bind] ].
  rewrite percent_text_eq.
  destruct (truthy (field d "reviewed_by")) eqn:Hrb.
  - rewrite get_field by now apply truthy_not_nullish.
    reflexivity.
  - cbn [bind]. unfold row_fields, csv_header, combine.
    rewrite <- (reviewer_eq (field d "reviewed_by")), Hrb. reflexivity.
Qed.



(** *** Reading a line of quoted fields *)











Lemma C1_sorted_stable_witness :
  let out := [Sample.high_record; Sample.low_record] in
  History.sorted Reference.engine [Sample.low_record; Sample.high_record]
                 "confidence_desc" = Normal out /\
  Permutation [Sample.low_record; Sample.high_record] out /\
  (forall i x y,
      nth_error out i = Some x -> nth_error out (S i) = Some y ->
      forall kx ky,
        key_of Reference.engine "confidence_desc" x = Fin kx ->
        key_of Reference.engine "confidence_desc" y = Fin ky ->
        in_order "confidence_desc" kx ky) /\
  (forall k,
      of_key Reference.engine "confidence_desc" k out
      = of_key Reference.engine "confidence_desc" k
               [Sample.low_record; Sample.high_record]).
Proof.
  assert (Hk : In "confidence_desc" History.sort_options) by (simpl; tauto).
  assert (Hl : Forall (orderable Reference.engine "confidence_desc")
                      [Sample.low_record; Sample.high_record]).
  { repeat constructor; eexists; vm_compute; reflexivity. }
  destruct (C1_sorted_stable Reference.engine
              [Sample.low_record; Sample.high_record] "confidence_desc" Hk Hl)
    as (out & Hout & Hperm & _ & Hadj & Hstable & _).
  assert (Heq : out = [Sample.high_record; Sample.low_record]).
  { assert (Hrun : History.sorted Reference.engine
                     [Sample.low_record; Sample.high_record] "confidence_desc"
                   = Normal [Sample.high_record; Sample.low_record])
      by (vm_compute; reflexivity).
    rewrite Hrun in Hout. now injection Hout as <-. }
  subst out. cbv zeta.
  split; [exact Hout|]. split; [exact Hperm|]. split.
  - intros i x y Hx Hy. exact (proj2 (Hadj i x y Hx Hy)).
  - exact Hstable.
Defined.

(** ** The scenario of the specification *)

(** Two diagnoses, of high severity and confidence 0.9 and of low severity and
    confidence 0.4, filter "all", sorted by decreasing confidence: the record
    of high severity is shown first, in whichever order they were loaded. *)
Example scenario_confidence_desc :
  History.render_visible Reference.engine Sample.loaded
  = Normal [Sample.high_record; Sample.low_record] /\
  History.sorted Reference.engine [Sample.low_record; Sample.high_record]
                 "confidence_desc"
  = Normal [Sample.high_record; Sample.low_record].
Proof. split; vm_compute; reflexivity. Qed.

(** ** A view on well-formed data always renders *)

Lemma Forall_filter_keep {A} (P : A -> Prop) (f : A -> bool) (l : list A) :
  Forall P l -> Forall P (filter f l).
Proof.
  rewrite !Forall_forall. intros H x Hx. apply filter_In in Hx. now apply H.
Qed.

(** On a well-formed collection neither the filter nor the sort throws: the
    render yields the stable arrangement of the records kept. *)
Lemma render_sorted_total (E : engine) (st : History.state) :
  In (History.st_severityFilter st) History.severity_options ->
  In (History.st_sortBy st) History.sort_options ->
  well_formed E (History.st_list st) ->
  History.render_sorted E st
  = Normal (arrange (rank E (History.st_sortBy st))
                    (filter (keeps E (History.st_search st)
                                   (History.st_severityFilter st))
                            (History.st_list st))).
Proof.
  intros Hsev Hsort Hwf. unfold History.render_sorted, well_formed in *.
  rewrite filtered_total; [|assumption|].
  - cbn [bind]. apply sorted_arrange; [assumption|].
    apply Forall_filter_keep.
    eapply Forall_impl; [|exact Hwf]. intros x [_ Hx]. now apply Hx.
  - eapply Forall_impl; [|exact Hwf]. now intros x [Hx _].
Qed.

(* ================================================================== *)
(** * Further properties of the diagnosis list                          *)
(* ================================================================== *)

(** ** Filtering twice *)

Lemma filter_m_idem (f : value -> completion bool) (l out : list value) :
  filter_m f l = Normal out -> filter_m f out = Normal out.
Proof.
  revert out. induction l as [|x l IH]; intros out; simpl.
  - now intros [= <-].
  - destruct (f x) as [b|e] eqn:Hx; simpl; [|discriminate].
    destruct (filter_m f l) as [r|e]; simpl; [|discriminate].
    intros [= <-]. specialize (IH r eq_refl).
    destruct b; [|exact IH].
    simpl. now rewrite Hx, IH.
Qed.

Lemma filter_m_selects (f : value -> completion bool) (l out : list value) :
  filter_m f l = Normal out ->
  out = filter (fun x => match f x with Normal b => b | Throw _ => false end) l.
Proof.
  revert out. induction l as [|x l IH]; intros out; simpl.
  - now intros [= <-].
  - destruct (f x) as [b|e]; simpl; [|discriminate].
    destruct (filter_m f l) as [r|e]; simpl; [|discriminate].
    intros [= <-]. rewrite <- (IH r eq_refl). reflexivity.
Qed.

(** X1. Whatever the records, a filter that returns has selected records of
    the collection, in their order, without adding any; and filtering its
    result again with the same query and severity returns the same list. *)
Theorem X1_filter_idempotent (E : engine) (items out : list value)
        (search sev : string) :
  History.filtered E items search sev = Normal out ->
  History.filtered E out search sev = Normal out /\
  out = filter (keeps E search sev) items /\
  (forall r, In r out -> In r items) /\
  (List.length out <= List.length items)%nat.
Proof.
  intros H. unfold History.filtered in *.
  pose proof (filter_m_selects _ _ _ H) as Hsel.
  split; [now apply filter_m_idem with (l := items)|].
  split; [exact Hsel|]. split.
  - intros r Hr. rewrite Hsel in Hr. now apply filter_In in Hr.
  - rewrite Hsel. apply filter_length_le.
Qed.

Lemma X1_filter_idempotent_witness :
  History.filtered Reference.engine Sample.scenario "mast" "all"
  = Normal [Sample.low_record] /\
  History.filtered Reference.engine [Sample.low_record] "mast" "all"
  = Normal [Sample.low_record].
Proof.
  assert (H : History.filtered Reference.engine Sample.scenario "mast" "all"
              = Normal [Sample.low_record]) by (vm_compute; reflexivity).
  split; [exact H|].
  exact (proj1 (X1_filter_idempotent Reference.engine Sample.scenario
                  [Sample.low_record] "mast" "all" H)).
Defined.

(** ** Sorting again, and sorting before or after filtering *)

Section ArrangeAgain.
Variable rk : value -> Q.

Lemma rank_le_trans (x y z : value) :
  rank_le rk x y -> rank_le rk y z -> rank_le rk x z.
Proof. unfold rank_le. apply Qle_trans. Qed.

Lemma not_after (x y : value) : rank_le rk x y -> after rk x y = false.
Proof.
  unfold rank_le, after. intros H. apply negb_false_iff. now apply Qle_bool_iff.
Qed.

Lemma place_first (x : value) (l : list value) :
  HdRel (rank_le rk) x l -> place rk x l = x :: l.
Proof.
  intros H. destruct l as [|y l]; [reflexivity|].
  simpl. inversion H as [|? ? Hxy]; subst. now rewrite (not_after _ _ Hxy).
Qed.

(** A list already in order is left as it is. *)
Lemma arrange_fixed (l : list value) :
  Sorted (rank_le rk) l -> arrange rk l = l.
Proof.
  induction 1 as [|x l Hs IH Hhd]; simpl.
  - reflexivity.
  - rewrite IH. now apply place_first.
Qed.

Lemma strongly_sorted (l : list value) :
  Sorted (rank_le rk) l -> StronglySorted (rank_le rk) l.
Proof.
  apply Sorted_StronglySorted. intros x y z. apply rank_le_trans.
Qed.

Lemma filter_place (f : value -> bool) (x : value) (l : list value) :
  StronglySorted (rank_le rk) l ->
  filter f (place rk x l)
  = if f x then place rk x (filter f l) else filter f l.
Proof.
  induction l as [|y l IH]; intros Hs.
  - simpl. destruct (f x); reflexivity.
  - apply StronglySorted_inv in Hs as [Hs Hall].
    cbn [place]. destruct (after rk x y) eqn:Hxy.
    + cbn [filter]. rewrite (IH Hs).
      destruct (f x), (f y); try reflexivity.
      cbn [place]. now rewrite Hxy.
    + cbn [filter]. destruct (f x); [|reflexivity].
      symmetry. apply place_first.
      assert (Hxy' : rank_le rk x y) by now apply after_false.
      destruct (f y).
      * now constructor.
      * rewrite Forall_forall in Hall.
        destruct (filter f l) as [|z r] eqn:Hf; constructor.
        assert (Hz : In z l).
        { apply (proj1 (filter_In f z l)). rewrite Hf. now left. }
        eapply rank_le_trans; [exact Hxy' | now apply Hall].
Qed.

(** Selecting records and arranging them can be done in either order. *)
Lemma filter_arrange (f : value -> bool) (l : list value) :
  filter f (arrange rk l) = arrange rk (filter f l).
Proof.
  induction l as [|x l IH]; [reflexivity|].
  cbn [arrange filter].
  rewrite filter_place by apply strongly_sorted, arrange_sorted.
  rewrite IH. destruct (f x); reflexivity.
Qed.

End ArrangeAgain.

Lemma sortable_perm (E : engine) (sortBy : string) (l l' : list value) :
  Permutation l l' -> Forall (sortable E sortBy) l -> Forall (sortable E sortBy) l'.
Proof.
  intros Hp. rewrite !Forall_forall. intros H x Hx. apply H.
  eapply Permutation_in; [apply Permutation_sym, Hp | exact Hx].
Qed.

(** X2. Sorting a list that is already sorted by the same key returns it
    unchanged: for records the key can order, the sort is idempotent. *)
Theorem X2_sort_idempotent (E : engine) (l out : list value) (sortBy : string) :
  In sortBy History.sort_options ->
  Forall (sortable E sortBy) l ->
  History.sorted E l sortBy = Normal out ->
  History.sorted E out sortBy = Normal out.
Proof.
  intros Hin Hl Hout.
  rewrite sorted_arrange in Hout by assumption. injection Hout as <-.
  rewrite sorted_arrange; [|assumption|].
  - f_equal. apply arrange_fixed, arrange_sorted.
  - eapply sortable_perm; [apply arrange_perm | exact Hl].
Qed.

Lemma X2_sort_idempotent_witness :
  History.sorted Reference.engine [Sample.high_record; Sample.low_record] "oldest"
  = Normal [Sample.low_record; Sample.high_record] /\
  History.sorted Reference.engine [Sample.low_record; Sample.high_record] "oldest"
  = Normal [Sample.low_record; Sample.high_record].
Proof.
  assert (H : History.sorted Reference.engine
                [Sample.high_record; Sample.low_record] "oldest"
              = Normal [Sample.low_record; Sample.high_record])
    by (vm_compute; reflexivity).
  split; [exact H|].
  refine (X2_sort_idempotent Reference.engine
            [Sample.high_record; Sample.low_record]
            [Sample.low_record; Sample.high_record] "oldest" _ _ H).
  - simpl. tauto.
  - repeat constructor; eexists; vm_compute; reflexivity.
Defined.

(** X3. On a well-formed collection, the set the view shows (filtered, then
    sorted) is the fully sorted collection put through the same filter:
    narrowing the search or the severity filter removes records and never
    changes the relative order of those that remain. *)
Theorem X3_filter_keeps_sorted_order (E : engine) (items : list value)
        (search sev sortBy : string) :
  In sev History.severity_options ->
  In sortBy History.sort_options ->
  well_formed E items ->
  exists all shown,
    History.sorted E items sortBy = Normal all /\
    (f <- History.filtered E items search sev ;; History.sorted E f sortBy)
    = Normal shown /\
    History.filtered E all search sev = Normal shown.
Proof.
  intros Hsev Hsort Hwf. unfold well_formed in Hwf.
  assert (Hp : Forall (presentable E) items)
    by (eapply Forall_impl; [|exact Hwf]; now intros x [Hx _]).
  assert (Hs : Forall (sortable E sortBy) items)
    by (eapply Forall_impl; [|exact Hwf]; intros x [_ Hx]; now apply Hx).
  exists (arrange (rank E sortBy) items),
         (arrange (rank E sortBy) (filter (keeps E search sev) items)).
  split; [now apply sorted_arrange|]. split.
  - rewrite filtered_total by assumption. cbn [bind].
    apply sorted_arrange; [assumption|]. now apply Forall_filter_keep.
  - rewrite filtered_total; [|assumption|].
    + f_equal. apply filter_arrange.
    + rewrite Forall_forall in *. intros x Hx. apply Hp.
      eapply Permutation_in; [apply Permutation_sym, arrange_perm | exact Hx].
Qed.

Lemma X3_filter_keeps_sorted_order_witness :
  exists all shown,
    History.sorted Reference.engine Sample.scenario "oldest" = Normal all /\
    (f <- History.filtered Reference.engine Sample.scenario "o" "all" ;;
     History.sorted Reference.engine f "oldest") = Normal shown /\
    History.filtered Reference.engine all "o" "all" = Normal shown.
Proof.
  apply (X3_filter_keeps_sorted_order Reference.engine Sample.scenario
           "o" "all" "oldest").
  - simpl. tauto.
  - simpl. tauto.
  - repeat constructor; try (eexists; reflexivity).
    all: intros k Hk; simpl in Hk;
      destruct Hk as [<-|[<-|[<-|[<-|[]]]]]; eexists; vm_compute; reflexivity.
Defined.

(** ** A null entry in the collection *)

Lemma filter_m_throws (f : value -> completion bool) (l : list value) (x : value) :
  In x l -> f x = Throw TypeError -> filter_m f l = Throw TypeError.
Proof.
  induction l as [|y l IH]; intros Hin Hx; [contradiction|].
  simpl. destruct (f y) as [b|[]] eqn:Hy; [|reflexivity].
  simpl. destruct Hin as [->|Hin]; [congruence|].
  now rewrite (IH Hin Hx).
Qed.

Lemma map_m_throws {A B} (f : A -> completion B) (l : list A) (x : A) :
  In x l -> f x = Throw TypeError -> map_m f l = Throw TypeError.
Proof.
  induction l as [|y l IH]; intros Hin Hx; [contradiction|].
  simpl. destruct (f y) as [b|[]] eqn:Hy; [|reflexivity].
  simpl. destruct Hin as [->|Hin]; [congruence|].
  now rewrite (IH Hin Hx).
Qed.

(** X4. An entry of the collection that is [null] is shown as "Unknown" with
    "No prediction" and is kept by the filter "all" when the query is empty
    (trimming and lower-casing leave the empty text empty); with any other
    severity filter the filter reads its severity and throws, whatever the
    other records are. *)
Theorem X4_null_entry_and_severity_filter (E : engine) (items : list value)
        (item : value) (search sev : string) :
  In item items ->
  nullish item = true ->
  History.getCattleName E item = Normal (VStr "Unknown") /\
  History.getTopDisease item = Normal (VStr "No prediction") /\
  (conforming E -> History.keep E EmptyString "all" item = Normal true) /\
  (sev <> "all" -> History.filtered E items search sev = Throw TypeError).
Proof.
  intros Hin Hn.
  destruct (nullish_cases item Hn) as [-> | ->];
    (split; [reflexivity|]; split; [reflexivity|]; split;
     [intros HE; destruct (conforming_empty E HE) as [Hl Ht];
      unfold History.keep; cbn; now rewrite Ht, Hl|]);
    intros Hsev; apply String.eqb_neq in Hsev;
    (eapply filter_m_throws; [exact Hin|]);
    unfold History.keep, History.matchesSeverity; cbn; rewrite Hsev; reflexivity.
Qed.

Lemma X4_null_entry_and_severity_filter_witness :
  History.filtered Reference.engine [Sample.high_record; VNull] EmptyString "high"
  = Throw TypeError /\
  History.keep Reference.engine EmptyString "all" VNull = Normal true.
Proof.
  destruct (X4_null_entry_and_severity_filter Reference.engine
              [Sample.high_record; VNull] VNull EmptyString "high")
    as (_ & _ & Hkeep & Hthrow).
  - simpl. tauto.
  - reflexivity.
  - split.
    + apply Hthrow. discriminate.
    + apply Hkeep. intros s _. split; reflexivity.
Defined.

(** The comparators throw on a [null] or [undefined] argument. *)
Lemma comparator_throws (E : engine) (sortBy : string) (x y : value) :
  In sortBy History.sort_options ->
  nullish x = true \/ nullish y = true ->
  comparator E sortBy x y = Throw TypeError.
Proof.
  intros Hin Hxy.
  assert (Hk : forall v, nullish v = true ->
                 History.created_time E v = Throw TypeError /\
                 History.confidence_num E v = Throw TypeError).
  { intros v Hv. destruct (nullish_cases v Hv) as [-> | ->]; split; reflexivity. }
  simpl in Hin. destruct Hin as [<-|[<-|[<-|[<-|[]]]]];
    cbn [comparator String.eqb Ascii.eqb Bool.eqb];
    unfold History.by_newest, History.by_oldest, History.by_confidence_desc,
      History.by_confidence_asc.
  all: destruct Hxy as [Hx|Hy];
    [ rewrite ?(proj1 (Hk x Hx)), ?(proj2 (Hk x Hx))
    | rewrite ?(proj1 (Hk y Hy)), ?(proj2 (Hk y Hy)) ];
    cbn [bind]; try reflexivity.
  all: match goal with
       | |- bind ?c _ = _ => destruct c as [?|[]]; reflexivity
       end.
Qed.

Section SortThrows.
Variable comparefn : value -> value -> completion number.
Hypothesis comparefn_throws :
  forall x y, nullish x = true \/ nullish y = true ->
              comparefn x y = Throw TypeError.

Lemma sort_defined_throws (l : list value) :
  (2 <= List.length l)%nat ->
  (exists z, In z l /\ nullish z = true) ->
  sort_defined comparefn l = Throw TypeError.
Proof.
  induction l as [|a l IH]; intros Hlen (z & Hz & Hn); [contradiction|].
  simpl. destruct (sort_defined comparefn l) as [s|[]] eqn:Hs; [|reflexivity].
  simpl.
  assert (Hperm : Permutation l s) by now apply sort_defined_perm with comparefn.
  destruct s as [|y s].
  { apply Permutation_length in Hperm. simpl in *. lia. }
  simpl.
  destruct (nullish a) eqn:Ha.
  { now rewrite comparefn_throws by now left. }
  destruct Hz as [->|Hz]; [congruence|].
  destruct l as [|b [|c l]].
  - contradiction.
  - destruct Hz as [->|[]].
    apply Permutation_length_1_inv in Hperm. injection Hperm as -> ->.
    now rewrite comparefn_throws by now right.
  - discriminate IH; [simpl; lia | now exists z].
Qed.

Lemma sort_throws (l : list value) :
  (2 <= List.length l)%nat ->
  Forall (fun v => is_undefined v = false) l ->
  In VNull l ->
  sort comparefn l = Throw TypeError.
Proof.
  intros Hlen Hdef Hnull. unfold sort.
  rewrite Forall_forall in Hdef.
  rewrite filter_all by (intros x Hx; now rewrite (Hdef x Hx)).
  rewrite sort_defined_throws; [reflexivity | assumption | now exists VNull].
Qed.

End SortThrows.

(** X5. With one of the four sort keys, sorting a collection of at least two
    entries, one of which is [null], throws: the comparator reads a property
    of every entry it compares. A single entry is returned without being
    compared. *)
Theorem X5_null_entry_breaks_sort (E : engine) (l : list value) (sortBy : string) :
  In sortBy History.sort_options ->
  (2 <= List.length l)%nat ->
  Forall (fun v => is_undefined v = false) l ->
  In VNull l ->
  History.sorted E l sortBy = Throw TypeError /\
  History.sorted E [VNull] sortBy = Normal [VNull].
Proof.
  intros Hin Hlen Hdef Hnull. split.
  - rewrite sorted_by_comparator by assumption.
    apply sort_throws; try assumption.
    intros x y. now apply comparator_throws.
  - rewrite sorted_by_comparator by assumption. reflexivity.
Qed.

Lemma X5_null_entry_breaks_sort_witness :
  History.sorted Reference.engine [Sample.high_record; VNull; Sample.low_record]
                 "newest" = Throw TypeError.
Proof.
  refine (proj1 (X5_null_entry_breaks_sort Reference.engine
                   [Sample.high_record; VNull; Sample.low_record] "newest"
                   _ _ _ _)).
  - simpl. tauto.
  - simpl. lia.
  - repeat constructor.
  - simpl. tauto.
Defined.

(** X6. The export of a set one entry of which is [null] throws while its
    rows are built: nothing is downloaded and no alert is shown. *)
Theorem X6_null_entry_breaks_export (E : engine) (s : list value) (d : value)
        (now_iso : string) :
  In d s ->
  nullish d = true ->
  History.exportCsv E s now_iso = Throw TypeError.
Proof.
  intros Hin Hn. unfold History.exportCsv.
  rewrite (map_m_throws (History.export_row E) s d Hin); [reflexivity|].
  destruct (nullish_cases d Hn) as [-> | ->]; reflexivity.
Qed.

Lemma X6_null_entry_breaks_export_witness :
  History.exportCsv Reference.engine [VNull] "2026-11-02T08:00:00.000Z"
  = Throw TypeError.
Proof.
  apply (X6_null_entry_breaks_export Reference.engine [VNull] VNull).
  - simpl. tauto.
  - reflexivity.
Defined.

(** ** Pages *)

Lemma visible_length (s : list value) (i p : nat) :
  List.length (History.visible s (Z.of_nat i) (Z.of_nat p))
  = Nat.min p (List.length s - i * p).
Proof.
  rewrite visible_window, length_firstn, length_skipn. reflexivity.
Qed.

(** The last page starts inside the collection. *)
Lemma last_page_starts_inside (n p : Z) :
  (0 < p)%Z -> (0 < n)%Z -> ((History.pageCount n p - 1) * p < n)%Z.
Proof.
  intros Hp Hn. unfold History.pageCount.
  pose proof (Math_ceil_div_bounds n p Hp) as Hb.
  destruct (Z.max_spec 1 (History.Math_ceil_div n p)) as [[_ ->]|[_ ->]]; lia.
Qed.

(** X7. On a page in range, for a page size of at least 1: the visible slice
    holds [min (p, n - page * p)] records, all of them records of the sorted
    set; every page but the last is full; and no page is empty unless the
    sorted set is. *)
Theorem X7_page_sizes (s : list value) (p page : Z) :
  (1 <= p)%Z ->
  (0 <= page < History.pageCount (Z.of_nat (List.length s)) p)%Z ->
  let n := Z.of_nat (List.length s) in
  let v := History.visible s page p in
  Z.of_nat (List.length v) = Z.min p (n - page * p) /\
  (page < History.pageCount n p - 1 -> Z.of_nat (List.length v) = p)%Z /\
  (s <> [] -> v <> []) /\
  (forall x, In x v -> In x s).
Proof.
  intros Hp Hpage n v.
  destruct (Z_of_nat_complete p ltac:(lia)) as [p' ->].
  destruct (Z_of_nat_complete page ltac:(lia)) as [i ->].
  assert (Hlen : Z.of_nat (List.length v)
                 = Z.min (Z.of_nat p') (n - Z.of_nat i * Z.of_nat p')).
  { unfold v. rewrite visible_length. unfold n.
    rewrite Nat2Z.inj_min, Nat2Z.inj_sub_max, Nat2Z.inj_mul.
    assert (Hin : (Z.of_nat i * Z.of_nat p' < Z.of_nat (List.length s)
                   \/ Z.of_nat i * Z.of_nat p' = 0)%Z).
    { destruct s as [|x s'].
      - right. simpl in Hpage.
        pose proof (Math_ceil_div_bounds 0 (Z.of_nat p') ltac:(lia)) as Hb.
        unfold History.pageCount in Hpage.
        assert (History.Math_ceil_div 0 (Z.of_nat p') = 0)%Z by nia.
        nia.
      - left.
        pose proof (last_page_starts_inside (Z.of_nat (List.length (x :: s')))
                      (Z.of_nat p') ltac:(lia) ltac:(simpl; lia)).
        nia. }
    lia. }
  assert (Hinside : (0 < n -> Z.of_nat i * Z.of_nat p' < n)%Z).
  { intros Hn. pose proof (last_page_starts_inside n (Z.of_nat p') ltac:(lia) Hn).
    fold n in Hpage. nia. }
  split; [exact Hlen|]. split; [|split].
  - intros Hlt. rewrite Hlen.
    pose proof (Math_ceil_div_bounds n (Z.of_nat p') ltac:(lia)) as Hb.
    unfold History.pageCount in Hlt.
    assert (Z.of_nat i < History.Math_ceil_div n (Z.of_nat p') - 1)%Z by lia.
    nia.
  - intros Hne Hv.
    assert (Hn : (0 < n)%Z) by (unfold n; destruct s; [congruence | simpl; lia]).
    specialize (Hinside Hn). rewrite Hv in Hlen. simpl in Hlen. lia.
  - intros x. unfold v, History.visible. apply In_slice.
Qed.

Lemma X7_page_sizes_witness :
  List.length (History.visible Sample.thirteen 2 6) = 1%nat.
Proof.
  destruct (X7_page_sizes Sample.thirteen 6 2) as (H & _).
  - lia.
  - vm_compute. split; [discriminate | reflexivity].
  - vm_compute in H. apply Nat2Z.inj. exact H.
Defined.

(** The page size of a run is always one the selector offers. *)
Lemma run_page_size (E : engine) (evs : list History.event)
      (st st' : History.state) :
  In (History.st_itemsPerPage st) History.page_size_options ->
  History.run E st evs st' ->
  In (History.st_itemsPerPage st') History.page_size_options.
Proof.
  intros H0 Hrun. induction Hrun as [st|st ev st1 evs st2 pc Hpc Hen Hstep Hrun IH].
  - exact H0.
  - apply IH. apply step_inv in Hstep as (pc1 & pc' & _ & _ & ->).
    cbn [History.set_page History.st_itemsPerPage].
    destruct ev as [res|v|v|v|v| | |p|now]; try exact H0.
    + destruct res; exact H0.
    + exact Hen.
Qed.

(** A page in range of a set that is not empty is not empty. *)
Lemma visible_nonempty (s : list value) (p page : Z) :
  (1 <= p)%Z ->
  (0 <= page < History.pageCount (Z.of_nat (List.length s)) p)%Z ->
  s <> [] -> History.visible s page p <> [].
Proof.
  intros Hp Hpage Hne Hv.
  destruct (Z_of_nat_complete p ltac:(lia)) as [p' ->].
  destruct (Z_of_nat_complete page ltac:(lia)) as [i ->].
  apply (f_equal (@List.length value)) in Hv.
  rewrite visible_length in Hv. simpl in Hv.
  assert (Hn : (0 < Z.of_nat (List.length s))%Z)
    by (destruct s; [congruence | simpl; lia]).
  pose proof (last_page_starts_inside _ (Z.of_nat p') ltac:(lia) Hn).
  nia.
Qed.

Lemma render_pageCount_inv (E : engine) (st : History.state) (pc : Z) :
  History.render_pageCount E st = Normal pc ->
  exists s, History.render_sorted E st = Normal s /\
            pc = History.pageCount (Z.of_nat (List.length s))
                                   (History.st_itemsPerPage st).
Proof.
  unfold History.render_pageCount.
  destruct (History.render_sorted E st) as [s|e]; simpl; [|discriminate].
  intros [= <-]. now exists s.
Qed.

Lemma page_size_positive (p : Z) : In p History.page_size_options -> (1 <= p)%Z.
Proof. simpl. lia. Qed.

(** The sorted set, the page size and the page of a reachable state. *)
Lemma reachable_view (E : engine) (evs : list History.event) (st : History.state) :
  History.run E History.initial evs st ->
  exists s,
    History.render_sorted E st = Normal s /\
    (1 <= History.st_itemsPerPage st)%Z /\
    (0 <= History.st_page st
     < History.pageCount (Z.of_nat (List.length s)) (History.st_itemsPerPage st))%Z.
Proof.
  intros Hrun.
  destruct (run_page_in_range E evs History.initial st 1%Z eq_refl
              ltac:(simpl; lia) Hrun) as (pc & Hpc & Hrange).
  apply render_pageCount_inv in Hpc as (s & Hs & ->).
  exists s. split; [exact Hs|]. split; [|exact Hrange].
  apply page_size_positive.
  apply (run_page_size E evs History.initial st); [simpl; tauto | exact Hrun].
Qed.

(** X9. In every state the view reaches, the counter "Showing a-b of n"
    reads 0-0 of 0 when the sorted set is empty; otherwise [a] is the position
    of the first visible record, [page * size + 1], [b] the position of the
    last one, [min (n, page * size + size)], with [a <= b <= n], and
    [b - a + 1] is the number of cards shown. *)
Theorem X9_showing_counter (E : engine) (evs : list History.event)
        (st : History.state) :
  History.run E History.initial evs st ->
  exists s a b,
    History.render_sorted E st = Normal s /\
    HistoryView.render_showing E st = Normal (a, b, Z.of_nat (List.length s)) /\
    (s = [] -> a = 0 /\ b = 0)%Z /\
    (s <> [] ->
     let page := History.st_page st in
     let size := History.st_itemsPerPage st in
     a = page * size + 1 /\
     b = Z.min (Z.of_nat (List.length s)) (page * size + size) /\
     a <= b <= Z.of_nat (List.length s) /\
     b - a + 1
     = Z.of_nat (List.length (History.visible s page size)))%Z.
Proof.
  intros Hrun.
  destruct (reachable_view E evs st Hrun) as (s & Hs & Hp & Hrange).
  set (page := History.st_page st) in *.
  set (size := History.st_itemsPerPage st) in *.
  set (n := Z.of_nat (List.length s)) in *.
  destruct (Z_of_nat_complete size ltac:(lia)) as [p' Hp'].
  destruct (Z_of_nat_complete page ltac:(lia)) as [i Hi].
  assert (Hlen : Z.of_nat (List.length (History.visible s page size))
                 = Z.of_nat (Nat.min p' (List.length s - i * p'))).
  { rewrite Hp', Hi. now rewrite visible_length. }
  exists s, (Z.min n (page * size + 1))%Z,
         (Z.min n (page * size
                   + Z.of_nat (List.length (History.visible s page size))))%Z.
  split; [exact Hs|]. split.
  { unfold HistoryView.render_showing. rewrite Hs. reflexivity. }
  split.
  - intros ->. unfold n. simpl. rewrite visible_nil. simpl.
    unfold n in Hrange. simpl in Hrange.
    pose proof (Math_ceil_div_bounds 0 size ltac:(lia)) as Hb.
    unfold History.pageCount in Hrange. split; lia.
  - intros Hne. cbv zeta.
    assert (Hn : (0 < n)%Z) by (unfold n; destruct s; [congruence | simpl; lia]).
    pose proof (last_page_starts_inside n size ltac:(lia) Hn) as Hlast.
    assert (Hstart : (page * size < n)%Z) by nia.
    rewrite Hlen. unfold n in *. nia.
Qed.

Lemma X9_showing_counter_witness :
  exists s a b,
    History.render_sorted Reference.engine Sample.crowded = Normal s /\
    HistoryView.render_showing Reference.engine Sample.crowded
    = Normal (a, b, Z.of_nat (List.length s)).
Proof.
  destruct (X9_showing_counter Reference.engine Sample.to_crowded
              Sample.crowded crowded_reachable) as (s & a & b & Hs & Hsh & _).
  exists s, a, b. split; assumption.
Defined.

(** ** The page buttons *)

Lemma firstn_seq_le (w a m : nat) : (w <= m)%nat -> firstn w (seq a m) = seq a w.
Proof.
  revert a m. induction w as [|w IH]; intros a m H; [reflexivity|].
  destruct m as [|m]; [lia|]. simpl. f_equal. apply IH. lia.
Qed.

(** The window of numbered buttons, as an interval. *)
Lemma page_buttons_interval (pc page : Z) :
  (1 <= pc)%Z -> (0 <= page < pc)%Z ->
  History.page_buttons pc page
  = map Z.of_nat (seq (Z.to_nat (Z.max 0 (page - 3)))
                      (Z.to_nat (Z.min pc (page + 4) - Z.max 0 (page - 3)))).
Proof.
  intros Hpc Hpage. unfold History.page_buttons.
  set (lo := Z.to_nat (Z.max 0 (page - 3))).
  set (w := Z.to_nat (Z.min pc (page + 4) - Z.max 0 (page - 3))).
  replace (Z.max 0 (page - 3)) with (Z.of_nat lo) by (unfold lo; lia).
  replace (Z.min pc (page + 4)) with (Z.of_nat lo + Z.of_nat w)%Z
    by (unfold lo, w; lia).
  rewrite slice_window, skipn_map, firstn_map, skipn_seq.
  f_equal. apply firstn_seq_le. unfold lo, w. lia.
Qed.

(** X10. On a page in range, the numbered buttons are exactly the pages at
    distance at most three from the current page, clipped to the range of
    pages, in increasing order: the current page is always among them and
    there are at most seven. *)
Theorem X10_page_buttons_window (pc page : Z) :
  (1 <= pc)%Z -> (0 <= page < pc)%Z ->
  (forall q, In q (History.page_buttons pc page)
             <-> (0 <= q < pc /\ page - 3 <= q <= page + 3)%Z) /\
  In page (History.page_buttons pc page) /\
  (1 <= List.length (History.page_buttons pc page) <= 7)%nat /\
  Sorted Z.lt (History.page_buttons pc page).
Proof.
  intros Hpc Hpage.
  rewrite page_buttons_interval by assumption.
  set (lo := Z.to_nat (Z.max 0 (page - 3))).
  set (w := Z.to_nat (Z.min pc (page + 4) - Z.max 0 (page - 3))).
  assert (Hin : forall q, In q (map Z.of_nat (seq lo w))
                          <-> (0 <= q < pc /\ page - 3 <= q <= page + 3)%Z).
  { intros q. rewrite in_map_iff. split.
    - intros (i & <- & Hi). apply in_seq in Hi. unfold lo, w in Hi. lia.
    - intros Hq. exists (Z.to_nat q). split; [lia|].
      apply in_seq. unfold lo, w. lia. }
  split; [exact Hin|]. split; [apply Hin; lia|]. split.
  - rewrite length_map, length_seq. unfold w. lia.
  - clear Hin. generalize lo. induction w as [|w IH]; intros a; simpl.
    + constructor.
    + constructor; [apply IH|].
      destruct w; simpl; constructor. lia.
Qed.

Lemma X10_page_buttons_window_witness :
  In 5%Z (History.page_buttons 20 5) /\
  (List.length (History.page_buttons 20 5) <= 7)%nat.
Proof.
  destruct (X10_page_buttons_window 20 5 ltac:(lia) ltac:(lia))
    as (_ & Hin & Hlen & _).
  split; [exact Hin | apply Hlen].
Defined.

(** ** Previous and next *)

Lemma step_to_page (E : engine) (st : History.state) (pc q : Z)
      (ev : History.event) :
  History.render_pageCount E st = Normal pc ->
  History.handler st pc ev = History.set_page st q ->
  (q < pc)%Z ->
  History.step E st ev = Normal (History.set_page st q).
Proof.
  intros Hpc Hh Hq. unfold History.step. rewrite Hpc. cbn [bind]. rewrite Hh.
  unfold History.settle. rewrite render_pageCount_set_page, Hpc. cbn [bind].
  cbn [History.set_page History.st_page]. now rewrite clamp_fixed.
Qed.

(** X11. From a page in range, a click on Next (enabled before the last page)
    moves to the following page and a click on Previous (enabled after the
    first page) to the preceding one, each changing nothing but the page;
    Next then Previous, and Previous then Next, come back to the same state.
    Fired on the last, resp. first page, the handlers leave the page where
    it is. *)
Theorem X11_previous_next_round_trip (E : engine) (st : History.state) (pc : Z) :
  History.render_pageCount E st = Normal pc ->
  (0 <= History.st_page st < pc)%Z ->
  let page := History.st_page st in
  (page < pc - 1 ->
   History.step E st History.NextClick = Normal (History.set_page st (page + 1)) /\
   History.step E (History.set_page st (page + 1)) History.PrevClick = Normal st)%Z /\
  (0 < page ->
   History.step E st History.PrevClick = Normal (History.set_page st (page - 1)) /\
   History.step E (History.set_page st (page - 1)) History.NextClick = Normal st)%Z /\
  (page = pc - 1 -> History.handler st pc History.NextClick = st)%Z /\
  (page = 0 -> History.handler st pc History.PrevClick = st)%Z.
Proof.
  intros Hpc Hrange page. fold page in Hrange.
  assert (Hback : forall q, History.set_page (History.set_page st q) page = st).
  { intros q. unfold page. now destruct st. }
  split; [|split; [|split]].
  - intros Hlt. split.
    + apply step_to_page with pc; [assumption| |lia].
      cbn [History.handler]. fold page. f_equal. lia.
    + rewrite <- (Hback (page + 1)%Z) at 2.
      apply step_to_page with pc;
        [now rewrite render_pageCount_set_page| |lia].
      cbn [History.handler History.set_page History.st_page]. f_equal. lia.
  - intros Hgt. split.
    + apply step_to_page with pc; [assumption| |lia].
      cbn [History.handler]. fold page. f_equal. lia.
    + rewrite <- (Hback (page - 1)%Z) at 2.
      apply step_to_page with pc;
        [now rewrite render_pageCount_set_page| |lia].
      cbn [History.handler History.set_page History.st_page]. f_equal. lia.
  - intros Hlast. cbn [History.handler]. fold page.
    replace (Z.min (pc - 1) (page + 1)) with page by lia. apply set_page_same.
  - intros Hfirst. cbn [History.handler]. fold page.
    replace (Z.max 0 (page - 1)) with page by lia. apply set_page_same.
Qed.

Lemma X11_previous_next_round_trip_witness :
  History.step Reference.engine Sample.crowded History.PrevClick
  = Normal (History.set_page Sample.crowded 1) /\
  History.step Reference.engine (History.set_page Sample.crowded 1) History.NextClick
  = Normal Sample.crowded.
Proof.
  assert (Hpc : History.render_pageCount Reference.engine Sample.crowded = Normal 3%Z)
    by (vm_compute; reflexivity).
  destruct (X11_previous_next_round_trip Reference.engine Sample.crowded 3 Hpc
              ltac:(simpl; lia)) as (_ & Hprev & _).
  apply Hprev. simpl. lia.
Defined.

(** ** Reading an exported line back *)



(** ** Cards *)

(** Reading the properties of a value that is not [null]. *)
Ltac read_fields item H :=
  repeat first [ rewrite (get_field item) by exact H
               | rewrite getCattleName_chain
               | rewrite getTopDisease_chain
               | rewrite get_opt_field
               | progress cbn [bind] ].

Lemma card_conf_eq (item : value) :
  nullish item = false ->
  Card.card_conf item
  = Normal (field item "confidence"
            ||| Card.coalesce (field (field item "_ml") "confidence_processed") VNull).
Proof. intros H. unfold Card.card_conf. read_fields item H. reflexivity. Qed.

Lemma card_reviewStatus_eq (item : value) :
  nullish item = false ->
  Card.card_reviewStatus item
  = Normal (field item "review_status" ||| field (field item "_ml") "review_status"
            ||| VNull).
Proof. intros H. unfold Card.card_reviewStatus. read_fields item H. reflexivity. Qed.

Lemma card_reviewedBy_eq (item : value) :
  nullish item = false ->
  Card.card_reviewedBy item
  = Normal (field (field item "reviewed_by") "username" ||| field item "reviewed_by"
            ||| VNull).
Proof. intros H. unfold Card.card_reviewedBy. read_fields item H. reflexivity. Qed.

(** A default that replaces a falsy value only. *)
Lemma or_else_default (a d d' : value) :
  truthy d = false ->
  a ||| d' = if truthy (a ||| d) then a ||| d else d'.
Proof.
  intros Hd. unfold or_else. destruct (truthy a) eqn:Ha.
  - now rewrite Ha.
  - now rewrite Hd.
Qed.

(** The card of a record that is not null, in closed form. *)
Lemma render_card_eq (E : engine) (P : Proto.object_prototype) (item : value) :
  nullish item = false ->
  Card.render_card E P item
  = (label <- toLowerCase E (field item "severity" ||| VStr "unknown") ;;
     let conf := field item "confidence"
                 ||| Card.coalesce (field (field item "_ml") "confidence_processed")
                                   VNull in
     let rs := field item "review_status"
               ||| field (field item "_ml") "review_status" ||| VNull in
     let rb := field (field item "reviewed_by") "username"
               ||| field item "reviewed_by" ||| VNull in
     let reviewerText :=
       if truthy rb then "by " ++ ToString E rb else EmptyString in
     Normal (Card.mkCard
               (field item "id")
               (display_name E item)
               (if truthy (field (field item "cattle") "tag_number")
                then "Tag: " ++ ToString E (field (field item "cattle") "tag_number")
                else EmptyString)
               (if truthy (field item "created_at")
                then Some (Date_value E (field item "created_at")) else None)
               (if truthy rs
                then Some (Card.Badge E P
                             (VStr (if Card.strict_eq rs "approved" then "approved"
                                    else if Card.strict_eq rs "edited" then "edited"
                                    else "rejected")), rs)
                else None)
               (display_disease item)
               (if truthy conf
                then number_toString E
                       (Math_round (num_mul E (ToNumber E conf) (Fin 100))) ++ "%"
                else Card.dash)
               (Card.Badge E P (field item "severity" ||| VStr "unknown"), label)
               (Card.ConfidenceBar E (conf ||| VNum 0))
               (if truthy (field item "recommendation")
                then Some (field item "recommendation") else None)
               (if truthy rs
                then ToString E rs
                     ++ (if negb (reviewerText =? EmptyString)
                         then " " ++ reviewerText else EmptyString)
                else "AI-generated"))).
Proof.
  intros H. unfold Card.render_card.
  rewrite card_conf_eq, card_reviewStatus_eq, card_reviewedBy_eq by exact H.
  read_fields item H.
  destruct (toLowerCase E (field item "severity" ||| VStr "unknown")) as [label|e];
    cbn [bind]; [|reflexivity].
  read_fields item H. reflexivity.
Qed.

(** X13. For a record that is not null, the row of the export and the card
    agree on the cattle name and the disease, and the exported review status
    and reviewer are those of the card (empty when the card has none). The
    confidence differs: the export reads the confidence of the record only,
    the card falls back to the processed confidence under [_ml]; so the
    exported percentage is the one on the card when the record has a
    confidence of its own, and is empty otherwise, even when the card shows a
    percentage. *)
Theorem X13_card_and_export (E : engine) (P : Proto.object_prototype)
        (item : value) (c : Card.card) :
  nullish item = false ->
  Card.render_card E P item = Normal c ->
  exists row conf rs rb,
    History.export_row E item = Normal row /\
    Card.card_conf item = Normal conf /\
    Card.card_reviewStatus item = Normal rs /\
    Card.card_reviewedBy item = Normal rb /\
    field row "cattle" = Card.cattleName c /\
    field row "disease" = Card.top c /\
    field row "review_status" = (if truthy rs then rs else VStr EmptyString) /\
    field row "reviewed_by" = (if truthy rb then rb else VStr EmptyString) /\
    (truthy (field item "confidence") = true ->
     field row "confidence" = VStr (Card.percent c)) /\
    (truthy (field item "confidence") = false ->
     field row "confidence" = VStr EmptyString /\
     Card.percent c
     = if truthy conf
       then number_toString E (Math_round (num_mul E (ToNumber E conf) (Fin 100))) ++ "%"
       else Card.dash).
Proof.
  intros Hn Hc. rewrite render_card_eq in Hc by exact Hn.
  destruct (toLowerCase _) as [label|e]; cbn [bind] in Hc; [|discriminate].
  cbv zeta in Hc. injection Hc as <-.
  eexists _, _, _, _.
  split; [now apply export_row_fields|].
  split; [now apply card_conf_eq|].
  split; [now apply card_reviewStatus_eq|].
  split; [now apply card_reviewedBy_eq|].
  cbn [Card.cattleName Card.top Card.percent].
  unfold field at 1 2 3 4 5 6. cbn [get].
  cbn [combine csv_header row_fields assoc String.eqb Ascii.eqb Bool.eqb].
  split; [reflexivity|]. split; [reflexivity|].
  split; [now apply or_else_default|].
  split; [now apply or_else_default|].
  unfold percentage. split.
  - intros Ht. rewrite Ht. rewrite (or_else_truthy _ _ Ht), Ht.
    now rewrite percent_text_eq.
  - intros Hf. rewrite Hf. split; reflexivity.
Qed.

Lemma X13_card_and_export_witness :
  exists c row,
    Card.render_card Reference.engine Proto.reference Fixture.processed_only
    = Normal c /\
    History.export_row Reference.engine Fixture.processed_only = Normal row /\
    Card.percent c = "87%" /\
    field row "confidence" = VStr EmptyString /\
    field row "review_status" = VStr "approved".
Proof.
  assert (Hc : exists c, Card.render_card Reference.engine Proto.reference
                           Fixture.processed_only = Normal c)
    by (eexists; vm_compute; reflexivity).
  destruct Hc as (c & Hc).
  destruct (X13_card_and_export Reference.engine Proto.reference
              Fixture.processed_only c eq_refl Hc)
    as (row & conf & rs & rb & Hrow & Hconf & Hrs & _ & _ & _ & Hst & _ & _ & Hpc).
  exists c, row. split; [exact Hc|]. split; [exact Hrow|].
  destruct (Hpc eq_refl) as (Hcell & Hpercent).
  vm_compute in Hconf. injection Hconf as <-.
  vm_compute in Hrs. injection Hrs as <-.
  split; [rewrite Hpercent; vm_compute; reflexivity|].
  split; [exact Hcell | exact Hst].
Defined.

(** ** Rounding to the nearest double

    The reference engine rounds as the doubles do: its rounding keeps the
    order of the reals that are not negative and is exact on the whole
    numbers below [2 ^ 53]. *)

(** *** Powers of two *)

Lemma pow2_pos (e : Z) : (0 < Reference.pow2 e)%Q.
Proof. apply Qpower_0_lt. reflexivity. Qed.

Lemma pow2_le (a b : Z) : (a <= b)%Z -> (Reference.pow2 a <= Reference.pow2 b)%Q.
Proof. intros H. apply Qpower_le_compat_l; [exact H | discriminate]. Qed.

Lemma pow2_lt (a b : Z) : (a < b)%Z -> (Reference.pow2 a < Reference.pow2 b)%Q.
Proof. intros H. apply Qpower_lt_compat_l; [exact H | reflexivity]. Qed.

Lemma pow2_lt_inv (a b : Z) : (Reference.pow2 a < Reference.pow2 b)%Q -> (a < b)%Z.
Proof. intros H. apply (Qpower_lt_compat_l_inv 2); [exact H | reflexivity]. Qed.

Lemma pow2_plus (a b : Z) : (Reference.pow2 (a + b) == Reference.pow2 a * Reference.pow2 b)%Q.
Proof. apply Qpower_plus. discriminate. Qed.

Lemma pow2_Z (n : Z) : (0 <= n)%Z -> (Reference.pow2 n == inject_Z (2 ^ n))%Q.
Proof. intros H. symmetry. apply (Zpower_Qpower 2 n H). Qed.

(** A power of two on the grid of a smaller one. *)
Lemma pow2_grid (a e : Z) :
  (e <= a)%Z -> (Reference.pow2 a == inject_Z (2 ^ (a - e)) * Reference.pow2 e)%Q.
Proof.
  intros H. rewrite <- pow2_Z by lia. rewrite <- pow2_plus.
  replace (a - e + e)%Z with a by lia. reflexivity.
Qed.

(** *** The binary exponent *)

Lemma log2_floor_spec (x : Q) :
  (0 < x)%Q -> (Reference.pow2 (Reference.log2_floor x) <= x < Reference.pow2 (Reference.log2_floor x + 1))%Q.
Proof.
  intros Hx. destruct x as [n d]. unfold Reference.log2_floor. cbn [Qnum Qden].
  assert (Hn : (0 < n)%Z) by (unfold Qlt in Hx; simpl in Hx; lia).
  set (a := Z.log2 n). set (b := Z.log2 (Z.pos d)).
  destruct (Z.log2_spec n Hn) as [Ha1 Ha2]. fold a in Ha1, Ha2.
  destruct (Z.log2_spec (Z.pos d) eq_refl) as [Hb1 Hb2]. fold b in Hb1, Hb2.
  assert (Ha0 : (0 <= a)%Z) by apply Z.log2_nonneg.
  assert (Hb0 : (0 <= b)%Z) by apply Z.log2_nonneg.
  (* n/d < 2^(a-b+1) and 2^(a-b-1) <= n/d *)
  assert (Hup : (n # d < Reference.pow2 (a - b + 1))%Q).
  { assert (E : (Reference.pow2 (a + 1) == Reference.pow2 (a - b + 1) * Reference.pow2 b)%Q).
    { rewrite <- pow2_plus. now replace (a - b + 1 + b)%Z with (a + 1)%Z by lia. }
    rewrite (pow2_Z (a + 1)), (pow2_Z b) in E by lia.
    apply Qlt_le_trans with (inject_Z (2 ^ (a + 1)) / inject_Z (Z.pos d))%Q.
    - rewrite (Qmake_Qdiv n d). apply Qmult_lt_compat_r.
      + apply Qinv_lt_0_compat. reflexivity.
      + rewrite <- Zlt_Qlt. exact Ha2.
    - apply Qle_shift_div_r; [reflexivity|].
      rewrite E. apply Qmult_le_l; [apply pow2_pos|].
      rewrite <- Zle_Qle. exact Hb1. }
  assert (Hlow : (Reference.pow2 (a - b - 1) <= n # d)%Q).
  { assert (E : (Reference.pow2 a == Reference.pow2 (a - b - 1) * Reference.pow2 (b + 1))%Q).
    { rewrite <- pow2_plus. now replace (a - b - 1 + (b + 1))%Z with a by lia. }
    rewrite (pow2_Z a), (pow2_Z (b + 1)) in E by lia.
    apply Qle_trans with (inject_Z (2 ^ a) / inject_Z (Z.pos d))%Q.
    - apply Qle_shift_div_l; [reflexivity|].
      rewrite E. apply Qmult_le_l; [apply pow2_pos|].
      rewrite <- Zle_Qle. lia.
    - rewrite (Qmake_Qdiv n d). apply Qmult_le_compat_r.
      + rewrite <- Zle_Qle. exact Ha1.
      + apply Qlt_le_weak, Qinv_lt_0_compat. reflexivity. }
  destruct (Qle_bool (Reference.pow2 (a - b)) (n # d)) eqn:Hk.
  - apply Qle_bool_iff in Hk. split; [exact Hk | exact Hup].
  - split; [exact Hlow|].
    replace (a - b - 1 + 1)%Z with (a - b)%Z by lia.
    apply Qnot_le_lt. intros H. apply Qle_bool_iff in H. congruence.
Qed.

Lemma log2_floor_mono (x y : Q) :
  (0 < x)%Q -> (x <= y)%Q -> (Reference.log2_floor x <= Reference.log2_floor y)%Z.
Proof.
  intros Hx Hxy.
  destruct (log2_floor_spec x Hx) as [H1 _].
  destruct (log2_floor_spec y) as [_ H2]; [lra|].
  assert (H : (Reference.pow2 (Reference.log2_floor x) < Reference.pow2 (Reference.log2_floor y + 1))%Q) by lra.
  apply pow2_lt_inv in H. lia.
Qed.

(** *** Rounding to the nearest whole number, ties to the even one *)

Lemma round_half_even_cases (y : Q) :
  Reference.round_half_even y = Qfloor y /\ (y - inject_Z (Qfloor y) <= 1 # 2)%Q \/
  Reference.round_half_even y = (Qfloor y + 1)%Z /\ (1 # 2 <= y - inject_Z (Qfloor y))%Q.
Proof.
  unfold Reference.round_half_even.
  destruct (Qcompare_spec (y - inject_Z (Qfloor y)) (1 # 2)) as [H|H|H].
  - destruct (Z.even (Qfloor y)); [left | right]; split; try reflexivity;
      rewrite H; apply Qle_refl.
  - left. split; [reflexivity | now apply Qlt_le_weak].
  - right. split; [reflexivity | now apply Qlt_le_weak].
Qed.

Lemma round_half_even_comp (y y' : Q) :
  (y == y')%Q -> Reference.round_half_even y = Reference.round_half_even y'.
Proof.
  intros H. unfold Reference.round_half_even.
  rewrite (Qfloor_comp _ _ H).
  assert (Hc : (y - inject_Z (Qfloor y') ?= 1 # 2)%Q
               = (y' - inject_Z (Qfloor y') ?= 1 # 2)%Q).
  { apply Qcompare_comp; [now rewrite H | reflexivity]. }
  now rewrite Hc.
Qed.

Lemma round_half_even_Z (z : Z) : Reference.round_half_even (inject_Z z) = z.
Proof.
  unfold Reference.round_half_even. rewrite Qfloor_Z.
  assert (H : (inject_Z z - inject_Z z ?= 1 # 2)%Q = Lt).
  { apply -> Qlt_alt. setoid_replace (inject_Z z - inject_Z z)%Q with 0%Q by ring.
    reflexivity. }
  now rewrite H.
Qed.

Lemma round_half_even_mono (y y' : Q) :
  (y <= y')%Q -> (Reference.round_half_even y <= Reference.round_half_even y')%Z.
Proof.
  intros H.
  pose proof (Qfloor_resp_le _ _ H) as Hf.
  pose proof (Qfloor_le y) as Hl. pose proof (Qlt_floor y) as Hu.
  pose proof (Qfloor_le y') as Hl'. pose proof (Qlt_floor y') as Hu'.
  rewrite inject_Z_plus in Hu, Hu'. change (inject_Z 1) with 1%Q in Hu, Hu'.
  destruct (Z.eq_dec (Qfloor y) (Qfloor y')) as [He|Hne].
  - unfold Reference.round_half_even. rewrite <- He.
    destruct (Qcompare_spec (y - inject_Z (Qfloor y)) (1 # 2)) as [H1|H1|H1];
      destruct (Qcompare_spec (y' - inject_Z (Qfloor y)) (1 # 2)) as [H2|H2|H2];
      try lia; try (destruct (Z.even (Qfloor y)); lia); exfalso; lra.
  - destruct (round_half_even_cases y) as [[-> _]|[-> _]];
      destruct (round_half_even_cases y') as [[-> _]|[-> _]]; lia.
Qed.

(** *** Rounding to a grid of step [2 ^ e] *)

Lemma on_grid_mono (e : Z) (x y : Q) :
  (x <= y)%Q -> (Reference.on_grid e x <= Reference.on_grid e y)%Q.
Proof.
  intros H. unfold Reference.on_grid.
  apply Qmult_le_compat_r; [|apply Qlt_le_weak, pow2_pos].
  rewrite <- Zle_Qle. apply round_half_even_mono.
  apply Qmult_le_compat_r; [exact H|].
  apply Qlt_le_weak, Qinv_lt_0_compat, pow2_pos.
Qed.

Lemma on_grid_fixed (e m : Z) (x : Q) :
  (x == inject_Z m * Reference.pow2 e)%Q -> (Reference.on_grid e x == x)%Q.
Proof.
  intros H. unfold Reference.on_grid.
  assert (Hd : (x / Reference.pow2 e == inject_Z m)%Q).
  { rewrite H. field. intros Hz. pose proof (pow2_pos e). lra. }
  rewrite (round_half_even_comp _ _ Hd), round_half_even_Z. now rewrite H.
Qed.

Lemma on_grid_le (e m : Z) (x : Q) :
  (x <= inject_Z m * Reference.pow2 e)%Q -> (Reference.on_grid e x <= inject_Z m * Reference.pow2 e)%Q.
Proof.
  intros H. rewrite <- (on_grid_fixed e m (inject_Z m * Reference.pow2 e)) by reflexivity.
  now apply on_grid_mono.
Qed.

Lemma on_grid_ge (e m : Z) (x : Q) :
  (inject_Z m * Reference.pow2 e <= x)%Q -> (inject_Z m * Reference.pow2 e <= Reference.on_grid e x)%Q.
Proof.
  intros H. rewrite <- (on_grid_fixed e m (inject_Z m * Reference.pow2 e)) by reflexivity.
  now apply on_grid_mono.
Qed.

(** *** The Reference.spacing of the doubles around a positive real *)

Lemma spacing_pos (x : Q) :
  (0 < x)%Q -> Reference.spacing x = Z.max (-1074) (Reference.log2_floor x - 52).
Proof.
  intros H. unfold Reference.spacing.
  assert (Ha : Qabs x = x).
  { destruct x as [[|p|p] d]; try reflexivity; discriminate H. }
  now rewrite Ha.
Qed.

(** Rounding keeps the order of the positive reals. *)
Lemma nearest_mono (x y : Q) :
  (0 < x)%Q -> (x <= y)%Q ->
  (Reference.on_grid (Reference.spacing x) x <= Reference.on_grid (Reference.spacing y) y)%Q.
Proof.
  intros Hx Hxy. assert (Hy : (0 < y)%Q) by lra.
  rewrite (spacing_pos x Hx), (spacing_pos y Hy).
  pose proof (log2_floor_mono x y Hx Hxy) as Hl.
  set (lx := Reference.log2_floor x) in *. set (ly := Reference.log2_floor y) in *.
  destruct (Z.eq_dec (Z.max (-1074) (lx - 52)) (Z.max (-1074) (ly - 52)))
    as [He|Hne].
  - rewrite He. now apply on_grid_mono.
  - assert (Hlt : (lx + 1 <= ly)%Z) by lia.
    assert (Hsy : Z.max (-1074) (ly - 52) = (ly - 52)%Z) by lia.
    destruct (log2_floor_spec x Hx) as [_ Hxu]. fold lx in Hxu.
    destruct (log2_floor_spec y Hy) as [Hyl _]. fold ly in Hyl.
    pose proof (pow2_le (lx + 1) ly Hlt) as Hp.
    apply Qle_trans with (Reference.pow2 ly).
    + rewrite (pow2_grid ly (Z.max (-1074) (lx - 52))) by lia.
      apply on_grid_le. rewrite <- pow2_grid by lia. lra.
    + rewrite Hsy. rewrite (pow2_grid ly (ly - 52)) at 1 by lia.
      apply on_grid_ge. rewrite <- pow2_grid by lia. exact Hyl.
Qed.

Lemma on_grid_nonneg (e : Z) (x : Q) : (0 <= x)%Q -> (0 <= Reference.on_grid e x)%Q.
Proof.
  intros H. assert (H0 : (inject_Z 0 * Reference.pow2 e <= x)%Q) by (rewrite Qmult_0_l; exact H).
  apply on_grid_ge in H0. now rewrite Qmult_0_l in H0.
Qed.

(** *** The Number value *)

Lemma negative_nonneg (r : Q) : (0 <= r)%Q -> negative r = false.
Proof.
  destruct r as [n d]. unfold Qle, negative. simpl. intros H.
  apply Z.ltb_ge. lia.
Qed.

Lemma Qabs_nonneg_eq (r : Q) : (0 <= r)%Q -> (Qabs r == r)%Q.
Proof. apply Qabs_pos. Qed.

Lemma clip_mono (r r' : Q) :
  (0 <= r)%Q -> (r <= r')%Q -> number_le (Reference.clip r) (Reference.clip r').
Proof.
  intros H0 H. assert (H0' : (0 <= r')%Q) by lra.
  unfold Reference.clip. rewrite (negative_nonneg r H0), (negative_nonneg r' H0').
  destruct (Qle_bool (Reference.pow2 1024) (Qabs r)) eqn:Hr;
    destruct (Qle_bool (Reference.pow2 1024) (Qabs r')) eqn:Hr'; simpl; trivial.
  apply Qle_bool_iff in Hr. rewrite (Qabs_nonneg_eq r H0) in Hr.
  assert (Hc : Qle_bool (Reference.pow2 1024) (Qabs r') = true).
  { apply Qle_bool_iff. rewrite (Qabs_nonneg_eq r' H0'). lra. }
  congruence.
Qed.

Lemma Qis_zero_iff (q : Q) : Qis_zero q = true <-> (q == 0)%Q.
Proof.
  unfold Qis_zero, Qeq. simpl. rewrite Z.eqb_eq. lia.
Qed.

Lemma clip_nonneg (r : Q) : (0 <= r)%Q -> number_le (Fin 0) (Reference.clip r).
Proof.
  intros H. unfold Reference.clip. rewrite (negative_nonneg r H).
  destruct (Qle_bool _ _); simpl; trivial.
Qed.

Lemma Number_value_mono (x y : Q) :
  (0 <= x)%Q -> (x <= y)%Q -> number_le (Reference.Number_value x) (Reference.Number_value y).
Proof.
  intros Hx Hxy. unfold Reference.Number_value.
  destruct (Qis_zero x) eqn:Zx.
  - destruct (Qis_zero y) eqn:Zy.
    + simpl. apply Qle_refl.
    + apply clip_nonneg, on_grid_nonneg. lra.
  - assert (Hx' : (0 < x)%Q).
    { apply Qnot_le_lt. intros H. assert (E : (x == 0)%Q) by lra.
      apply Qis_zero_iff in E. congruence. }
    destruct (Qis_zero y) eqn:Zy.
    + apply Qis_zero_iff in Zy. lra.
    + apply clip_mono; [apply on_grid_nonneg; lra | now apply nearest_mono].
Qed.

Lemma Number_value_exact (n : Z) :
  (0 <= n < 2 ^ 53)%Z ->
  exists r, Reference.Number_value (inject_Z n) = Fin r /\ (r == inject_Z n)%Q.
Proof.
  intros Hn. unfold Reference.Number_value.
  destruct (Qis_zero (inject_Z n)) eqn:Z0.
  - exists 0%Q. split; [reflexivity|]. apply Qis_zero_iff in Z0. now rewrite Z0.
  - assert (Hpos : (0 < inject_Z n)%Q).
    { apply Qnot_le_lt. intros H. change 0%Q with (inject_Z 0) in H.
      rewrite <- (Zle_Qle n 0) in H.
      assert (n = 0%Z) by lia. subst n. discriminate Z0. }
    set (x := inject_Z n) in *.
    assert (He : (Reference.spacing x <= 0)%Z).
    { rewrite (spacing_pos x Hpos).
      destruct (log2_floor_spec x Hpos) as [Hl _].
      assert (Hu : (x < Reference.pow2 53)%Q).
      { rewrite (pow2_Z 53) by lia. unfold x. rewrite <- Zlt_Qlt. lia. }
      assert (H : (Reference.pow2 (Reference.log2_floor x) < Reference.pow2 53)%Q) by lra.
      apply pow2_lt_inv in H. lia. }
    assert (Hg : (x == inject_Z (n * 2 ^ (0 - Reference.spacing x)) * Reference.pow2 (Reference.spacing x))%Q).
    { rewrite inject_Z_mult, <- Qmult_assoc, <- (pow2_grid 0 (Reference.spacing x) He).
      change (Reference.pow2 0) with 1%Q. unfold x. ring. }
    pose proof (on_grid_fixed (Reference.spacing x) _ x Hg) as Hfix.
    exists (Reference.on_grid (Reference.spacing x) x). split; [|exact Hfix].
    unfold Reference.clip.
    assert (Hb : Qle_bool (Reference.pow2 1024) (Qabs (Reference.on_grid (Reference.spacing x) x)) = false).
    { destruct (Qle_bool _ _) eqn:Hq; [|reflexivity].
      apply Qle_bool_iff in Hq.
      rewrite Hfix, (Qabs_nonneg_eq x) in Hq by lra.
      assert (Hu : (x < Reference.pow2 53)%Q).
      { rewrite (pow2_Z 53) by lia. unfold x. rewrite <- Zlt_Qlt. lia. }
      pose proof (pow2_le 53 1024 ltac:(lia)). lra. }
    now rewrite Hb.
Qed.

Lemma reference_rounds : rounds Reference.engine.
Proof.
  split.
  - intros x y. apply Number_value_mono.
  - intros n. apply Number_value_exact.
Qed.

(** The products are those of doubles: a hundred times the double of 0.285
    lies below 28.5 and is written 28%, a hundred times the double of 0.015 is
    1.5 and is written 2%, on the card, in its bar, in the export and in the
    average of the dashboard alike. *)
Example products_of_doubles :
  let c := VNum (Reference.double (285 # 1000)) in
  let d := VNum (Reference.double (15 # 1000)) in
  percentage Reference.engine c = VStr "28%" /\
  percentage Reference.engine d = VStr "2%" /\
  Card.ConfidenceBar Reference.engine c = Fin 28 /\
  Card.ConfidenceBar Reference.engine d = Fin 2 /\
  Stats.avgConfidence Reference.engine [VObj [("confidence", d)]] = Normal "2%".
Proof. vm_compute. repeat split; reflexivity. Qed.

(** ** The confidence bar *)

Lemma Qis_zero_eq (q : Q) : Qis_zero q = true -> (q == 0)%Q.
Proof.
  unfold Qis_zero, Qeq. intros H. apply Z.eqb_eq in H. rewrite H. reflexivity.
Qed.

Lemma Fin_inject_Z_inj (a b : Z) : Fin (inject_Z a) = Fin (inject_Z b) -> a = b.
Proof. intros H. now inversion H. Qed.

(** What an engine that rounds as the doubles do returns for a real between
    two whole numbers: a finite number between them. *)
Lemma rounds_between (E : engine) (x : Q) (lo hi : Z) :
  rounds E -> (0 <= lo)%Z -> (hi < 2 ^ 53)%Z ->
  (inject_Z lo <= x <= inject_Z hi)%Q ->
  exists r, Number_value E x = Fin r /\ (inject_Z lo <= r <= inject_Z hi)%Q.
Proof.
  intros [Hmono Hexact] Hlo Hhi [Hl Hu].
  assert (Hle : (lo <= hi)%Z) by (rewrite Zle_Qle; lra).
  assert (H0 : (0 <= inject_Z lo)%Q)
    by (change 0%Q with (inject_Z 0); now rewrite <- Zle_Qle).
  destruct (Hexact lo ltac:(lia)) as (a & Ha & Ea).
  destruct (Hexact hi ltac:(lia)) as (b & Hb & Eb).
  pose proof (Hmono _ _ H0 Hl) as H1. rewrite Ha in H1.
  pose proof (Hmono x _ ltac:(lra) Hu) as H2. rewrite Hb in H2.
  destruct (Number_value E x) as [|[|]|r]; simpl in H1, H2; try contradiction.
  exists r. split; [reflexivity | lra].
Qed.

Lemma rounds_mono (E : engine) (x y a b : Q) :
  rounds E -> (0 <= x)%Q -> (x <= y)%Q ->
  Number_value E x = Fin a -> Number_value E y = Fin b -> (a <= b)%Q.
Proof.
  intros [Hmono _] H0 Hxy Ha Hb.
  pose proof (Hmono x y H0 Hxy) as H. now rewrite Ha, Hb in H.
Qed.

(** X14. For an engine that rounds as the doubles do and a confidence
    between 0 and 1, the width of the confidence bar is a whole percentage
    between 0 and 100, and it grows with the confidence: a larger confidence
    never gives a narrower bar. *)
Theorem X14_confidence_bar_bounds (E : engine) (q : Q) :
  rounds E ->
  (0 <= q <= 1)%Q ->
  exists k,
    Card.ConfidenceBar E (VNum q) = Fin (inject_Z k) /\
    (0 <= k <= 100)%Z /\
    (forall q' k', (q <= q' <= 1)%Q ->
                   Card.ConfidenceBar E (VNum q') = Fin (inject_Z k') ->
                   (k <= k')%Z).
Proof.
  intros HE Hq.
  assert (Hbar : forall r, (0 <= r <= 1)%Q ->
             exists x p, (x == r * 100)%Q /\ Number_value E x = Fin p /\
                         (0 <= p <= 100)%Q /\
                         Card.ConfidenceBar E (VNum r)
                         = Fin (inject_Z (Qfloor (p + (1 # 2))))).
  { intros r Hr. unfold Card.ConfidenceBar. cbn [is_undefined].
    unfold or_else. cbn [truthy].
    destruct (Qis_zero r) eqn:Hz; cbn [negb ToNumber num_mul].
    - apply Qis_zero_eq in Hz.
      destruct (rounds_between E (0 * 100) 0 100 HE ltac:(lia) ltac:(lia))
        as (p & Hp & Hb); [split; discriminate|].
      exists (0 * 100)%Q, p. rewrite Hp.
      split; [rewrite Hz; reflexivity|]. split; [reflexivity|].
      split; [exact Hb | reflexivity].
    - destruct (rounds_between E (r * 100) 0 100 HE ltac:(lia) ltac:(lia))
        as (p & Hp & Hb).
      { change (inject_Z 0) with 0%Q. change (inject_Z 100) with 100%Q. lra. }
      exists (r * 100)%Q, p. rewrite Hp.
      split; [reflexivity|]. split; [reflexivity|].
      split; [exact Hb | reflexivity]. }
  destruct (Hbar q Hq) as (x & p & Hx & Hp & Hb & Hk).
  exists (Qfloor (p + (1 # 2))). split; [exact Hk|].
  change (inject_Z 0) with 0%Q in Hb. change (inject_Z 100) with 100%Q in Hb.
  split.
  - split.
    + apply (Qfloor_resp_le 0). lra.
    + apply (Z.le_trans _ (Qfloor (100 + (1 # 2))));
        [apply Qfloor_resp_le; lra | apply Z.leb_le; reflexivity].
  - intros q' k' Hq' Hk'.
    destruct (Hbar q' ltac:(lra)) as (x' & p' & Hx' & Hp' & _ & Hk'').
    rewrite Hk'' in Hk'. apply Fin_inject_Z_inj in Hk'.
    rewrite <- Hk'. apply Qfloor_resp_le.
    assert (Hpp : (p <= p')%Q).
    { apply (rounds_mono E x x' p p' HE); [lra | lra | exact Hp | exact Hp']. }
    lra.
Qed.

Lemma X14_confidence_bar_bounds_witness :
  exists k, Card.ConfidenceBar Reference.engine (VNum (Reference.double (37 # 40)))
            = Fin (inject_Z k) /\
            (0 <= k <= 100)%Z.
Proof.
  destruct (X14_confidence_bar_bounds Reference.engine (Reference.double (37 # 40))
              reference_rounds)
    as (k & Hk & Hb & _).
  - split; apply Qle_bool_iff; vm_compute; reflexivity.
  - exists k. split; assumption.
Defined.

(** ** The severity badge *)

Lemma variant_keys_lower (E : engine) (s c : string) :
  conforming E ->
  Proto.own s Card.variants = Some c -> String_toLowerCase E s = s.
Proof.
  intros HE. unfold Card.variants. cbn [Proto.own].
  repeat match goal with
         | |- context [if ?k =? ?lit then _ else _] =>
             destruct (String.eqb_spec k lit) as [->|_];
             [intros _; exact (proj1 (HE lit eq_refl))|]
         end.
  discriminate.
Qed.

(** A variant that is not in the table and is not an inherited member takes
    the classes of "unknown". *)
Lemma Badge_fallback (E : engine) (P : Proto.object_prototype) (s : string) :
  Proto.own s Card.variants = None ->
  Proto.member_text P s = None ->
  Card.Badge E P (VStr s) = Card.base ++ " " ++ "bg-gray-100 text-gray-700".
Proof.
  intros Hown Hmem. unfold Card.Badge, Card.variant_class.
  cbn [is_undefined ToString]. rewrite Hown, Hmem. reflexivity.
Qed.

(** X15. The severity filter ignores letter case, the colour of the severity
    badge does not: a record whose severity is low, medium or high written
    with a capital letter is selected by the corresponding filter and its
    badge is labelled in lower case, but the badge takes the gray classes of
    "unknown" and not the colour of its severity (the severity not being
    the name of an inherited member). Lower case is that of the engine; for
    the badge, the names of its variants must be in lower case already. *)
Theorem X15_badge_colour_is_case_sensitive (E : engine) (P : Proto.object_prototype)
        (item : value) (s : string) (c : Card.card) :
  nullish item = false ->
  field item "severity" = VStr s ->
  In (String_toLowerCase E s) ["low"; "medium"; "high"] ->
  s <> String_toLowerCase E s ->
  Proto.member_text P s = None ->
  Card.render_card E P item = Normal c ->
  History.matchesSeverity E (String_toLowerCase E s) item = Normal true /\
  (conforming E ->
   Card.severity_badge c
   = (Card.base ++ " " ++ "bg-gray-100 text-gray-700", String_toLowerCase E s)) /\
  Card.Badge E P (VStr (String_toLowerCase E s))
  <> Card.base ++ " " ++ "bg-gray-100 text-gray-700".
Proof.
  intros Hn Hsev Hin Hcase Hmem Hc.
  split; [|split].
  - unfold History.matchesSeverity.
    assert (Hall : (String_toLowerCase E s =? "all") = false).
    { simpl in Hin. destruct Hin as [<-|[<-|[<-|[]]]]; reflexivity. }
    rewrite Hall. rewrite get_field by exact Hn. cbn [bind].
    rewrite Hsev.
    assert (Hs : VStr s ||| VStr EmptyString = VStr s).
    { unfold or_else. cbn [truthy]. destruct s; reflexivity. }
    rewrite Hs. cbn [toLowerCase bind].
    now rewrite String.eqb_refl.
  - intros HE.
    assert (Hne : truthy (VStr s) = true).
    { cbn [truthy]. destruct s; [|reflexivity].
      exfalso. apply Hcase. symmetry. apply (conforming_empty E HE). }
    rewrite render_card_eq in Hc by exact Hn.
    rewrite Hsev, (or_else_truthy _ _ Hne) in Hc.
    cbn [toLowerCase bind] in Hc. cbv zeta in Hc. injection Hc as <-.
    cbn [Card.severity_badge]. f_equal.
    apply Badge_fallback; [|exact Hmem].
    destruct (Proto.own s Card.variants) as [cl|] eqn:Hown; [|reflexivity].
    apply (variant_keys_lower E _ _ HE) in Hown. congruence.
  - simpl in Hin. destruct Hin as [<-|[<-|[<-|[]]]]; discriminate.
Qed.

Lemma X15_badge_colour_is_case_sensitive_witness :
  exists c,
    Card.render_card Reference.engine Proto.reference Sample.high_record = Normal c /\
    History.matchesSeverity Reference.engine "high" Sample.high_record
    = Normal true /\
    Card.severity_badge c
    = (Card.base ++ " " ++ "bg-gray-100 text-gray-700", "high").
Proof.
  assert (Hc : exists c, Card.render_card Reference.engine Proto.reference
                           Sample.high_record = Normal c)
    by (eexists; vm_compute; reflexivity).
  destruct Hc as (c & Hc). exists c. split; [exact Hc|].
  destruct (X15_badge_colour_is_case_sensitive Reference.engine Proto.reference
              Sample.high_record "High" c)
    as (Hm & Hb & _); try assumption.
  - reflexivity.
  - reflexivity.
  - simpl. tauto.
  - discriminate.
  - reflexivity.
  - split; [exact Hm|]. apply Hb. intros s _. split; reflexivity.
Defined.

(** ** The body of the page *)

(** A card is built exactly for a record that is drawable. *)
Lemma render_card_throws (E : engine) (P : Proto.object_prototype) (item : value) :
  ~ drawable item -> Card.render_card E P item = Throw TypeError.
Proof.
  intros Hnot. destruct (nullish item) eqn:Hn.
  - destruct (nullish_cases item Hn) as [-> | ->]; reflexivity.
  - rewrite render_card_eq by exact Hn.
    destruct (field item "severity" ||| VStr "unknown") as [| |b|q|t|xs|fs] eqn:Hs;
      try reflexivity.
    exfalso. apply Hnot. split; [exact Hn|]. rewrite Hs. now exists t.
Qed.

Lemma map_m_length {A B} (f : A -> completion B) (l : list A) (r : list B) :
  map_m f l = Normal r -> List.length r = List.length l.
Proof.
  revert r. induction l as [|x l IH]; intros r; simpl.
  - now intros [= <-].
  - destruct (f x) as [y|e]; simpl; [|discriminate].
    destruct (map_m f l) as [r'|e]; simpl; [|discriminate].
    intros [= <-]. simpl. now rewrite (IH r' eq_refl).
Qed.

(** Which body the page takes, from the sorted set of a state whose page is
    in range. *)
Lemma page_body_cases (E : engine) (P : Proto.object_prototype)
      (st : History.state) (s : list value) :
  History.render_sorted E st = Normal s ->
  (1 <= History.st_itemsPerPage st)%Z ->
  (0 <= History.st_page st
   < History.pageCount (Z.of_nat (List.length s)) (History.st_itemsPerPage st))%Z ->
  Page.render_body E P st
  = if History.st_loading st then Normal Page.ShowLoading
    else match s with
         | [] => Normal Page.ShowEmpty
         | _ => cards <- map_m (Card.render_card E P)
                           (History.visible s (History.st_page st)
                                            (History.st_itemsPerPage st)) ;;
                Normal (Page.ShowCards cards)
         end.
Proof.
  intros Hs Hp Hpage.
  unfold Page.render_body, History.render_visible. rewrite Hs. cbn [bind].
  destruct (History.st_loading st); [reflexivity|].
  destruct s as [|x s]; [now rewrite visible_nil|].
  pose proof (visible_nonempty (x :: s) _ _ Hp Hpage ltac:(discriminate)) as Hne.
  destruct (History.visible (x :: s) _ _) eqn:Hv; [congruence | reflexivity].
Qed.

(** X8. In every state the view reaches from its initial state, the body of
    the page is the loading notice while loading; otherwise it is the notice
    "No diagnoses found" exactly when the filtered and sorted set is empty,
    never because the page index points past the last page: when the set is
    not empty the page is not empty and the body is made of the cards of its
    records, one card per record. Building the cards throws when a record of
    the page is not drawable (an entry that is null, or whose severity is
    neither absent nor a string); the render then shows nothing. *)
Theorem X8_empty_notice_iff_no_match (E : engine) (P : Proto.object_prototype)
        (evs : list History.event) (st : History.state) :
  History.run E History.initial evs st ->
  exists s,
    History.render_sorted E st = Normal s /\
    (Page.render_body E P st = Normal Page.ShowEmpty
     <-> History.st_loading st = false /\ s = []) /\
    (History.st_loading st = true ->
     Page.render_body E P st = Normal Page.ShowLoading) /\
    (History.st_loading st = false -> s <> [] ->
     exists x v,
       History.visible s (History.st_page st) (History.st_itemsPerPage st) = x :: v /\
       Page.render_body E P st
       = (cards <- map_m (Card.render_card E P) (x :: v) ;;
          Normal (Page.ShowCards cards)) /\
       (forall b, Page.render_body E P st = Normal b ->
                  exists c cs, b = Page.ShowCards (c :: cs) /\
                               List.length (c :: cs) = List.length (x :: v)) /\
       (forall item, In item (x :: v) -> ~ drawable item ->
                     Page.render_body E P st = Throw TypeError)).
Proof.
  intros Hrun.
  destruct (run_page_in_range E evs History.initial st 1%Z eq_refl
              ltac:(simpl; lia) Hrun) as (pc & Hpc & Hrange).
  apply render_pageCount_inv in Hpc as (s & Hs & ->).
  assert (Hp : (1 <= History.st_itemsPerPage st)%Z).
  { apply page_size_positive.
    apply (run_page_size E evs History.initial st); [simpl; tauto | exact Hrun]. }
  pose proof (page_body_cases E P st s Hs Hp Hrange) as Hbody.
  exists s. split; [exact Hs|].
  rewrite Hbody. split; [|split].
  - destruct (History.st_loading st).
    + split; [discriminate | intros [? _]; discriminate].
    + destruct s as [|x s]; [tauto|].
      split; [|intros [_ ?]; discriminate].
      destruct (map_m _ _); discriminate.
  - now intros ->.
  - intros -> Hne. destruct s as [|x s]; [congruence|].
    pose proof (visible_nonempty (x :: s) _ _ Hp Hrange ltac:(discriminate)) as Hv.
    destruct (History.visible (x :: s) _ _) as [|y v]; [congruence|].
    exists y, v. split; [reflexivity|]. split; [reflexivity|]. split.
    + intros b Hb.
      destruct (map_m (Card.render_card E P) (y :: v)) as [cards|e] eqn:Hm;
        cbn [bind] in Hb; [|discriminate].
      injection Hb as <-. pose proof (map_m_length _ _ _ Hm) as Hl.
      destruct cards as [|c cs]; [discriminate Hl|].
      now exists c, cs.
    + intros item Hin Hnot.
      rewrite (map_m_throws (Card.render_card E P) (y :: v) item Hin
                 (render_card_throws E P item Hnot)).
      reflexivity.
Qed.

Lemma X8_empty_notice_iff_no_match_witness :
  exists s,
    History.render_sorted Reference.engine Sample.crowded = Normal s /\
    (Page.render_body Reference.engine Proto.reference Sample.crowded
     = Normal Page.ShowEmpty
     <-> History.st_loading Sample.crowded = false /\ s = []).
Proof.
  destruct (X8_empty_notice_iff_no_match Reference.engine Proto.reference
              Sample.to_crowded Sample.crowded crowded_reachable)
    as (s & Hs & Hiff & _).
  exists s. split; assumption.
Defined.

(** The last page of thirteen diagnoses, six per page, shows one card. *)
Example crowded_last_page :
  exists c,
    Page.render_body Reference.engine Proto.reference Sample.crowded
    = Normal (Page.ShowCards [c]).
Proof. eexists. vm_compute. reflexivity. Qed.

(* ================================================================== *)
(** * Further properties of the dashboard                               *)
(* ================================================================== *)

(** ** The diagnoses, newest first *)

Lemma by_created_desc_agrees (E : engine) (x y : value) :
  dated E x -> dated E y ->
  agrees (newness E) (Dashboard.by_created_desc E) x y.
Proof.
  intros [tx Hx] [ty Hy]. unfold agrees, after, newness. rewrite Hx, Hy.
  unfold Stats.creation in Hx, Hy. unfold Dashboard.by_created_desc.
  destruct (get y "created_at") as [cy|e]; cbn [bind] in *; [|discriminate].
  destruct (get x "created_at") as [cx|e]; cbn [bind] in *; [|discriminate].
  injection Hx as ->. injection Hy as ->.
  eexists; split; [reflexivity|]. cbn [num_sub].
  now rewrite positive_sub, Qle_bool_opp.
Qed.

Lemma dated_defined (E : engine) (d : value) : dated E d -> is_undefined d = false.
Proof. intros [t Ht]. destruct d; try reflexivity. discriminate Ht. Qed.

(** The sort of line 67 on dated diagnoses. *)
Lemma sort_by_created_desc (E : engine) (ds : list value) :
  Forall (dated E) ds ->
  sort (Dashboard.by_created_desc E) ds = Normal (arrange (newness E) ds).
Proof.
  intros Hd. rewrite Forall_forall in Hd. apply sort_arrange.
  - intros x Hx. eapply dated_defined; eauto.
  - intros x y Hx Hy. apply by_created_desc_agrees; auto.
Qed.

Lemma newness_order (E : engine) (x y : value) :
  rank_le (newness E) x y -> not_older E x y.
Proof.
  unfold rank_le, newness, not_older. intros H tx ty Hx Hy.
  rewrite Hx, Hy in H. lra.
Qed.

(** The state after both requests are fulfilled with arrays of dated
    diagnoses. *)
Lemma dashboard_loaded (E : engine) (st : Dashboard.state) (cs ds : list value) :
  Forall (dated E) ds ->
  Dashboard.perform_all st
    (Dashboard.load_settle E false (Resolved (VArr cs)) (Resolved (VArr ds)))
  = Dashboard.mkState cs (arrange (newness E) ds) false.
Proof.
  intros Hd. unfold Dashboard.load_settle. cbn [Array_isArray elements negb].
  rewrite sort_by_created_desc by assumption. reflexivity.
Qed.

(** X16. When both requests of the dashboard are fulfilled with arrays and
    every diagnosis carries a valid creation date, the cattle are stored as
    received, the loading flag is cleared and the diagnoses are stored as a
    permutation of those received in which each one is at least as recent as
    the next: newest first. *)
Theorem X16_dashboard_diagnoses_newest_first (E : engine) (st : Dashboard.state)
        (cs ds : list value) :
  Forall (dated E) ds ->
  let st' := Dashboard.perform_all st
               (Dashboard.load_settle E false (Resolved (VArr cs))
                                      (Resolved (VArr ds))) in
  Dashboard.st_cattle st' = cs /\
  Dashboard.st_loading st' = false /\
  Permutation ds (Dashboard.st_diagnoses st') /\
  (forall i x y,
      nth_error (Dashboard.st_diagnoses st') i = Some x ->
      nth_error (Dashboard.st_diagnoses st') (S i) = Some y ->
      not_older E x y).
Proof.
  intros Hd st'. unfold st'. rewrite dashboard_loaded by assumption.
  cbn [Dashboard.st_cattle Dashboard.st_loading Dashboard.st_diagnoses].
  split; [reflexivity|]. split; [reflexivity|]. split; [apply arrange_perm|].
  intros i x y Hx Hy. apply newness_order.
  exact (Sorted_adjacent _ _ _ _ _ (arrange_sorted (newness E) ds) Hx Hy).
Qed.

Lemma X16_dashboard_diagnoses_newest_first_witness :
  Permutation Fixture.eight
    (Dashboard.st_diagnoses
       (Dashboard.perform_all Dashboard.initial
          (Dashboard.load_settle Reference.engine false
             (Resolved (VArr Fixture.herd)) (Resolved (VArr Fixture.eight))))).
Proof.
  refine (proj1 (proj2 (proj2
            (X16_dashboard_diagnoses_newest_first Reference.engine
               Dashboard.initial Fixture.herd Fixture.eight _)))).
  repeat constructor; eexists; vm_compute; reflexivity.
Defined.

(** ** The six most recent diagnoses *)

Lemma StronglySorted_app {A} (R : A -> A -> Prop) (l1 l2 : list A) (x y : A) :
  StronglySorted R (l1 ++ l2) -> In x l1 -> In y l2 -> R x y.
Proof.
  induction l1 as [|a l1 IH]; simpl; intros Hs Hx Hy; [contradiction|].
  apply StronglySorted_inv in Hs as [Hs Ha].
  destruct Hx as [->|Hx].
  - rewrite Forall_forall in Ha. apply Ha, in_or_app. now right.
  - now apply IH.
Qed.

Lemma recent_firstn (l : list value) : Stats.recent l = firstn 6 l.
Proof. unfold Stats.recent. exact (slice_window l 0 6). Qed.

(** X17. The list of recent diagnoses of the dashboard holds the first six
    stored diagnoses (all of them when there are fewer).  After a successful
    load of dated diagnoses these are the six most recent: every diagnosis
    shown is at least as recent as every diagnosis left out. *)
Theorem X17_recent_are_the_six_newest (E : engine) (st : Dashboard.state)
        (cs ds : list value) :
  Forall (dated E) ds ->
  let stored := Dashboard.st_diagnoses
                  (Dashboard.perform_all st
                     (Dashboard.load_settle E false (Resolved (VArr cs))
                                            (Resolved (VArr ds)))) in
  List.length (Stats.recent stored) = Nat.min 6 (List.length ds) /\
  exists rest,
    stored = (Stats.recent stored ++ rest)%list /\
    forall x y, In x (Stats.recent stored) -> In y rest -> not_older E x y.
Proof.
  intros Hd stored. unfold stored. rewrite dashboard_loaded by assumption.
  cbn [Dashboard.st_diagnoses]. rewrite recent_firstn. split.
  - rewrite length_firstn.
    now rewrite <- (Permutation_length (arrange_perm (newness E) ds)).
  - exists (skipn 6 (arrange (newness E) ds)). split.
    + symmetry. apply firstn_skipn.
    + intros x y Hx Hy. apply newness_order.
      apply (StronglySorted_app (rank_le (newness E)) _ _ x y
               ltac:(rewrite firstn_skipn;
                     apply strongly_sorted, arrange_sorted) Hx Hy).
Qed.

Lemma X17_recent_are_the_six_newest_witness :
  List.length
    (Stats.recent
       (Dashboard.st_diagnoses
          (Dashboard.perform_all Dashboard.initial
             (Dashboard.load_settle Reference.engine false
                (Resolved (VArr Fixture.herd)) (Resolved (VArr Fixture.eight))))))
  = 6%nat.
Proof.
  refine (proj1 (X17_recent_are_the_six_newest Reference.engine
                   Dashboard.initial Fixture.herd Fixture.eight _)).
  repeat constructor; eexists; vm_compute; reflexivity.
Defined.

(** ** The health overview *)















(** ** The average confidence *)

(** The sum the reduction carries stays a finite number between 0 and the
    number of diagnoses added. *)
Lemma sum_confidence_bounds (E : engine) (ds : list value) :
  rounds E ->
  Forall confidence_in_range ds ->
  forall (s : Q) (k : Z),
    (0 <= k)%Z ->
    (k + Z.of_nat (List.length ds) < 2 ^ 53)%Z ->
    (0 <= s <= inject_Z k)%Q ->
    exists s',
      Stats.sum_confidence E (Stats.PNum (Fin s)) ds = Normal (Stats.PNum (Fin s')) /\
      (0 <= s' <= inject_Z (k + Z.of_nat (List.length ds)))%Q.
Proof.
  intros HE. induction 1 as [|d ds [Hd Hc] _ IH]; intros s k Hk Hlen Hs.
  - exists s. split; [reflexivity|]. simpl. now rewrite Z.add_0_r.
  - cbn [Stats.sum_confidence]. rewrite (get_field d "confidence" Hd).
    cbn [bind].
    change (List.length (d :: ds)) with (S (List.length ds)) in *.
    rewrite Nat2Z.inj_succ in *.
    assert (Hstep : exists r, (0 <= r <= inject_Z (k + 1))%Q /\
              Stats.plus E (Stats.PNum (Fin s)) (field d "confidence" ||| VNum 0)
              = Stats.PNum (Fin r)).
    { assert (Hq : exists q, (0 <= q <= 1)%Q /\
                Stats.plus E (Stats.PNum (Fin s)) (field d "confidence" ||| VNum 0)
                = Stats.PNum (Number_value E (s + q))).
      { destruct Hc as [Hf|(q & Hq & Hr)].
        - rewrite (or_else_falsy _ _ Hf). exists 0%Q. split; [lra | reflexivity].
        - rewrite Hq. exists (if Qis_zero q then 0%Q else q). split.
          + destruct (Qis_zero q); lra.
          + unfold or_else. cbn [truthy]. now destruct (Qis_zero q). }
      destruct Hq as (q & Hq & ->).
      destruct (rounds_between E (s + q) 0 (k + 1) HE ltac:(lia) ltac:(lia))
        as (r & -> & Hr).
      { rewrite inject_Z_plus. change (inject_Z 1) with 1%Q.
        change (inject_Z 0) with 0%Q. lra. }
      exists r. split; [exact Hr | reflexivity]. }
    destruct Hstep as (r & Hr & ->).
    destruct (IH r (k + 1)%Z ltac:(lia) ltac:(lia) Hr) as (s' & Hrun & Hs').
    exists s'. split; [exact Hrun|].
    now replace (k + Z.succ (Z.of_nat (List.length ds)))%Z
      with (k + 1 + Z.of_nat (List.length ds))%Z by lia.
Qed.

(** X20. With no diagnosis the average confidence of the dashboard is a dash.
    Otherwise, for an engine that rounds as the doubles do, a collection of
    fewer than [2 ^ 32] diagnoses (what an array can hold), each with a
    confidence that is absent (counted as zero) or a number between 0 and 1,
    it is a whole percentage between 0 and 100 followed by the percent
    sign. *)
Theorem X20_average_confidence (E : engine) (diagnoses : list value) :
  rounds E ->
  (Z.of_nat (List.length diagnoses) < 2 ^ 32)%Z ->
  Forall confidence_in_range diagnoses ->
  (diagnoses = [] -> Stats.avgConfidence E diagnoses = Normal Card.dash) /\
  (diagnoses <> [] ->
   exists k,
     Stats.avgConfidence E diagnoses
     = Normal (Number_toString E (inject_Z k) ++ "%") /\
     (0 <= k <= 100)%Z).
Proof.
  intros HE Hsize Hc. split; [intros ->; reflexivity|]. intros Hne.
  unfold Stats.avgConfidence, Stats.totalDiagnoses.
  destruct diagnoses as [|d ds]; [contradiction|].
  set (l := d :: ds) in *.
  assert (Hlen : (0 < List.length l)%nat) by (unfold l; simpl; lia).
  apply Nat.ltb_lt in Hlen as Hlt. rewrite Hlt.
  assert (Hbig : (2 ^ 32 < 2 ^ 53)%Z) by (apply Z.ltb_lt; reflexivity).
  destruct (sum_confidence_bounds E l HE Hc 0%Q 0%Z ltac:(lia) ltac:(lia))
    as (s & Hrun & Hs); [split; apply Qle_refl|].
  rewrite Hrun. cbn [bind Stats.primitive_number num_div].
  rewrite Z.add_0_l in Hs.
  set (n := inject_Z (Z.of_nat (List.length l))) in *.
  assert (Hn : (0 < n)%Q).
  { unfold n. change 0%Q with (inject_Z 0). rewrite <- Zlt_Qlt. lia. }
  assert (Hlo : (0 <= s / n)%Q) by (apply Qle_shift_div_l; lra).
  assert (Hhi : (s / n <= 1)%Q) by (apply Qle_shift_div_r; lra).
  destruct (rounds_between E (s / n) 0 1 HE ltac:(lia) ltac:(lia))
    as (a & -> & Ha); [split; assumption|].
  change (inject_Z 0) with 0%Q in Ha. change (inject_Z 1) with 1%Q in Ha.
  cbn [num_mul].
  destruct (rounds_between E (a * 100) 0 100 HE ltac:(lia) ltac:(lia))
    as (p & -> & Hp).
  { change (inject_Z 0) with 0%Q. change (inject_Z 100) with 100%Q. lra. }
  change (inject_Z 0) with 0%Q in Hp. change (inject_Z 100) with 100%Q in Hp.
  cbn [Math_round number_toString].
  eexists. split; [reflexivity|].
  split.
  - apply (Qfloor_resp_le 0). lra.
  - apply (Z.le_trans _ (Qfloor (100 + (1 # 2))));
      [apply Qfloor_resp_le; lra | apply Z.leb_le; reflexivity].
Qed.

Lemma X20_average_confidence_witness :
  exists k,
    Stats.avgConfidence Reference.engine Fixture.eight
    = Normal (Number_toString Reference.engine (inject_Z k) ++ "%") /\
    (0 <= k <= 100)%Z.
Proof.
  refine (proj2 (X20_average_confidence Reference.engine Fixture.eight
                   reference_rounds _ _) _).
  - apply Z.ltb_lt. reflexivity.
  - apply Forall_forall. intros d Hd.
    repeat (destruct Hd as [<-|Hd];
            [split; [reflexivity|]; right; exists (3 # 4); split;
               [reflexivity | split; discriminate]|]).
    contradiction.
  - discriminate.
Defined.

(* ================================================================== *)
(** * Properties of the access token                                    *)
(* ================================================================== *)




